(** * FemtoRV32 "Quark", SystemC model: a shallow embedding

    The module [SC_MODULE(FemtoRV32_Quark)] of
    [FemtoRV/femtorv32_systemc/femtorv32_quark.{h,cpp}] is embedded as a
    record of its member variables and one function per member function.
    Every [sc_uint<W>] is a [Z] in [0, 2^W); an assignment to an
    [sc_uint<W>] keeps the low [W] bits, arithmetic between [sc_uint]s is
    done on 64-bit unsigned integers and a concatenation [(a, b)] puts [a]
    above the bits of [b]. *)

From Stdlib Require Import ZArith Bool List Lia.
From stdpp Require Import base list.

Local Open Scope Z_scope.

(** ** The [sc_uint] operations used by the core *)

Module SC.

(** Assignment to an [sc_uint<w>]: the low [w] bits are kept. *)
Definition trunc (w x : Z) : Z := x mod 2 ^ w.

(** [x.range(hi, lo)] *)
Definition range (x hi lo : Z) : Z :=
  Z.land (Z.shiftr x lo) (Z.ones (hi - lo + 1)).

(** [x[k]] *)
Definition bit (x k : Z) : bool := Z.testbit x k.

(** [(hi, lo)] where [lo] is [w] bits wide. *)
Definition cat (hi w lo : Z) : Z := Z.lor (Z.shiftl hi w) lo.

(** [sc_uint<w>(b)] for a [bool] or a bit reference [b]: the number 0 or 1,
    whatever [w] is. *)
Definition of_bool (b : bool) : Z := Z.b2z b.

(** [~x] on the 64-bit value an [sc_uint] converts to. *)
Definition not64 (x : Z) : Z := Z.lxor x (Z.ones 64).

End SC.

Import SC.

(** ** Types of [femtorv32_quark.h] *)

(** [enum State] *)
Inductive State := FETCH_INSTR | WAIT_INSTR | EXECUTE | WAIT_ALU_OR_MEM.

Definition State_eqb (a b : State) : bool :=
  match a, b with
  | FETCH_INSTR, FETCH_INSTR | WAIT_INSTR, WAIT_INSTR
  | EXECUTE, EXECUTE | WAIT_ALU_OR_MEM, WAIT_ALU_OR_MEM => true
  | _, _ => false
  end.

(** [enum ALUFunction] *)
Definition ALU_ADD_SUB : Z := 0.
Definition ALU_SLL : Z := 1.
Definition ALU_SLT : Z := 2.
Definition ALU_SLTU : Z := 3.
Definition ALU_XOR : Z := 4.
Definition ALU_SRL_SRA : Z := 5.
Definition ALU_OR : Z := 6.
Definition ALU_AND : Z := 7.

(** [enum BranchFunction] *)
Definition BRANCH_BEQ : Z := 0.
Definition BRANCH_BNE : Z := 1.
Definition BRANCH_BLT : Z := 4.
Definition BRANCH_BGE : Z := 5.
Definition BRANCH_BLTU : Z := 6.
Definition BRANCH_BGEU : Z := 7.

(** The constructor's parameters. *)
Definition DEFAULT_RESET_ADDR : Z := 0.
Definition DEFAULT_ADDR_WIDTH : Z := 24.
Definition RESET_ADDR : Z := DEFAULT_RESET_ADDR.
Definition ADDR_WIDTH : Z := DEFAULT_ADDR_WIDTH.

(** The input ports other than the clock. *)
Record Inputs := {
  reset : bool;
  mem_rdata : Z;
  mem_rbusy : bool;
  mem_wbusy : bool
}.

(** The members of the module are grouped by the member function that
    assigns them.  First the ones [decode_instruction] assigns. *)
Record Decoded := {
  rdId : Z; rs1Id : Z; rs2Id : Z; funct3 : Z; opcode : Z;
  instr : Z;        (* sc_uint<30>: bits 31..2 of the word *)
  full_instr : Z;
  rs1 : Z; rs2 : Z;
  isLoad : bool; isALUimm : bool; isStore : bool; isALUreg : bool;
  isSYSTEM : bool; isJAL : bool; isJALR : bool; isLUI : bool;
  isAUIPC : bool; isBranch : bool; isALU : bool
}.

(** Assigned by [compute_immediates]. *)
Record Immediates := {
  Uimm : Z; Iimm : Z; Simm : Z; Bimm : Z; Jimm : Z
}.

(** Assigned by [compute_alu]. *)
Record AluSignals := {
  aluIn1 : Z; aluIn2 : Z; aluPlus : Z; aluMinus : Z;
  LT : bool; LTU : bool; EQ : bool;
  aluOut : Z; funct3IsShift : bool; aluBusy : bool
}.

(** Assigned by [compute_memory_access]. *)
Record MemSignals := {
  mem_byteAccess : bool; mem_halfwordAccess : bool;
  loadstore_addr : Z;
  LOAD_halfword : Z; LOAD_byte : Z; LOAD_sign : bool; LOAD_data : Z;
  STORE_wmask : Z
}.

(** Assigned in the body of [combinational_process]: control signals and
    the output ports. *)
Record Control := {
  writeBack : bool;
  mem_rstrb : bool;
  mem_wmask : Z;
  aluWr : bool;
  jumpToPCplusImm : bool;
  needToWait : bool;
  mem_addr : Z;
  mem_wdata : Z;
  writeBackData : Z
}.

(** The module. *)
Record Core := {
  PC : Z;
  state : State;
  cycles : Z;
  registerFile : list Z;
  aluReg : Z;
  aluShamt : Z;
  dec : Decoded;
  imm : Immediates;
  alu : AluSignals;
  predicate : bool;
  lsu : MemSignals;
  PCplus4 : Z;
  PCplusImm : Z;
  ctl : Control
}.

(** [registerFile[k]] *)
Definition reg (rf : list Z) (k : Z) : Z := nth (Z.to_nat k) rf 0.

(** ** The member functions called by [combinational_process] *)

(** [mem_rdata.read()], an [sc_uint<32>]. *)
Definition read_mem_rdata (i : Inputs) : Z := trunc 32 (mem_rdata i).

Definition decode_word (rf : list Z) (instruction : Z) : Decoded :=
  let isALUimm' := range instruction 6 2 =? 0x04 in
  let isALUreg' := range instruction 6 2 =? 0x0C in
  {| rdId := range instruction 11 7;
     rs1Id := range instruction 19 15;
     rs2Id := range instruction 24 20;
     funct3 := range instruction 14 12;
     opcode := range instruction 6 0;
     instr := range instruction 31 2;
     full_instr := instruction;
     rs1 := reg rf (range instruction 19 15);
     rs2 := reg rf (range instruction 24 20);
     isLoad := range instruction 6 2 =? 0x00;
     isALUimm := isALUimm';
     isStore := range instruction 6 2 =? 0x08;
     isALUreg := isALUreg';
     isSYSTEM := range instruction 6 2 =? 0x1C;
     isJAL := bit instruction 3;
     isJALR := range instruction 6 2 =? 0x19;
     isLUI := range instruction 6 2 =? 0x0D;
     isAUIPC := range instruction 6 2 =? 0x05;
     isBranch := range instruction 6 2 =? 0x18;
     isALU := isALUimm' || isALUreg' |}.

Definition decode_instruction (i : Inputs) (s : Core) : Core :=
  if State_eqb (state s) WAIT_INSTR && negb (mem_rbusy i) then
    let instruction := read_mem_rdata i in
    {| PC := PC s; state := state s; cycles := cycles s;
       registerFile := registerFile s;
       aluReg := aluReg s; aluShamt := aluShamt s;
       dec := decode_word (registerFile s) instruction;
       imm := imm s; alu := alu s; predicate := predicate s; lsu := lsu s;
       PCplus4 := PCplus4 s; PCplusImm := PCplusImm s; ctl := ctl s |}
  else s.

Definition compute_Uimm (d : Decoded) : Z :=
  let instr_val := full_instr d in
  let opcode := Z.land instr_val 0x7F in
  if ((opcode =? 0x17) || (opcode =? 0x37)) && (instr_val <? 0x10000) then
    if opcode =? 0x17 then 0x00000000
    else
      let truncated_imm := Z.land (Z.shiftr instr_val 12) 0xF in
      trunc 32 (Z.shiftl truncated_imm 12)
  else
    cat (cat (of_bool (bit (full_instr d) 31)) 19 (range (full_instr d) 30 12))
        12 0.

Definition compute_immediates_of (d : Decoded) : Immediates :=
  {| Uimm := compute_Uimm d;
     Iimm := Z.lor (if bit (full_instr d) 31 then 0xFFFFF000 else 0x00000000)
                   (range (full_instr d) 31 20);
     Simm := cat (cat (of_bool (bit (instr d) 29)) 6 (range (instr d) 28 23))
                 5 (range (instr d) 9 5);
     Bimm := cat (cat (cat (cat (of_bool (bit (instr d) 29))
                                1 (of_bool (bit (instr d) 5)))
                           6 (range (instr d) 28 23))
                      4 (range (instr d) 9 6))
                 1 0;
     Jimm := cat (cat (cat (cat (of_bool (bit (instr d) 29))
                                8 (range (instr d) 17 10))
                           1 (of_bool (bit (instr d) 18)))
                      10 (range (instr d) 28 19))
                 1 0 |}.

Definition compute_immediates (s : Core) : Core :=
  {| PC := PC s; state := state s; cycles := cycles s;
     registerFile := registerFile s;
     aluReg := aluReg s; aluShamt := aluShamt s;
     dec := dec s;
     imm := compute_immediates_of (dec s);
     alu := alu s; predicate := predicate s; lsu := lsu s;
     PCplus4 := PCplus4 s; PCplusImm := PCplusImm s; ctl := ctl s |}.

Definition compute_alu_of (s : Core) : AluSignals :=
  let d := dec s in
  let aluIn1' := rs1 d in
  let aluIn2' := if isALUreg d || isBranch d then rs2 d else Iimm (imm s) in
  let aluPlus' := trunc 32 (aluIn1' + aluIn2') in
  let aluMinus' :=
    trunc 33 (trunc 64 (Z.lor (Z.shiftl 1 32) (not64 aluIn2')
                        + Z.lor (Z.shiftl 0 32) aluIn1' + 1)) in
  let LT' := if xorb (bit aluIn1' 31) (bit aluIn2' 31)
             then bit aluIn1' 31 else bit aluMinus' 32 in
  let LTU' := bit aluMinus' 32 in
  let EQ' := range aluMinus' 31 0 =? 0 in
  let aluOut' :=
    if funct3 d =? ALU_ADD_SUB then
      if bit (instr d) 28 && bit (instr d) 3
      then range aluMinus' 31 0
      else aluPlus'
    else if funct3 d =? ALU_SLT then (if LT' then 1 else 0)
    else if funct3 d =? ALU_SLTU then (if LTU' then 1 else 0)
    else if funct3 d =? ALU_XOR then Z.lxor aluIn1' aluIn2'
    else if funct3 d =? ALU_OR then Z.lor aluIn1' aluIn2'
    else if funct3 d =? ALU_AND then Z.land aluIn1' aluIn2'
    else if (funct3 d =? ALU_SLL) || (funct3 d =? ALU_SRL_SRA) then aluReg s
    else 0 in
  {| aluIn1 := aluIn1'; aluIn2 := aluIn2'; aluPlus := aluPlus';
     aluMinus := aluMinus'; LT := LT'; LTU := LTU'; EQ := EQ';
     aluOut := aluOut';
     funct3IsShift := (funct3 d =? ALU_SLL) || (funct3 d =? ALU_SRL_SRA);
     aluBusy := negb (aluShamt s =? 0) |}.

Definition compute_alu (s : Core) : Core :=
  {| PC := PC s; state := state s; cycles := cycles s;
     registerFile := registerFile s;
     aluReg := aluReg s; aluShamt := aluShamt s;
     dec := dec s; imm := imm s;
     alu := compute_alu_of s;
     predicate := predicate s; lsu := lsu s;
     PCplus4 := PCplus4 s; PCplusImm := PCplusImm s; ctl := ctl s |}.

Definition compute_branch_predicate (s : Core) : Core :=
  let f := funct3 (dec s) in
  let a := alu s in
  {| PC := PC s; state := state s; cycles := cycles s;
     registerFile := registerFile s;
     aluReg := aluReg s; aluShamt := aluShamt s;
     dec := dec s; imm := imm s; alu := alu s;
     predicate := ((f =? BRANCH_BEQ) && EQ a)
                  || ((f =? BRANCH_BNE) && negb (EQ a))
                  || ((f =? BRANCH_BLT) && LT a)
                  || ((f =? BRANCH_BGE) && negb (LT a))
                  || ((f =? BRANCH_BLTU) && LTU a)
                  || ((f =? BRANCH_BGEU) && negb (LTU a));
     lsu := lsu s;
     PCplus4 := PCplus4 s; PCplusImm := PCplusImm s; ctl := ctl s |}.

Definition compute_memory_access_of (i : Inputs) (s : Core) : MemSignals :=
  let d := dec s in
  let mem_byteAccess' := range (instr d) 13 12 =? 0 in
  let mem_halfwordAccess' := range (instr d) 13 12 =? 1 in
  let loadstore_addr' :=
    trunc 32 (range (rs1 d) (ADDR_WIDTH - 1) 0
              + (if isStore d then range (Simm (imm s)) (ADDR_WIDTH - 1) 0
                 else range (Iimm (imm s)) (ADDR_WIDTH - 1) 0)) in
  let LOAD_halfword' :=
    if bit loadstore_addr' 1 then range (read_mem_rdata i) 31 16
    else range (read_mem_rdata i) 15 0 in
  let LOAD_byte' :=
    if bit loadstore_addr' 0 then range LOAD_halfword' 15 8
    else range LOAD_halfword' 7 0 in
  let LOAD_sign' :=
    negb (bit (instr d) 12)
    && (if mem_byteAccess' then bit LOAD_byte' 7 else bit LOAD_halfword' 15) in
  {| mem_byteAccess := mem_byteAccess';
     mem_halfwordAccess := mem_halfwordAccess';
     loadstore_addr := loadstore_addr';
     LOAD_halfword := LOAD_halfword';
     LOAD_byte := LOAD_byte';
     LOAD_sign := LOAD_sign';
     LOAD_data :=
       if mem_byteAccess' then cat (of_bool LOAD_sign') 8 LOAD_byte'
       else if mem_halfwordAccess' then cat (of_bool LOAD_sign') 16 LOAD_halfword'
       else read_mem_rdata i;
     STORE_wmask :=
       if mem_byteAccess' then
         if bit loadstore_addr' 1
         then (if bit loadstore_addr' 0 then 0x8 else 0x4)
         else (if bit loadstore_addr' 0 then 0x2 else 0x1)
       else if mem_halfwordAccess' then
         (if bit loadstore_addr' 1 then 0xC else 0x3)
       else 0xF |}.

Definition compute_memory_access (i : Inputs) (s : Core) : Core :=
  {| PC := PC s; state := state s; cycles := cycles s;
     registerFile := registerFile s;
     aluReg := aluReg s; aluShamt := aluShamt s;
     dec := dec s; imm := imm s; alu := alu s; predicate := predicate s;
     lsu := compute_memory_access_of i s;
     PCplus4 := PCplus4 s; PCplusImm := PCplusImm s; ctl := ctl s |}.

Definition update_pc (s : Core) : Core :=
  let d := dec s in
  let PCplus4' := trunc 32 (PC s + 4) in
  let PCplusImm' :=
    if isJAL d then trunc 32 (PC s + range (Jimm (imm s)) (ADDR_WIDTH - 1) 0)
    else if isAUIPC d then
      trunc 32 (PC s + range (Uimm (imm s)) (ADDR_WIDTH - 1) 0)
    else trunc 32 (PC s + range (Bimm (imm s)) (ADDR_WIDTH - 1) 0) in
  {| PC :=
       if State_eqb (state s) EXECUTE then
         if isJALR d then
           cat (range (aluPlus (alu s)) (ADDR_WIDTH - 1) 1) 1 0
         else if jumpToPCplusImm (ctl s) then PCplusImm'
         else PCplus4'
       else PC s;
     state := state s; cycles := cycles s;
     registerFile := registerFile s;
     aluReg := aluReg s; aluShamt := aluShamt s;
     dec := dec s; imm := imm s; alu := alu s; predicate := predicate s;
     lsu := lsu s;
     PCplus4 := PCplus4'; PCplusImm := PCplusImm'; ctl := ctl s |}.

(** The values [combinational_process] assigns after the calls, for the
    build without [NRV_IS_IO_ADDR]. *)
Definition control_of (s : Core) : Control :=
  let d := dec s in
  let st := state s in
  {| writeBack :=
       negb (isBranch d || isStore d)
       && (State_eqb st EXECUTE || State_eqb st WAIT_ALU_OR_MEM);
     mem_rstrb :=
       State_eqb st FETCH_INSTR || (State_eqb st EXECUTE && isLoad d);
     mem_wmask :=
       if State_eqb st EXECUTE && isStore d then STORE_wmask (lsu s) else 0;
     aluWr := State_eqb st EXECUTE && isALU d;
     jumpToPCplusImm := isJAL d || (isBranch d && predicate s);
     needToWait :=
       isLoad d || isStore d || (isALU d && funct3IsShift (alu s));
     mem_addr :=
       if State_eqb st WAIT_INSTR || State_eqb st FETCH_INSTR
          || (State_eqb st EXECUTE && negb (isLoad d) && negb (isStore d))
       then PC s else loadstore_addr (lsu s);
     mem_wdata := rs2 d;
     writeBackData :=
       Z.lor (Z.lor (Z.lor (Z.lor (Z.lor
         (if isSYSTEM d then cycles s else 0)
         (if isLUI d then Uimm (imm s) else 0))
         (if isALU d then aluOut (alu s) else 0))
         (if isAUIPC d then PCplusImm s else 0))
         (if isJALR d || isJAL d then PCplus4 s else 0))
         (if isLoad d then LOAD_data (lsu s) else 0) |}.

(** The six calls that open [combinational_process]. *)
Definition evaluate_signals (i : Inputs) (s : Core) : Core :=
  let s := decode_instruction i s in
  let s := compute_immediates s in
  let s := compute_alu s in
  let s := compute_branch_predicate s in
  let s := compute_memory_access i s in
  update_pc s.

(** The assignments that follow them. *)
Definition assign_control (s : Core) : Core :=
  {| PC := PC s; state := state s; cycles := cycles s;
     registerFile := registerFile s;
     aluReg := aluReg s; aluShamt := aluShamt s;
     dec := dec s; imm := imm s; alu := alu s; predicate := predicate s;
     lsu := lsu s;
     PCplus4 := PCplus4 s; PCplusImm := PCplusImm s;
     ctl := control_of s |}.

Definition combinational_process (i : Inputs) (s : Core) : Core :=
  assign_control (evaluate_signals i s).

(** ** The clocked process *)

Definition update_state (i : Inputs) (s : Core) : State :=
  match state s with
  | WAIT_INSTR => if negb (mem_rbusy i) then EXECUTE else WAIT_INSTR
  | EXECUTE =>
      if needToWait (ctl s) then WAIT_ALU_OR_MEM else FETCH_INSTR
  | WAIT_ALU_OR_MEM =>
      if negb (aluBusy (alu s)) && negb (mem_rbusy i) && negb (mem_wbusy i)
      then FETCH_INSTR else WAIT_ALU_OR_MEM
  | FETCH_INSTR => WAIT_INSTR
  end.

(** One step of the shift register: the new [(aluReg, aluShamt)].
    [two_level] tells whether [NRV_TWOLEVEL_SHIFTER] is defined.  In
    [(sign_bit, sign_bit, sign_bit, sign_bit, aluReg.range(31, 4))] the
    commas between the [bool]s are C++ comma operators, so one sign bit is
    put above the 28 bits of the range. *)
Definition shift_step (two_level : bool) (s : Core) : Z * Z :=
  let d := dec s in
  if aluWr (ctl s) && funct3IsShift (alu s) then
    (aluIn1 (alu s), range (aluIn2 (alu s)) 4 0)
  else if negb (aluShamt s =? 0) then
    let sign_bit :=
      (funct3 d =? ALU_SRL_SRA) && bit (instr d) 28 && bit (aluReg s) 31 in
    if two_level && negb (range (aluShamt s) 4 2 =? 0) then
      (if funct3 d =? ALU_SLL then trunc 32 (Z.shiftl (aluReg s) 4)
       else cat (of_bool sign_bit) 28 (range (aluReg s) 31 4),
       trunc 5 (aluShamt s - 4))
    else
      (if funct3 d =? ALU_SLL then trunc 32 (Z.shiftl (aluReg s) 1)
       else cat (of_bool sign_bit) 31 (range (aluReg s) 31 1),
       trunc 5 (aluShamt s - 1))
  else (aluReg s, aluShamt s).

Definition clock_process (two_level : bool) (i : Inputs) (s : Core) : Core :=
  if negb (reset i) then
    {| PC := RESET_ADDR; state := WAIT_ALU_OR_MEM; cycles := 0;
       registerFile := <[0%nat := 0]> (registerFile s);
       aluReg := aluReg s; aluShamt := 0;
       dec := dec s; imm := imm s; alu := alu s; predicate := predicate s;
       lsu := lsu s;
       PCplus4 := PCplus4 s; PCplusImm := PCplusImm s; ctl := ctl s |}
  else
    {| PC := PC s;
       state := update_state i s;
       cycles := trunc 32 (cycles s + 1);
       registerFile :=
         if writeBack (ctl s) && negb (rdId (dec s) =? 0)
         then <[Z.to_nat (rdId (dec s)) := writeBackData (ctl s)]>
                (registerFile s)
         else registerFile s;
       aluReg := fst (shift_step two_level s);
       aluShamt := snd (shift_step two_level s);
       dec := dec s; imm := imm s; alu := alu s; predicate := predicate s;
       lsu := lsu s;
       PCplus4 := PCplus4 s; PCplusImm := PCplusImm s; ctl := ctl s |}.

(** One clock cycle: the signals are evaluated on the state before the
    edge, then the clocked process runs. *)
Definition cycle (two_level : bool) (i : Inputs) (s : Core) : Core :=
  clock_process two_level i (combinational_process i s).

(** The state after the cycles fed by [ins], oldest first. *)
Definition run (two_level : bool) (ins : list Inputs) (s : Core) : Core :=
  fold_left (fun s i => cycle two_level i s) ins s.

(** ** The state the constructor builds

    [SC_CTOR] initialises [PC], [state], [cycles], the 32 registers,
    [aluReg] and [aluShamt]; the other [sc_uint] members start at zero.  The
    [bool] members are not initialised by the constructor; they are taken
    as [false] here. *)
Definition initial_decoded : Decoded :=
  {| rdId := 0; rs1Id := 0; rs2Id := 0; funct3 := 0; opcode := 0;
     instr := 0; full_instr := 0; rs1 := 0; rs2 := 0;
     isLoad := false; isALUimm := false; isStore := false;
     isALUreg := false; isSYSTEM := false; isJAL := false; isJALR := false;
     isLUI := false; isAUIPC := false; isBranch := false; isALU := false |}.

Definition initial_core : Core :=
  {| PC := 0; state := WAIT_ALU_OR_MEM; cycles := 0;
     registerFile := repeat 0 32;
     aluReg := 0; aluShamt := 0;
     dec := initial_decoded;
     imm := {| Uimm := 0; Iimm := 0; Simm := 0; Bimm := 0; Jimm := 0 |};
     alu := {| aluIn1 := 0; aluIn2 := 0; aluPlus := 0; aluMinus := 0;
               LT := false; LTU := false; EQ := false;
               aluOut := 0; funct3IsShift := false; aluBusy := false |};
     predicate := false;
     lsu := {| mem_byteAccess := false; mem_halfwordAccess := false;
               loadstore_addr := 0; LOAD_halfword := 0; LOAD_byte := 0;
               LOAD_sign := false; LOAD_data := 0; STORE_wmask := 0 |};
     PCplus4 := 0; PCplusImm := 0;
     ctl := {| writeBack := false; mem_rstrb := false; mem_wmask := 0;
               aluWr := false; jumpToPCplusImm := false;
               needToWait := false; mem_addr := 0; mem_wdata := 0;
               writeBackData := 0 |} |}.

(** Inputs of a cycle out of reset (the reset input is active low) in which
    the memory is not busy and returns the word [w]. *)
Definition word_in (w : Z) : Inputs :=
  {| reset := true; mem_rdata := w; mem_rbusy := false; mem_wbusy := false |}.

(** The core [s] put in control state [st], with register file [rf] and
    program counter [pc]: used to build concrete states. *)
Definition placed (st : State) (rf : list Z) (pc : Z) (s : Core) : Core :=
  {| PC := pc; state := st; cycles := cycles s;
     registerFile := rf;
     aluReg := aluReg s; aluShamt := aluShamt s;
     dec := dec s; imm := imm s; alu := alu s; predicate := predicate s;
     lsu := lsu s;
     PCplus4 := PCplus4 s; PCplusImm := PCplusImm s; ctl := ctl s |}.

(** [sign_extend(value, bits)], the utility function of the module (it
    has no caller). *)
Definition sign_extend (value bits : Z) : Z :=
  if bit value (bits - 1)
  then trunc 32 (Z.lor value (trunc 64 (Z.shiftl (trunc 32 (-1)) bits)))
  else value.

(** The state on which [update_pc] is called. *)
Definition before_update_pc (i : Inputs) (s : Core) : Core :=
  compute_memory_access i
    (compute_branch_predicate
       (compute_alu (compute_immediates (decode_instruction i s)))).

(** The disjunction of the ten class flags. *)
Definition any_class (d : Decoded) : bool :=
  isLoad d || isALUimm d || isStore d || isALUreg d || isSYSTEM d
  || isJAL d || isJALR d || isLUI d || isAUIPC d || isBranch d.

(** How many of the ten class flags are set. *)
Definition class_count (d : Decoded) : Z :=
  Z.b2z (isLoad d) + Z.b2z (isALUimm d) + Z.b2z (isStore d)
  + Z.b2z (isALUreg d) + Z.b2z (isSYSTEM d) + Z.b2z (isJAL d)
  + Z.b2z (isJALR d) + Z.b2z (isLUI d) + Z.b2z (isAUIPC d)
  + Z.b2z (isBranch d).

(** The same count as a function of [c = I[6:2]]. *)
Definition class_count_of (c : Z) : Z :=
  Z.b2z (c =? 0x00) + Z.b2z (c =? 0x04) + Z.b2z (c =? 0x08)
  + Z.b2z (c =? 0x0C) + Z.b2z (c =? 0x1C) + Z.b2z (Z.testbit c 1)
  + Z.b2z (c =? 0x19) + Z.b2z (c =? 0x0D) + Z.b2z (c =? 0x05)
  + Z.b2z (c =? 0x18).

(** Inputs of a cycle out of reset in which the memory is not busy. *)
Definition quiet (i : Inputs) : Prop :=
  reset i = true /\ mem_rbusy i = false /\ mem_wbusy i = false.

(** ** The specification's words

    The definitions of this part follow the sentences of the
    specification, not the code; the theorems compare them with the
    definitions above. *)

(** The transition table of the control state machine. *)
Definition spec_next_state (st : State)
    (aluBusy' mem_rbusy' mem_wbusy' needToWait' : bool) : State :=
  match st with
  | WAIT_ALU_OR_MEM =>
      if negb aluBusy' && negb mem_rbusy' && negb mem_wbusy'
      then FETCH_INSTR else WAIT_ALU_OR_MEM
  | FETCH_INSTR => WAIT_INSTR
  | WAIT_INSTR => if negb mem_rbusy' then EXECUTE else WAIT_INSTR
  | EXECUTE => if needToWait' then WAIT_ALU_OR_MEM else FETCH_INSTR
  end.

(** The immediates of the 32-bit word [I]: the payload bits and [sext],
    taken to be [sign_extend]. *)
Definition spec_Simm (I : Z) : Z :=
  sign_extend (cat (range I 31 25) 5 (range I 11 7)) 12.

Definition spec_Bimm (I : Z) : Z :=
  sign_extend
    (cat (cat (cat (cat (range I 31 31) 1 (range I 7 7)) 6 (range I 30 25))
              4 (range I 11 8)) 1 0) 13.

Definition spec_Jimm (I : Z) : Z :=
  sign_extend
    (cat (cat (cat (cat (range I 31 31) 8 (range I 19 12)) 1 (range I 20 20))
              10 (range I 30 21)) 1 0) 21.

Definition spec_Uimm (I : Z) : Z := cat (range I 31 12) 12 0.

(** The row of the decode table for [isJAL]. *)
Definition spec_isJAL (I : Z) : bool := range I 6 2 =? 0x1B.

(** The load result, from [funct3], the effective address [EA] and the
    returned word [W]; [sext8] and [sext16] are taken to be
    [sign_extend]. *)
Definition spec_LOAD_data (funct3 EA W : Z) : Z :=
  let half_lo := if bit EA 1 then range W 31 16 else range W 15 0 in
  let byte_lo :=
    if bit EA 0 then range half_lo 15 8 else range half_lo 7 0 in
  if range funct3 1 0 =? 0 then
    if bit funct3 2 then byte_lo else sign_extend byte_lo 8
  else if range funct3 1 0 =? 1 then
    if bit funct3 2 then half_lo else sign_extend half_lo 16
  else W.

(** ** Concrete inputs and states *)

Definition reset_high : Inputs :=
  {| reset := true; mem_rdata := 0; mem_rbusy := false; mem_wbusy := false |}.

Definition reset_low : Inputs :=
  {| reset := false; mem_rdata := 0; mem_rbusy := false; mem_wbusy := false |}.

(** A core in [FETCH_INSTR] at address 16 with 7 in [x5]. *)
Definition fetching_x5 : Core :=
  placed FETCH_INSTR (<[5%nat := 7]> (repeat 0 32)) 16 initial_core.

(** A core about to capture a word at address 8, with 5 in [x1]. *)
Definition capturing_x1 : Core :=
  placed WAIT_INSTR (<[1%nat := 5]> (repeat 0 32)) 8 initial_core.

(** A core waiting on a shift with [n] steps left. *)
Definition busy_shifter (n : Z) : Core :=
  {| PC := 0; state := WAIT_ALU_OR_MEM; cycles := 0;
     registerFile := repeat 0 32;
     aluReg := 1; aluShamt := n;
     dec := initial_decoded; imm := imm initial_core;
     alu := alu initial_core; predicate := false; lsu := lsu initial_core;
     PCplus4 := 0; PCplusImm := 0; ctl := ctl initial_core |}.

(** The immediates the core derives from the captured word [I]. *)
Definition immediates_of_word (I : Z) : Immediates :=
  compute_immediates_of (decode_word (repeat 0 32) I).

(** The core in [EXECUTE] on the word [w], captured at address 8 with all
    registers at zero. *)
Definition executing (w : Z) : Core :=
  cycle false (word_in w) (placed WAIT_INSTR (repeat 0 32) 8 initial_core).

(** [LOAD_data] and [loadstore_addr] in the [EXECUTE] evaluation of the
    load word [w] when the memory returns [W]. *)
Definition load_data_of (w W : Z) : Z :=
  LOAD_data (lsu (combinational_process (word_in W) (executing w))).

Definition load_addr_of (w W : Z) : Z :=
  loadstore_addr (lsu (combinational_process (word_in W) (executing w))).

(** ** Definitions used to state further properties *)

(** The two's complement reading of a 32-bit number. *)
Definition signed32 (x : Z) : Z := if x <? 2 ^ 31 then x else x - 2 ^ 32.

(** The comparison a branch makes on its two operands, by [funct3]. *)
Definition branch_taken (f a b : Z) : bool :=
  if f =? BRANCH_BEQ then a =? b
  else if f =? BRANCH_BNE then negb (a =? b)
  else if f =? BRANCH_BLT then signed32 a <? signed32 b
  else if f =? BRANCH_BGE then negb (signed32 a <? signed32 b)
  else if f =? BRANCH_BLTU then a <? b
  else if f =? BRANCH_BGEU then negb (a <? b)
  else false.

(** A 32-bit value. *)
Definition word32 (v : Z) : Prop := 0 <= v < 2 ^ 32.

(** The members the clocked process reads or writes hold values of their
    declared widths, and the register file has its 32 slots. *)
Definition within_widths (s : Core) : Prop :=
  word32 (PC s) /\ word32 (cycles s) /\ word32 (aluReg s)
  /\ 0 <= aluShamt s < 32
  /\ length (registerFile s) = 32%nat
  /\ Forall word32 (registerFile s)
  /\ 0 <= rdId (dec s) < 32
  /\ word32 (rs1 (dec s)) /\ word32 (rs2 (dec s))
  /\ word32 (aluIn1 (alu s))
  /\ word32 (writeBackData (ctl s)).

(** Inputs of a cycle out of reset. *)
Definition running (i : Inputs) : Prop := reset i = true.

(** The result of the ALU operations that take one cycle, by [funct3];
    [sub] selects the subtraction. *)
Definition alu_result (f : Z) (sub : bool) (a b : Z) : Z :=
  if f =? ALU_ADD_SUB then
    if sub then (a - b) mod 2 ^ 32 else (a + b) mod 2 ^ 32
  else if f =? ALU_SLT then Z.b2z (signed32 a <? signed32 b)
  else if f =? ALU_SLTU then Z.b2z (a <? b)
  else if f =? ALU_XOR then Z.lxor a b
  else if f =? ALU_OR then Z.lor a b
  else if f =? ALU_AND then Z.land a b
  else 0.

(** The value of [a] shifted by [n] positions: to the left for [funct3]
    [ALU_SLL], otherwise to the right, bringing in copies of the sign when
    [arith] is set and [funct3] is [ALU_SRL_SRA]. *)
Definition shift_result (f : Z) (arith : bool) (a n : Z) : Z :=
  if f =? ALU_SLL then (a * 2 ^ n) mod 2 ^ 32
  else if (f =? ALU_SRL_SRA) && arith then (signed32 a / 2 ^ n) mod 2 ^ 32
  else a / 2 ^ n.

(** The cycles the shifter takes for a shift by [n]. *)
Definition shift_cycles (two_level : bool) (n : Z) : Z :=
  if two_level then n / 4 + n mod 4 else n.

(** A core about to capture a word at address 8, with [0x80000000] in
    [x1]. *)
Definition negative_x1 : Core :=
  placed WAIT_INSTR (<[1%nat := 0x80000000]> (repeat 0 32)) 8 initial_core.

(** Inputs of a cycle out of reset in which the memory is busy. *)
Definition stalled (i : Inputs) : Prop :=
  reset i = true /\ mem_rbusy i || mem_wbusy i = true.

(** The value a load writes back for the instruction word [w], the
    address [addr] and the data [W] on the bus: the width is selected by
    [w[15:14]]; a byte has its bit 7 repeated once, in bit 8. *)
Definition load_value (w addr W : Z) : Z :=
  let half := if Z.odd (addr / 2) then W / 2 ^ 16 else W mod 2 ^ 16 in
  let byte := if Z.odd addr then half / 2 ^ 8 else half mod 2 ^ 8 in
  if range w 15 14 =? 0 then byte + 2 ^ 8 * (byte / 2 ^ 7)
  else if range w 15 14 =? 1 then half
  else W.

(** Inputs of a cycle out of reset in which the memory has not yet
    answered a read. *)
Definition read_pending (i : Inputs) : Prop :=
  reset i = true /\ mem_rbusy i = true.

(** * Properties *)

(** Unfold the combinational process and split on whether it captures an
    instruction word. *)
Ltac decode_cases :=
  unfold combinational_process, assign_control, evaluate_signals,
    decode_instruction;
  match goal with
  | |- context [State_eqb (state ?s) WAIT_INSTR && negb (mem_rbusy ?i)] =>
      destruct (State_eqb (state s) WAIT_INSTR && negb (mem_rbusy i))
  end.

(** ** Frame lemmas of the combinational process *)

Lemma combinational_state i s : state (combinational_process i s) = state s.
Proof.
  decode_cases; reflexivity.
Qed.

Lemma combinational_aluShamt i s :
  aluShamt (combinational_process i s) = aluShamt s.
Proof.
  decode_cases; reflexivity.
Qed.

Lemma combinational_aluReg i s : aluReg (combinational_process i s) = aluReg s.
Proof.
  decode_cases; reflexivity.
Qed.

Lemma combinational_cycles i s : cycles (combinational_process i s) = cycles s.
Proof.
  decode_cases; reflexivity.
Qed.

Lemma combinational_registerFile i s :
  registerFile (combinational_process i s) = registerFile s.
Proof.
  decode_cases; reflexivity.
Qed.

Lemma combinational_dec i s :
  dec (combinational_process i s) =
  if State_eqb (state s) WAIT_INSTR && negb (mem_rbusy i)
  then decode_word (registerFile s) (read_mem_rdata i)
  else dec s.
Proof.
  decode_cases; reflexivity.
Qed.

Lemma combinational_PC_idle i s :
  State_eqb (state s) EXECUTE = false ->
  PC (combinational_process i s) = PC s.
Proof.
  intros H. decode_cases; cbn; rewrite H; reflexivity.
Qed.

Lemma combinational_aluBusy i s :
  aluBusy (alu (combinational_process i s)) = negb (aluShamt s =? 0).
Proof.
  decode_cases; reflexivity.
Qed.

Lemma combinational_needToWait i s :
  let s' := combinational_process i s in
  needToWait (ctl s') =
  isLoad (dec s') || isStore (dec s')
  || (isALU (dec s') && funct3IsShift (alu s')).
Proof.
  decode_cases; reflexivity.
Qed.

Lemma combinational_aluWr i s :
  let s' := combinational_process i s in
  aluWr (ctl s') = State_eqb (state s) EXECUTE && isALU (dec s').
Proof.
  decode_cases; reflexivity.
Qed.

Lemma clock_state tl i s :
  reset i = true ->
  state (clock_process tl i s) =
  spec_next_state (state s) (aluBusy (alu s)) (mem_rbusy i) (mem_wbusy i)
                  (needToWait (ctl s)).
Proof.
  intros H. unfold clock_process. rewrite H. cbn.
  unfold update_state, spec_next_state. destruct (state s); reflexivity.
Qed.

(** ** The control state machine *)

(** C5: on a clock edge out of reset the control state steps as the
    four-state relation of the specification says: the clocked process moves
    [state] by [spec_next_state] of the stored signals, and after a
    combinational evaluation those signals are [aluBusy = (aluShamt != 0)]
    and [needToWait = isLoad || isStore || (isALU && funct3IsShift)]. *)
Theorem fsm_steps_as_specified (tl : bool) (i : Inputs) (s : Core) :
  reset i = true ->
  let s' := combinational_process i s in
  state (clock_process tl i s) =
    spec_next_state (state s) (aluBusy (alu s)) (mem_rbusy i) (mem_wbusy i)
                    (needToWait (ctl s))
  /\ state (cycle tl i s) =
       spec_next_state (state s) (negb (aluShamt s =? 0))
                       (mem_rbusy i) (mem_wbusy i)
                       (isLoad (dec s') || isStore (dec s')
                        || (isALU (dec s') && funct3IsShift (alu s')))
  /\ (state s = EXECUTE ->
      (state (cycle tl i s) = WAIT_ALU_OR_MEM <->
       isLoad (dec s') || isStore (dec s')
       || (isALU (dec s') && funct3IsShift (alu s')) = true)
      /\ (state (cycle tl i s) = FETCH_INSTR <->
          isLoad (dec s') || isStore (dec s')
          || (isALU (dec s') && funct3IsShift (alu s')) = false)).
Proof.
  intros Hr s'. split; [now apply clock_state|].
  assert (Hc : state (cycle tl i s) =
               spec_next_state (state s) (negb (aluShamt s =? 0))
                 (mem_rbusy i) (mem_wbusy i)
                 (isLoad (dec s') || isStore (dec s')
                  || (isALU (dec s') && funct3IsShift (alu s')))).
  { unfold cycle. rewrite clock_state by assumption.
    rewrite combinational_state, combinational_aluBusy.
    now rewrite combinational_needToWait. }
  split; [exact Hc|].
  intros He. rewrite Hc, He. unfold spec_next_state. cbv beta iota.
  destruct (isLoad (dec s') || isStore (dec s')
            || (isALU (dec s') && funct3IsShift (alu s')));
    split; split; intros; solve [reflexivity | discriminate].
Qed.

Lemma fsm_steps_as_specified_witness :
  reset (word_in 0x00500093) = true
  /\ state (cycle false (word_in 0x00500093)
                  (placed WAIT_INSTR (repeat 0 32) 0 initial_core)) = EXECUTE.
Proof.
  split; [reflexivity|].
  pose proof (fsm_steps_as_specified false (word_in 0x00500093)
                (placed WAIT_INSTR (repeat 0 32) 0 initial_core) eq_refl)
    as [_ [H _]].
  rewrite H. reflexivity.
Defined.

(** ** Who writes the architectural state *)

Lemma State_eqb_neq (a b : State) : a <> b -> State_eqb a b = false.
Proof. destruct a, b; intros H; try reflexivity; now destruct H. Qed.

Lemma State_eqb_eq (a b : State) : State_eqb a b = true <-> a = b.
Proof. destruct a, b; cbn; split; intros H; congruence. Qed.

(** C3, as stated, fails: evaluated in [EXECUTE], the combinational process
    moves [PC] (here from 0 to 4), and evaluated in [WAIT_INSTR] with the
    memory not busy it latches the instruction word. *)
Lemma combinational_writes_PC_and_instr :
  PC (combinational_process (word_in 0)
        (placed EXECUTE (repeat 0 32) 0 initial_core))
    <> PC (placed EXECUTE (repeat 0 32) 0 initial_core)
  /\ full_instr (dec (combinational_process (word_in 0x00500093)
                        (placed WAIT_INSTR (repeat 0 32) 0 initial_core)))
     <> full_instr (dec (placed WAIT_INSTR (repeat 0 32) 0 initial_core)).
Proof. split; vm_compute; discriminate. Qed.

(** C3, amended: the combinational process never writes the register file,
    [state], [cycles], [aluReg] or [aluShamt]; it writes [PC] only when
    evaluated in [EXECUTE], and the latched instruction (with the fields
    decoded from it) only when evaluated in [WAIT_INSTR] with [mem_rbusy]
    low. *)
Theorem combinational_frame (i : Inputs) (s : Core) :
  let s' := combinational_process i s in
  registerFile s' = registerFile s
  /\ state s' = state s
  /\ cycles s' = cycles s
  /\ aluReg s' = aluReg s
  /\ aluShamt s' = aluShamt s
  /\ (state s <> EXECUTE -> PC s' = PC s)
  /\ (state s <> WAIT_INSTR \/ mem_rbusy i = true -> dec s' = dec s).
Proof.
  intros s'. subst s'.
  rewrite combinational_registerFile, combinational_state,
    combinational_cycles, combinational_aluReg, combinational_aluShamt.
  repeat split.
  - intros H. apply combinational_PC_idle. now apply State_eqb_neq.
  - intros H. rewrite combinational_dec.
    destruct H as [H | H].
    + now rewrite (State_eqb_neq _ _ H).
    + rewrite H. now rewrite andb_false_r.
Qed.

Lemma combinational_frame_witness :
  PC (combinational_process (word_in 0x00500093)
        (placed WAIT_ALU_OR_MEM (repeat 0 32) 8 initial_core)) = 8
  /\ dec (combinational_process (word_in 0x00500093)
            (placed WAIT_ALU_OR_MEM (repeat 0 32) 8 initial_core))
     = initial_decoded.
Proof.
  pose proof (combinational_frame (word_in 0x00500093)
                (placed WAIT_ALU_OR_MEM (repeat 0 32) 8 initial_core))
    as (_ & _ & _ & _ & _ & Hpc & Hdec).
  split.
  - apply Hpc. discriminate.
  - apply Hdec. left. discriminate.
Defined.

(** ** Reset *)

(** C9, as stated, fails twice.  The reset input is active low: with
    [reset] high the clocked process steps the machine (here from
    [FETCH_INSTR] to [WAIT_INSTR], with [cycles] going to 1).  And under
    reset only slot 0 of the register file is cleared: [x5] keeps its 7. *)
Lemma reset_counterexample :
  (state (clock_process false reset_high fetching_x5) = WAIT_INSTR
   /\ PC (clock_process false reset_high fetching_x5) = 16
   /\ cycles (clock_process false reset_high fetching_x5) = 1)
  /\ reg (registerFile (clock_process false reset_low fetching_x5)) 5 = 7.
Proof. vm_compute. repeat split. Qed.

(** C9, amended: when the reset input is low at a clocked update, the
    update sets [state = WAIT_ALU_OR_MEM], [PC = RESET_ADDR], [cycles = 0],
    [aluShamt = 0] and slot 0 of the register file to zero; slots 1 to 31
    keep their values. *)
Theorem reset_configuration (tl : bool) (i : Inputs) (s : Core) :
  reset i = false ->
  let s' := clock_process tl i s in
  state s' = WAIT_ALU_OR_MEM
  /\ PC s' = RESET_ADDR
  /\ cycles s' = 0
  /\ aluShamt s' = 0
  /\ registerFile s' = <[0%nat := 0]> (registerFile s)
  /\ (registerFile s <> [] -> reg (registerFile s') 0 = 0)
  /\ (forall k, 1 <= k -> reg (registerFile s') k = reg (registerFile s) k).
Proof.
  intros H. unfold clock_process. rewrite H. cbn.
  repeat split.
  - destruct (registerFile s); [congruence | reflexivity].
  - intros k Hk. unfold reg.
    destruct (Z.to_nat k) as [|n] eqn:E; [lia|].
    destruct (registerFile s); reflexivity.
Qed.

Lemma reset_configuration_witness :
  reset reset_low = false
  /\ state (clock_process false reset_low fetching_x5) = WAIT_ALU_OR_MEM
  /\ PC (clock_process false reset_low fetching_x5) = RESET_ADDR
  /\ reg (registerFile (clock_process false reset_low fetching_x5)) 5 = 7.
Proof.
  split; [reflexivity|].
  pose proof (reset_configuration false reset_low fetching_x5 eq_refl)
    as (H1 & H2 & _ & _ & _ & _ & H7).
  split; [exact H1 | split; [exact H2 |]].
  rewrite H7 by lia. reflexivity.
Defined.

(** ** The iterative shifter *)

Lemma range_mod (x hi lo : Z) :
  0 <= lo -> lo <= hi + 1 ->
  range x hi lo = (x / 2 ^ lo) mod 2 ^ (hi - lo + 1).
Proof.
  intros H1 H2. unfold range.
  rewrite Z.land_ones by lia. now rewrite Z.shiftr_div_pow2 by lia.
Qed.

Lemma range_bounds (x hi lo : Z) :
  0 <= lo -> lo <= hi + 1 -> 0 <= range x hi lo < 2 ^ (hi - lo + 1).
Proof.
  intros H1 H2. rewrite range_mod by assumption.
  apply Z.mod_pos_bound. apply Z.pow_pos_nonneg; lia.
Qed.

(** Out of reset and with no shift being latched, a busy shifter counts
    down by 1, or by 4 in the two-level build when 4 or more remain. *)
Lemma shamt_counts_down (tl : bool) (s : Core) :
  aluWr (ctl s) && funct3IsShift (alu s) = false ->
  0 < aluShamt s < 32 ->
  snd (shift_step tl s)
  = aluShamt s - (if tl && (4 <=? aluShamt s) then 4 else 1).
Proof.
  intros Hl Hn. unfold shift_step. rewrite Hl.
  replace (aluShamt s =? 0) with false by (symmetry; apply Z.eqb_neq; lia).
  cbn [negb].
  rewrite (range_mod (aluShamt s) 4 2) by lia.
  change (2 ^ 2) with 4. change (2 ^ (4 - 2 + 1)) with 8.
  destruct tl; cbn [andb snd].
  - destruct (Z.leb_spec 4 (aluShamt s)) as [H4 | H4].
    + replace ((aluShamt s / 4) mod 8 =? 0) with false.
      * cbn [negb snd]. unfold trunc. apply Z.mod_small.
        change (2 ^ 5) with 32. lia.
      * symmetry. apply Z.eqb_neq.
        rewrite Z.mod_small.
        -- assert (1 <= aluShamt s / 4) by (apply Z.div_le_lower_bound; lia).
           lia.
        -- split; [apply Z.div_pos; lia | apply Z.div_lt_upper_bound; lia].
    + replace ((aluShamt s / 4) mod 8 =? 0) with true.
      * cbn [negb snd]. unfold trunc. apply Z.mod_small.
        change (2 ^ 5) with 32. lia.
      * symmetry. apply Z.eqb_eq. rewrite Z.div_small by lia. reflexivity.
  - unfold trunc. apply Z.mod_small. change (2 ^ 5) with 32. lia.
Qed.

(** Whatever the shifter does, [aluShamt] stays a 5-bit number. *)
Lemma shamt_in_range (tl : bool) (s : Core) :
  0 <= aluShamt s < 32 -> 0 <= snd (shift_step tl s) < 32.
Proof.
  intros Hn. unfold shift_step.
  destruct (aluWr (ctl s) && funct3IsShift (alu s)).
  - cbn [snd]. pose proof (range_bounds (aluIn2 (alu s)) 4 0) as H.
    change (2 ^ (4 - 0 + 1)) with 32 in H. lia.
  - destruct (negb (aluShamt s =? 0)); [|assumption].
    destruct (tl && negb (range (aluShamt s) 4 2 =? 0)); cbn [snd];
      unfold trunc; change 32 with (2 ^ 5); apply Z.mod_pos_bound; lia.
Qed.

Lemma cycle_state (tl : bool) (i : Inputs) (s : Core) :
  reset i = true ->
  state (cycle tl i s) =
  spec_next_state (state s) (negb (aluShamt s =? 0))
    (mem_rbusy i) (mem_wbusy i)
    (needToWait (ctl (combinational_process i s))).
Proof.
  intros H. unfold cycle. rewrite clock_state by assumption.
  now rewrite combinational_state, combinational_aluBusy.
Qed.

Lemma cycle_aluShamt (tl : bool) (i : Inputs) (s : Core) :
  reset i = true ->
  aluShamt (cycle tl i s) = snd (shift_step tl (combinational_process i s)).
Proof. intros H. unfold cycle, clock_process. now rewrite H. Qed.

Lemma cycle_waiting (tl : bool) (i : Inputs) (s : Core) :
  quiet i -> state s = WAIT_ALU_OR_MEM -> 0 <= aluShamt s < 32 ->
  (aluShamt s = 0 ->
   state (cycle tl i s) = FETCH_INSTR /\ aluShamt (cycle tl i s) = 0)
  /\ (0 < aluShamt s ->
      state (cycle tl i s) = WAIT_ALU_OR_MEM
      /\ 0 <= aluShamt (cycle tl i s) < aluShamt s).
Proof.
  intros (Hr & Hrb & Hwb) Hs Hn.
  rewrite cycle_state, cycle_aluShamt by assumption.
  rewrite Hs, Hrb, Hwb. cbn [spec_next_state negb andb].
  assert (Hl : aluWr (ctl (combinational_process i s))
               && funct3IsShift (alu (combinational_process i s)) = false).
  { rewrite combinational_aluWr, Hs. reflexivity. }
  split.
  - intros H0. rewrite H0. cbn. split; [reflexivity|].
    unfold shift_step. rewrite Hl, combinational_aluShamt, H0. reflexivity.
  - intros Hpos.
    replace (aluShamt s =? 0) with false by (symmetry; apply Z.eqb_neq; lia).
    cbn. split; [reflexivity|].
    rewrite shamt_counts_down;
      rewrite ?combinational_aluShamt; try assumption; try lia.
    destruct (tl && (4 <=? aluShamt s)) eqn:E; [|lia].
    apply andb_prop in E as [_ E]. apply Z.leb_le in E. lia.
Qed.

Lemma run_cons (tl : bool) (i : Inputs) (ins : list Inputs) (s : Core) :
  run tl (i :: ins) s = run tl ins (cycle tl i s).
Proof. reflexivity. Qed.

(** From [WAIT_ALU_OR_MEM] with at most [n] shift steps left, quiet inputs
    bring [aluShamt] to zero within [n] cycles, the machine still waiting,
    and the cycle after that moves it to [FETCH_INSTR]. *)
Lemma waiting_ends (tl : bool) (n : nat) :
  forall (ins : list Inputs) (s : Core),
    state s = WAIT_ALU_OR_MEM ->
    0 <= aluShamt s <= Z.of_nat n -> aluShamt s < 32 ->
    Forall quiet ins -> (n < length ins)%nat ->
    exists k, (k <= n)%nat
              /\ aluShamt (run tl (firstn k ins) s) = 0
              /\ state (run tl (firstn k ins) s) = WAIT_ALU_OR_MEM
              /\ state (run tl (firstn (S k) ins) s) = FETCH_INSTR.
Proof.
  induction n as [|n IH]; intros ins s Hs Hn H32 Hq Hlen.
  - destruct ins as [|i ins]; [cbn in Hlen; lia|].
    apply Forall_cons_iff in Hq as [Hi _].
    destruct (cycle_waiting tl i s Hi Hs) as [H0 _]; [lia|].
    exists 0%nat. cbn [firstn]. rewrite run_cons. cbn [run fold_left].
    repeat split; [lia | lia | assumption | apply H0; lia].
  - destruct ins as [|i ins]; [cbn in Hlen; lia|].
    apply Forall_cons_iff in Hq as [Hi Hq].
    destruct (cycle_waiting tl i s Hi Hs) as [H0 Hpos]; [lia|].
    destruct (Z.eq_dec (aluShamt s) 0) as [E | E].
    + exists 0%nat. cbn [firstn]. rewrite run_cons. cbn [run fold_left].
      repeat split; [lia | assumption | assumption | now apply H0].
    + destruct Hpos as [Hs' Hn']; [lia|].
      destruct (IH ins (cycle tl i s) Hs') as (k & Hk & Hsh & Hw & Hf);
        try assumption; try lia.
      { cbn in Hlen. lia. }
      exists (S k). cbn [firstn]. rewrite !run_cons.
      repeat split; [lia | assumption | assumption | assumption].
Qed.

(** After the [EXECUTE] cycle the machine fetches or waits, and [aluShamt]
    is a 5-bit number. *)
Lemma cycle_executing (tl : bool) (i : Inputs) (s : Core) :
  reset i = true -> state s = EXECUTE -> 0 <= aluShamt s < 32 ->
  (state (cycle tl i s) = FETCH_INSTR
   \/ state (cycle tl i s) = WAIT_ALU_OR_MEM)
  /\ 0 <= aluShamt (cycle tl i s) < 32.
Proof.
  intros Hr Hs Hn. rewrite cycle_state, cycle_aluShamt by assumption.
  rewrite Hs. cbn [spec_next_state]. split.
  - destruct (needToWait (ctl (combinational_process i s))); auto.
  - apply shamt_in_range. now rewrite combinational_aluShamt.
Qed.

(** C10: out of reset and with no shift latched on the edge, a clocked
    step takes [aluShamt = n], [n] not zero, to [n - 1] (to [n - 4] in the
    two-level build when [n >= 4]), never below zero; a clocked step under
    reset takes it to zero.  So from
    [WAIT_ALU_OR_MEM], with the memory not busy, [aluShamt] is zero after at
    most [n] cycles and the machine is in [FETCH_INSTR] one cycle later; and
    an instruction in [EXECUTE], a shift in particular, is back in
    [FETCH_INSTR] within 33 cycles. *)
Theorem shifter_terminates (tl : bool) :
  (forall (i : Inputs) (s : Core),
      reset i = true ->
      aluWr (ctl s) && funct3IsShift (alu s) = false ->
      0 < aluShamt s < 32 ->
      aluShamt (clock_process tl i s)
      = aluShamt s - (if tl && (4 <=? aluShamt s) then 4 else 1)
      /\ 0 <= aluShamt (clock_process tl i s) < aluShamt s)
  /\ (forall (i : Inputs) (s : Core),
        reset i = false -> aluShamt (clock_process tl i s) = 0)
  /\ (forall (ins : list Inputs) (s : Core),
        state s = WAIT_ALU_OR_MEM ->
        0 <= aluShamt s < 32 ->
        Forall quiet ins ->
        (Z.to_nat (aluShamt s) < length ins)%nat ->
        exists k, (k <= Z.to_nat (aluShamt s))%nat
                  /\ aluShamt (run tl (firstn k ins) s) = 0
                  /\ state (run tl (firstn k ins) s) = WAIT_ALU_OR_MEM
                  /\ state (run tl (firstn (S k) ins) s) = FETCH_INSTR)
  /\ (forall (ins : list Inputs) (s : Core),
        state s = EXECUTE ->
        0 <= aluShamt s < 32 ->
        Forall quiet ins ->
        (32 < length ins)%nat ->
        exists k, (k <= 33)%nat
                  /\ state (run tl (firstn k ins) s) = FETCH_INSTR).
Proof.
  split; [|split; [|split]].
  - intros i s Hr Hl Hn.
    assert (E : aluShamt (clock_process tl i s) = snd (shift_step tl s)).
    { unfold clock_process. now rewrite Hr. }
    rewrite E, shamt_counts_down by assumption.
    split; [reflexivity|].
    destruct (tl && (4 <=? aluShamt s)) eqn:E4; [|lia].
    apply andb_prop in E4 as [_ E4]. apply Z.leb_le in E4. lia.
  - intros i s Hr. unfold clock_process. now rewrite Hr.
  - intros ins s Hs Hn Hq Hlen.
    apply waiting_ends; try assumption; lia.
  - intros ins s Hs Hn Hq Hlen.
    destruct ins as [|i ins]; [cbn in Hlen; lia|].
    apply Forall_cons_iff in Hq as [(Hr & Hi) Hq].
    destruct (cycle_executing tl i s Hr Hs Hn) as [[Hf | Hw] Hn'].
    + exists 1%nat. cbn [firstn]. rewrite run_cons. cbn [run fold_left].
      split; [lia | assumption].
    + destruct (waiting_ends tl 31 ins (cycle tl i s) Hw)
        as (k & Hk & _ & _ & Hf); try assumption; try lia.
      { cbn in Hlen. lia. }
      exists (S (S k)). split; [lia|].
      cbn [firstn] in Hf |- *. now rewrite run_cons.
Qed.

Lemma shifter_terminates_witness :
  (reset reset_high = true
   /\ aluWr (ctl (busy_shifter 3)) && funct3IsShift (alu (busy_shifter 3))
      = false
   /\ 0 < aluShamt (busy_shifter 3) < 32
   /\ aluShamt (clock_process false reset_high (busy_shifter 3)) = 2)
  /\ (Forall quiet (repeat reset_high 4)
      /\ exists k, (k <= 3)%nat
           /\ state (run false (firstn (S k) (repeat reset_high 4))
                         (busy_shifter 3)) = FETCH_INSTR).
Proof.
  destruct (shifter_terminates false) as (Hstep & _ & Hwait & _).
  assert (Hq : Forall quiet (repeat reset_high 4)).
  { repeat constructor. }
  split.
  - split; [reflexivity | split; [reflexivity | split; [cbn; lia|]]].
    destruct (Hstep reset_high (busy_shifter 3)) as [H _];
      [reflexivity | reflexivity | cbn; lia |].
    rewrite H. reflexivity.
  - split; [exact Hq|].
    destruct (Hwait (repeat reset_high 4) (busy_shifter 3))
      as (k & Hk & _ & _ & Hf);
      [reflexivity | cbn; lia | exact Hq | cbn; lia |].
    exists k. split; [exact Hk | exact Hf].
Defined.

(** ** One instruction: the fetch cycle and the execute cycle *)

Lemma combinational_process_eq (i : Inputs) (s : Core) :
  combinational_process i s = assign_control (evaluate_signals i s).
Proof. reflexivity. Qed.

Lemma evaluate_signals_eq (i : Inputs) (s : Core) :
  evaluate_signals i s = update_pc (before_update_pc i s).
Proof. reflexivity. Qed.

Lemma before_update_pc_frame (i : Inputs) (s : Core) :
  let s5 := before_update_pc i s in
  state s5 = state s /\ PC s5 = PC s /\ ctl s5 = ctl s
  /\ cycles s5 = cycles s
  /\ dec s5 = dec (combinational_process i s)
  /\ imm s5 = imm (combinational_process i s)
  /\ alu s5 = alu (combinational_process i s)
  /\ lsu s5 = lsu (combinational_process i s).
Proof.
  unfold combinational_process, assign_control, evaluate_signals,
    before_update_pc, decode_instruction.
  destruct (State_eqb (state s) WAIT_INSTR && negb (mem_rbusy i));
    repeat split.
Qed.

Lemma assign_control_frame (S : Core) :
  PC (assign_control S) = PC S
  /\ cycles (assign_control S) = cycles S
  /\ dec (assign_control S) = dec S
  /\ imm (assign_control S) = imm S
  /\ alu (assign_control S) = alu S
  /\ lsu (assign_control S) = lsu S
  /\ PCplus4 (assign_control S) = PCplus4 S
  /\ PCplusImm (assign_control S) = PCplusImm S.
Proof. repeat split. Qed.

Lemma assign_control_writeBackData (S : Core) :
  writeBackData (ctl (assign_control S)) =
  Z.lor (Z.lor (Z.lor (Z.lor (Z.lor
    (if isSYSTEM (dec S) then cycles S else 0)
    (if isLUI (dec S) then Uimm (imm S) else 0))
    (if isALU (dec S) then aluOut (alu S) else 0))
    (if isAUIPC (dec S) then PCplusImm S else 0))
    (if isJALR (dec S) || isJAL (dec S) then PCplus4 S else 0))
    (if isLoad (dec S) then LOAD_data (lsu S) else 0).
Proof. reflexivity. Qed.

Lemma combinational_writeBackData (i : Inputs) (s : Core) :
  let s' := combinational_process i s in
  let d := dec s' in
  writeBackData (ctl s') =
  Z.lor (Z.lor (Z.lor (Z.lor (Z.lor
    (if isSYSTEM d then cycles s else 0)
    (if isLUI d then Uimm (imm s') else 0))
    (if isALU d then aluOut (alu s') else 0))
    (if isAUIPC d then PCplusImm s' else 0))
    (if isJALR d || isJAL d then PCplus4 s' else 0))
    (if isLoad d then LOAD_data (lsu s') else 0).
Proof.
  intros s' d. subst d s'.
  rewrite <- (combinational_cycles i s).
  rewrite combinational_process_eq, assign_control_writeBackData.
  destruct (assign_control_frame (evaluate_signals i s))
    as (_ & -> & -> & -> & -> & -> & -> & ->).
  reflexivity.
Qed.

Lemma combinational_writeBack (i : Inputs) (s : Core) :
  let s' := combinational_process i s in
  writeBack (ctl s') =
  negb (isBranch (dec s') || isStore (dec s'))
  && (State_eqb (state s) EXECUTE || State_eqb (state s) WAIT_ALU_OR_MEM).
Proof.
  decode_cases; reflexivity.
Qed.

Lemma combinational_jump (i : Inputs) (s : Core) :
  let s' := combinational_process i s in
  jumpToPCplusImm (ctl s') =
  isJAL (dec s') || (isBranch (dec s') && predicate s').
Proof.
  decode_cases; reflexivity.
Qed.

Lemma combinational_PCplus4 (i : Inputs) (s : Core) :
  PCplus4 (combinational_process i s) = trunc 32 (PC s + 4).
Proof.
  decode_cases; reflexivity.
Qed.

Lemma update_pc_frame (S : Core) :
  dec (update_pc S) = dec S /\ alu (update_pc S) = alu S.
Proof. split; reflexivity. Qed.

Lemma update_pc_PC (S : Core) :
  State_eqb (state S) EXECUTE = true ->
  PC (update_pc S) =
  if isJALR (dec S) then
    cat (range (aluPlus (alu S)) (ADDR_WIDTH - 1) 1) 1 0
  else if jumpToPCplusImm (ctl S) then PCplusImm (update_pc S)
  else trunc 32 (PC S + 4).
Proof. intros H. cbn [update_pc PC PCplusImm]. now rewrite H. Qed.

(** [PC] as [update_pc] leaves it when evaluated in [EXECUTE]: the jump
    flag it reads is the one stored by the previous evaluation. *)
Lemma combinational_PC_execute (i : Inputs) (s : Core) :
  state s = EXECUTE ->
  let s' := combinational_process i s in
  PC s' = if isJALR (dec s') then
            cat (range (aluPlus (alu s')) (ADDR_WIDTH - 1) 1) 1 0
          else if jumpToPCplusImm (ctl s) then PCplusImm s'
          else trunc 32 (PC s + 4).
Proof.
  intros H s'.
  destruct (before_update_pc_frame i s)
    as (Hst & Hpc & Hctl & _ & Hdec & _ & Halu & _).
  fold s' in Hdec, Halu.
  rewrite <- Hdec, <- Halu, <- Hctl, <- Hpc.
  assert (He : State_eqb (state (before_update_pc i s)) EXECUTE = true)
    by now rewrite Hst, H.
  unfold s'. rewrite combinational_process_eq, evaluate_signals_eq.
  destruct (assign_control_frame (update_pc (before_update_pc i s)))
    as (-> & _ & _ & _ & _ & _ & _ & ->).
  now apply update_pc_PC.
Qed.

(** The clocked process out of reset, field by field. *)
Lemma clock_running (tl : bool) (i : Inputs) (s : Core) :
  reset i = true ->
  PC (clock_process tl i s) = PC s
  /\ cycles (clock_process tl i s) = trunc 32 (cycles s + 1)
  /\ registerFile (clock_process tl i s) =
       (if writeBack (ctl s) && negb (rdId (dec s) =? 0)
        then <[Z.to_nat (rdId (dec s)) := writeBackData (ctl s)]>
               (registerFile s)
        else registerFile s)
  /\ dec (clock_process tl i s) = dec s
  /\ ctl (clock_process tl i s) = ctl s.
Proof. intros H. unfold clock_process. rewrite H. repeat split. Qed.

(** The cycle that captures the instruction word: from [WAIT_INSTR], out of
    reset and with [mem_rbusy] low. *)
Lemma fetch_cycle (tl : bool) (i : Inputs) (s : Core) :
  state s = WAIT_INSTR -> reset i = true -> mem_rbusy i = false ->
  let s1 := cycle tl i s in
  let d := decode_word (registerFile s) (read_mem_rdata i) in
  state s1 = EXECUTE
  /\ PC s1 = PC s
  /\ cycles s1 = trunc 32 (cycles s + 1)
  /\ registerFile s1 = registerFile s
  /\ dec s1 = d
  /\ (isJAL d || isBranch d = false -> jumpToPCplusImm (ctl s1) = false).
Proof.
  intros Hs Hr Hb s1 d.
  assert (Hd : dec (combinational_process i s) = d).
  { rewrite combinational_dec, Hs, Hb. reflexivity. }
  destruct (clock_running tl i (combinational_process i s) Hr)
    as (Hpc & Hcy & Hrf & Hdec & Hctl).
  fold (cycle tl i s) in Hpc, Hcy, Hrf, Hdec, Hctl.
  fold s1 in Hpc, Hcy, Hrf, Hdec, Hctl.
  repeat split.
  - unfold s1. rewrite cycle_state, Hs, Hb by assumption. reflexivity.
  - rewrite Hpc. apply combinational_PC_idle. now rewrite Hs.
  - now rewrite Hcy, combinational_cycles.
  - rewrite Hrf, combinational_writeBack, Hs. cbn [State_eqb orb].
    rewrite andb_false_r. cbn [andb]. apply combinational_registerFile.
  - now rewrite Hdec.
  - intros Hj. rewrite Hctl, combinational_jump, Hd.
    apply orb_false_elim in Hj as [Hj Hbr]. now rewrite Hj, Hbr.
Qed.

(** The cycle that executes it: from [EXECUTE], out of reset. *)
Lemma execute_cycle (tl : bool) (i : Inputs) (s : Core) :
  state s = EXECUTE -> reset i = true ->
  let s' := combinational_process i s in
  let s2 := cycle tl i s in
  let d := dec s in
  dec s' = d
  /\ PC s2 = (if isJALR d then
                cat (range (aluPlus (alu s')) (ADDR_WIDTH - 1) 1) 1 0
              else if jumpToPCplusImm (ctl s) then PCplusImm s'
              else trunc 32 (PC s + 4))
  /\ registerFile s2 =
       (if negb (isBranch d || isStore d) && negb (rdId d =? 0)
        then <[Z.to_nat (rdId d) := writeBackData (ctl s')]> (registerFile s)
        else registerFile s)
  /\ state s2 = (if isLoad d || isStore d
                    || (isALU d && funct3IsShift (alu s'))
                 then WAIT_ALU_OR_MEM else FETCH_INSTR)
  /\ cycles s2 = trunc 32 (cycles s + 1).
Proof.
  intros Hs Hr s' s2 d.
  assert (Hd : dec s' = d).
  { unfold s'. rewrite combinational_dec, Hs. reflexivity. }
  destruct (clock_running tl i s' Hr) as (Hpc & Hcy & Hrf & _ & _).
  change (clock_process tl i s') with s2 in Hpc, Hcy, Hrf.
  split; [exact Hd|]. repeat split.
  - rewrite Hpc. unfold s'. rewrite combinational_PC_execute by assumption.
    fold s'. now rewrite Hd.
  - rewrite Hrf. unfold s'.
    rewrite combinational_writeBack, combinational_registerFile, Hs.
    fold s'. rewrite Hd. cbn [State_eqb orb]. now rewrite andb_true_r.
  - unfold s2. rewrite cycle_state, Hs by assumption. cbn [spec_next_state].
    rewrite combinational_needToWait. fold s'. now rewrite Hd.
  - rewrite Hcy. unfold s'. now rewrite combinational_cycles.
Qed.

(** ** Words with no class flag *)

Lemma no_class_flags (rf : list Z) (w : Z) :
  any_class (decode_word rf w) = false ->
  let d := decode_word rf w in
  isLoad d = false /\ isALUimm d = false /\ isStore d = false
  /\ isALUreg d = false /\ isSYSTEM d = false /\ isJAL d = false
  /\ isJALR d = false /\ isLUI d = false /\ isAUIPC d = false
  /\ isBranch d = false /\ isALU d = false.
Proof.
  intros H d. unfold any_class in H. fold d in H.
  repeat (apply orb_false_elim in H as [H ?]).
  assert (Ha : isALU d = isALUimm d || isALUreg d) by reflexivity.
  repeat split; try assumption.
  rewrite Ha. apply orb_false_intro; assumption.
Qed.

(** C4, as stated, fails: the word [0x00000087] ([I[6:2] = 00001], no class
    flag, [rd = 1]) is not a NOP, its execution clears [x1]. *)
Lemma no_class_word_counterexample :
  any_class (decode_word (registerFile capturing_x1) 0x00000087) = false
  /\ reg (registerFile capturing_x1) 1 = 5
  /\ reg (registerFile
            (run false [word_in 0x00000087; word_in 0] capturing_x1)) 1 = 0.
Proof. vm_compute. repeat split. Qed.

(** C4, amended: a captured word for which the decoder sets no class flag
    takes [PC] to [PC + 4] in its [EXECUTE] cycle and the machine back to
    [FETCH_INSTR]; the write-back is not gated on the class, so [x[rd]] is
    overwritten with 0 when [rd != 0], and no other register changes. *)
Theorem no_class_word (tl : bool) (i i' : Inputs) (s : Core) :
  state s = WAIT_INSTR ->
  reset i = true -> mem_rbusy i = false -> reset i' = true ->
  any_class (decode_word (registerFile s) (read_mem_rdata i)) = false ->
  let rd := range (read_mem_rdata i) 11 7 in
  let s2 := run tl [i; i'] s in
  PC s2 = trunc 32 (PC s + 4)
  /\ state s2 = FETCH_INSTR
  /\ registerFile s2 =
       (if rd =? 0 then registerFile s
        else <[Z.to_nat rd := 0]> (registerFile s)).
Proof.
  intros Hs Hr Hb Hr' Hn rd s2.
  destruct (fetch_cycle tl i s Hs Hr Hb) as (Hs1 & Hpc1 & _ & Hrf1 & Hd1 & Hj1).
  destruct (no_class_flags _ _ Hn)
    as (Hld & _ & Hst & _ & Hsy & Hjal & Hjalr & Hlui & Hau & Hbr & Halu).
  destruct (execute_cycle tl i' (cycle tl i s) Hs1 Hr')
    as (Hd' & Hpc2 & Hrf2 & Hs2 & _).
  pose proof (combinational_writeBackData i' (cycle tl i s)) as Hwb.
  cbv zeta in Hwb. rewrite Hd' in Hwb.
  rewrite Hd1 in Hpc2, Hrf2, Hs2, Hwb.
  rewrite Hld, Hsy, Hjal, Hjalr, Hlui, Hau, Halu in Hwb.
  cbn [orb] in Hwb. cbv iota in Hwb. cbn [Z.lor] in Hwb.
  rewrite Hj1 in Hpc2 by (rewrite Hjal, Hbr; reflexivity).
  rewrite Hjalr, Hpc1 in Hpc2.
  rewrite Hld, Hst, Halu in Hs2. cbn [orb andb] in Hs2.
  rewrite Hbr, Hst, Hwb, Hrf1 in Hrf2. cbn [orb negb andb] in Hrf2.
  change (rdId (decode_word (registerFile s) (read_mem_rdata i))) with rd
    in Hrf2.
  unfold s2. rewrite !run_cons. cbn [run fold_left].
  split; [exact Hpc2 | split; [exact Hs2 |]].
  rewrite Hrf2. destruct (rd =? 0); reflexivity.
Qed.

Lemma no_class_word_witness :
  (state capturing_x1 = WAIT_INSTR
   /\ any_class (decode_word (registerFile capturing_x1)
                   (read_mem_rdata (word_in 0x00000087))) = false)
  /\ PC (run false [word_in 0x00000087; word_in 0] capturing_x1) = 12
  /\ state (run false [word_in 0x00000087; word_in 0] capturing_x1)
     = FETCH_INSTR.
Proof.
  split; [split; reflexivity|].
  destruct (no_class_word false (word_in 0x00000087) (word_in 0) capturing_x1)
    as (Hpc & Hst & _); try reflexivity.
  split; [rewrite Hpc; reflexivity | exact Hst].
Defined.

(** ** The class flags *)

Lemma bit3_of_opcode (w : Z) : bit w 3 = Z.testbit (range w 6 2) 1.
Proof.
  unfold bit, range. rewrite Z.land_spec, Z.shiftr_spec by lia.
  rewrite Z.ones_spec_low by lia. now rewrite andb_true_r.
Qed.

(** The class flags as a function of [c = I[6:2]]; [isJAL] only looks at
    [I[3]], which is bit 1 of [c]. *)
Lemma class_flags (rf : list Z) (w c : Z) :
  range w 6 2 = c ->
  let d := decode_word rf w in
  isLoad d = (c =? 0x00) /\ isALUimm d = (c =? 0x04)
  /\ isStore d = (c =? 0x08) /\ isALUreg d = (c =? 0x0C)
  /\ isSYSTEM d = (c =? 0x1C) /\ isJAL d = Z.testbit c 1
  /\ isJALR d = (c =? 0x19) /\ isLUI d = (c =? 0x0D)
  /\ isAUIPC d = (c =? 0x05) /\ isBranch d = (c =? 0x18)
  /\ isALU d = (c =? 0x04) || (c =? 0x0C).
Proof.
  intros H d. unfold d, decode_word.
  cbn [isLoad isALUimm isStore isALUreg isSYSTEM isJAL isJALR isLUI isAUIPC
       isBranch isALU].
  rewrite bit3_of_opcode, H. repeat split.
Qed.

(** Evaluate the closed right-hand side of the equation [H]. *)
Ltac eval_rhs H :=
  match type of H with
  | _ = ?r => let v := eval vm_compute in r in change r with v in H
  end.

(** ** SYSTEM instructions *)

(** C8, as stated, fails: [0xC0102573] is [csrrs x10, 0xC01, x0], which
    names a CSR other than [0xC00]; its execution writes the cycle counter
    (here 1), not zero, to [x10]. *)
Lemma other_csr_counterexample :
  range 0xC0102573 6 2 = 0x1C
  /\ range 0xC0102573 31 20 = 0xC01
  /\ reg (registerFile
            (run false [word_in 0xC0102573; word_in 0] capturing_x1)) 10 = 1.
Proof. vm_compute. repeat split. Qed.

(** The write mask after a combinational evaluation. *)
Lemma combinational_wmask (i : Inputs) (s : Core) :
  let s' := combinational_process i s in
  mem_wmask (ctl s') =
  (if State_eqb (state s) EXECUTE && isStore (dec s')
   then STORE_wmask (lsu s') else 0).
Proof. decode_cases; reflexivity. Qed.

(** A cycle out of reset that latches no shift leaves an idle shifter as it
    is. *)
Lemma cycle_shifter_idle (tl : bool) (i : Inputs) (s : Core) :
  reset i = true -> aluShamt s = 0 ->
  aluWr (ctl (combinational_process i s))
  && funct3IsShift (alu (combinational_process i s)) = false ->
  aluReg (cycle tl i s) = aluReg s /\ aluShamt (cycle tl i s) = 0.
Proof.
  intros Hr Hn Hl.
  assert (E : aluReg (cycle tl i s)
              = fst (shift_step tl (combinational_process i s))).
  { unfold cycle, clock_process. now rewrite Hr. }
  rewrite E, cycle_aluShamt by exact Hr.
  unfold shift_step. rewrite Hl, combinational_aluShamt, Hn.
  cbn [Z.eqb negb fst snd]. split; [apply combinational_aluReg | reflexivity].
Qed.

(** C8, amended: a SYSTEM instruction, whatever CSR address it names,
    presents the 32-bit cycle counter as write-back data, so [x[rd]]
    receives [cycles] when [rd != 0]; there is no CSR storage: no other
    register changes, no write mask is driven in either evaluation, [PC]
    goes to [PC + 4], [cycles] counts the two cycles and the machine goes
    back to [FETCH_INSTR].  When no shift is in progress as the word is
    captured ([aluShamt = 0]), [aluReg] and [aluShamt] are unchanged
    too. *)
Theorem system_writes_cycles (tl : bool) (i i' : Inputs) (s : Core) :
  state s = WAIT_INSTR ->
  reset i = true -> mem_rbusy i = false -> reset i' = true ->
  range (read_mem_rdata i) 6 2 = 0x1C ->
  let rd := range (read_mem_rdata i) 11 7 in
  let s1 := cycle tl i s in
  let s2 := run tl [i; i'] s in
  cycles s1 = trunc 32 (cycles s + 1)
  /\ writeBackData (ctl (combinational_process i' s1)) = cycles s1
  /\ registerFile s2 =
       (if rd =? 0 then registerFile s
        else <[Z.to_nat rd := cycles s1]> (registerFile s))
  /\ PC s2 = trunc 32 (PC s + 4)
  /\ state s2 = FETCH_INSTR
  /\ cycles s2 = trunc 32 (cycles s1 + 1)
  /\ mem_wmask (ctl (combinational_process i s)) = 0
  /\ mem_wmask (ctl (combinational_process i' s1)) = 0
  /\ (aluShamt s = 0 -> aluReg s2 = aluReg s /\ aluShamt s2 = 0).
Proof.
  intros Hs Hr Hb Hr' Hop rd s1 s2.
  destruct (fetch_cycle tl i s Hs Hr Hb)
    as (Hs1 & Hpc1 & Hcy1 & Hrf1 & Hd1 & Hj1).
  fold s1 in Hs1, Hpc1, Hcy1, Hrf1, Hd1, Hj1.
  destruct (class_flags (registerFile s) _ _ Hop)
    as (Hld & _ & Hst & _ & Hsy & Hjal & Hjalr & Hlui & Hau & Hbr & Halu).
  eval_rhs Hld; eval_rhs Hst; eval_rhs Hsy; eval_rhs Hjal; eval_rhs Hjalr;
  eval_rhs Hlui; eval_rhs Hau; eval_rhs Hbr; eval_rhs Halu.
  destruct (execute_cycle tl i' s1 Hs1 Hr') as (Hd' & Hpc2 & Hrf2 & Hs2 & Hcy2).
  assert (Hw1 : mem_wmask (ctl (combinational_process i s)) = 0).
  { rewrite combinational_wmask, Hs. reflexivity. }
  assert (Hw2 : mem_wmask (ctl (combinational_process i' s1)) = 0).
  { rewrite combinational_wmask, Hd', Hd1, Hst, andb_false_r. reflexivity. }
  assert (Hsh : aluShamt s = 0 ->
                aluReg (cycle tl i' s1) = aluReg s
                /\ aluShamt (cycle tl i' s1) = 0).
  { intros Hn.
    destruct (cycle_shifter_idle tl i s Hr Hn) as (A1 & A2).
    { rewrite combinational_aluWr, Hs. reflexivity. }
    fold s1 in A1, A2.
    destruct (cycle_shifter_idle tl i' s1 Hr' A2) as (B1 & B2).
    { rewrite combinational_aluWr, Hd', Hd1, Halu. now rewrite andb_false_r. }
    rewrite B1, A1. split; [reflexivity | exact B2]. }
  pose proof (combinational_writeBackData i' s1) as Hwb.
  cbv zeta in Hwb. rewrite Hd' in Hwb.
  rewrite Hd1 in Hpc2, Hrf2, Hs2, Hwb.
  rewrite Hld, Hsy, Hjal, Hjalr, Hlui, Hau, Halu in Hwb.
  cbn [orb] in Hwb. cbv iota in Hwb. rewrite !Z.lor_0_r in Hwb.
  rewrite Hj1 in Hpc2 by (rewrite Hjal, Hbr; reflexivity).
  rewrite Hjalr, Hpc1 in Hpc2.
  rewrite Hld, Hst, Halu in Hs2. cbn [orb andb] in Hs2.
  rewrite Hbr, Hst, Hwb, Hrf1 in Hrf2. cbn [orb negb andb] in Hrf2.
  change (rdId (decode_word (registerFile s) (read_mem_rdata i))) with rd
    in Hrf2.
  unfold s2. rewrite !run_cons. cbn [run fold_left]. fold s1.
  split; [exact Hcy1|]. split; [exact Hwb|].
  split; [rewrite Hrf2; destruct (rd =? 0); reflexivity|].
  split; [exact Hpc2|]. split; [exact Hs2|]. split; [exact Hcy2|].
  split; [exact Hw1|]. split; [exact Hw2 | exact Hsh].
Qed.

Lemma system_writes_cycles_witness :
  (state capturing_x1 = WAIT_INSTR
   /\ range (read_mem_rdata (word_in 0xC0002573)) 6 2 = 0x1C
   /\ aluShamt capturing_x1 = 0)
  /\ reg (registerFile
            (run false [word_in 0xC0002573; word_in 0] capturing_x1)) 10 = 1
  /\ PC (run false [word_in 0xC0002573; word_in 0] capturing_x1) = 12
  /\ aluShamt (run false [word_in 0xC0002573; word_in 0] capturing_x1) = 0.
Proof.
  split; [repeat split; reflexivity|].
  destruct (system_writes_cycles false (word_in 0xC0002573) (word_in 0)
              capturing_x1)
    as (_ & _ & Hrf & Hpc & _ & _ & _ & _ & Hsh); try reflexivity.
  destruct (Hsh eq_refl) as (_ & Hn).
  split; [rewrite Hrf; reflexivity|].
  split; [rewrite Hpc; reflexivity | exact Hn].
Defined.

(** ** Bits of the [sc_uint] operations *)

Lemma testbit_range (x hi lo n : Z) :
  0 <= lo -> lo <= hi + 1 -> 0 <= n ->
  Z.testbit (range x hi lo) n = Z.testbit x (n + lo) && (n <? hi - lo + 1).
Proof.
  intros H1 H2 H3. unfold range.
  rewrite Z.land_spec, Z.shiftr_spec by lia.
  now rewrite Z.testbit_ones_nonneg by lia.
Qed.

Lemma testbit_cat (hi w lo n : Z) :
  0 <= w -> 0 <= n ->
  Z.testbit (cat hi w lo) n = Z.testbit hi (n - w) || Z.testbit lo n.
Proof.
  intros H1 H2. unfold cat. now rewrite Z.lor_spec, Z.shiftl_spec by lia.
Qed.

Lemma testbit_of_bool (b : bool) (n : Z) :
  Z.testbit (of_bool b) n = b && (n =? 0).
Proof. destruct b, n; reflexivity. Qed.

Lemma testbit_trunc (w x n : Z) :
  0 <= w -> 0 <= n ->
  Z.testbit (trunc w x) n = Z.testbit x n && (n <? w).
Proof.
  intros Hw Hn. unfold trunc. destruct (Z.ltb_spec n w).
  - rewrite Z.mod_pow2_bits_low by lia. now rewrite andb_true_r.
  - rewrite Z.mod_pow2_bits_high by lia. now rewrite andb_false_r.
Qed.

Lemma cat_nonneg (hi w lo : Z) : 0 <= hi -> 0 <= lo -> 0 <= cat hi w lo.
Proof.
  intros H1 H2. unfold cat. apply Z.lor_nonneg. split; [|assumption].
  now apply Z.shiftl_nonneg.
Qed.

Lemma of_bool_nonneg (b : bool) : 0 <= of_bool b.
Proof. destruct b; cbn; lia. Qed.

Lemma range_nonneg (x hi lo : Z) : 0 <= lo -> lo <= hi + 1 -> 0 <= range x hi lo.
Proof. intros H1 H2. now apply range_bounds. Qed.

(** A non-negative number whose bits from [k] up are all clear is below
    [2^k]. *)
Lemma below_pow2 (x k : Z) :
  0 <= k -> 0 <= x -> (forall n, k <= n -> Z.testbit x n = false) ->
  x < 2 ^ k.
Proof.
  intros Hk Hx H.
  assert (E : x mod 2 ^ k = x).
  { apply Z.bits_inj'. intros n Hn. destruct (Z.lt_ge_cases n k).
    - now rewrite Z.mod_pow2_bits_low by lia.
    - rewrite Z.mod_pow2_bits_high by lia. symmetry. now apply H. }
  rewrite <- E. apply Z.mod_pos_bound. apply Z.pow_pos_nonneg; lia.
Qed.

(** Decide the comparisons that bit lemmas leave behind. *)
Ltac order_bits :=
  repeat match goal with
    | |- context [?a <? ?b] =>
        first [ replace (a <? b) with false by (symmetry; apply Z.ltb_ge; lia)
              | replace (a <? b) with true by (symmetry; apply Z.ltb_lt; lia) ]
    | |- context [?a =? ?b] =>
        first [ replace (a =? b) with false by (symmetry; apply Z.eqb_neq; lia)
              | replace (a =? b) with true by (symmetry; apply Z.eqb_eq; lia) ]
    end.

Ltac bits :=
  repeat first
    [ rewrite testbit_cat by lia
    | rewrite testbit_range by lia
    | rewrite testbit_of_bool
    | rewrite testbit_trunc by lia
    | rewrite Z.bits_0 ];
  order_bits;
  rewrite ?andb_false_r, ?andb_true_r, ?orb_false_r, ?orb_false_l.

(** ** The store, branch and jump immediates *)

(** Whatever the word, [Simm], [Bimm] and [Jimm] are the 12, 13 and 21
    payload bits with zeros above: the sign bit [I[31]] is placed once, at
    the top of the payload, and not replicated. *)
Lemma immediates_zero_extended (rf : list Z) (w : Z) :
  let m := compute_immediates_of (decode_word rf w) in
  0 <= Simm m < 2 ^ 12 /\ 0 <= Bimm m < 2 ^ 13 /\ 0 <= Jimm m < 2 ^ 21.
Proof.
  cbn [compute_immediates_of decode_word Simm Bimm Jimm instr].
  repeat split;
    try (repeat first [ apply cat_nonneg | apply of_bool_nonneg
                      | apply range_nonneg | lia ]);
    (apply below_pow2;
     [ lia
     | repeat first [ apply cat_nonneg | apply of_bool_nonneg
                    | apply range_nonneg | lia ]
     | intros n Hn; bits; reflexivity ]).
Qed.

(** C1 fails on the code: for [sw x0, -4(x0)], [beq x0, x0, -4] and
    [jal x0, -4], whose [I[31]] is 1, the code yields [0x00000FFC],
    [0x00001FFC] and [0x001FFFFC] where sign extension to 32 bits gives
    [0xFFFFFFFC]; the bits above the payload are 0. *)
Theorem immediates_not_sign_extended :
  (Simm (immediates_of_word 0xFE002E23) = 0x00000FFC
   /\ spec_Simm 0xFE002E23 = 0xFFFFFFFC)
  /\ (Bimm (immediates_of_word 0xFE000EE3) = 0x00001FFC
      /\ spec_Bimm 0xFE000EE3 = 0xFFFFFFFC)
  /\ (Jimm (immediates_of_word 0xFFDFF06F) = 0x001FFFFC
      /\ spec_Jimm 0xFFDFF06F = 0xFFFFFFFC)
  /\ bit (Simm (immediates_of_word 0xFE002E23)) 31 = false.
Proof. vm_compute. repeat split. Qed.

(** ** The upper immediate *)

(** C6 fails on the code: [0x00001117] is [auipc x2, 1], a word of the
    core's own test program, which expects [x2 = 0x1094] when it runs at
    address [0x94].  The word is below [0x10000], the "truncated U-type"
    path takes it and yields [Uimm = 0], so [x2] receives [0x94]. *)
Theorem small_auipc_loses_immediate :
  Uimm (immediates_of_word 0x00001117) = 0
  /\ spec_Uimm 0x00001117 = 0x1000
  /\ reg (registerFile
            (run false [word_in 0x00001117; word_in 0]
               (placed WAIT_INSTR (repeat 0 32) 0x94 initial_core))) 2
     = 0x94.
Proof. vm_compute. repeat split. Qed.

Lemma testbit_high (x k n : Z) :
  0 <= k -> 0 <= x < 2 ^ k -> k <= n -> Z.testbit x n = false.
Proof.
  intros Hk Hx Hn. rewrite <- (Z.mod_small x (2 ^ k)) by lia.
  apply Z.mod_pow2_bits_high. lia.
Qed.

(** Every other word gets the specified value: the path taken by [lui]
    words below [0x10000] rebuilds the same immediate. *)
Lemma Uimm_as_specified (rf : list Z) (I : Z) :
  0 <= I < 2 ^ 32 ->
  (Z.land I 0x7F =? 0x17) && (I <? 0x10000) = false ->
  Uimm (compute_immediates_of (decode_word rf I)) = spec_Uimm I.
Proof.
  intros HI Hsmall.
  cbn [compute_immediates_of Uimm]. unfold compute_Uimm.
  cbn [decode_word full_instr]. cbv zeta.
  assert (Hhigh : forall n, 32 <= n -> Z.testbit I n = false)
    by (intros n Hn; apply (testbit_high I 32); lia).
  destruct (((Z.land I 0x7F =? 0x17) || (Z.land I 0x7F =? 0x37))
            && (I <? 0x10000)) eqn:E.
  - apply andb_prop in E as [Eop Elt].
    rewrite Elt, andb_true_r in Hsmall. rewrite Hsmall.
    apply Z.ltb_lt in Elt.
    assert (H16 : forall n, 16 <= n -> Z.testbit I n = false)
      by (intros n Hn; apply (testbit_high I 16); lia).
    unfold spec_Uimm. apply Z.bits_inj'. intros n Hn.
    destruct (Z.lt_ge_cases n 12) as [Hlo | Hlo].
    + rewrite testbit_trunc, Z.shiftl_spec_low, testbit_cat by lia.
      now rewrite Z.testbit_neg_r, Z.bits_0 by lia.
    + rewrite testbit_trunc, Z.shiftl_spec, Z.land_spec, Z.shiftr_spec by lia.
      change 0xF with (Z.ones 4). rewrite Z.testbit_ones_nonneg by lia.
      bits. replace (n - 12 + 12) with n by lia.
      destruct (Z.lt_ge_cases n 16) as [H4 | H4].
      * order_bits. now rewrite !andb_true_r.
      * now rewrite H16 by lia.
  - unfold spec_Uimm. apply Z.bits_inj'. intros n Hn.
    destruct (Z.lt_ge_cases n 12) as [Hlo | Hlo].
    + rewrite !(testbit_cat _ 12) by lia.
      now rewrite !(Z.testbit_neg_r _ (n - 12)) by lia.
    + bits. unfold bit. replace (n - 12 + 12) with n by lia.
      destruct (Z.lt_ge_cases n 31) as [H31 | H31].
      * order_bits. now rewrite andb_false_r, !andb_true_r.
      * destruct (Z.eq_dec n 31) as [-> | Hne].
        -- cbn. now rewrite andb_false_r, !andb_true_r, orb_false_r.
        -- rewrite (Hhigh n) by lia. order_bits.
           now rewrite andb_false_r.
Qed.

(** ** The decode table *)

(** C7 fails on the code: [0x0FF0000F] is [fence], [I[6:2] = 00011], a
    value the table does not list; the code sets [isJAL] from [I[3]] alone,
    so the word is taken as a jump: executed at address 8 it moves [PC] by
    the J-immediate of the word, to [0x906]. *)
Theorem fence_decoded_as_jal :
  range 0x0FF0000F 6 2 = 0x03
  /\ spec_isJAL 0x0FF0000F = false
  /\ isJAL (decode_word (repeat 0 32) 0x0FF0000F) = true
  /\ PC (run false [word_in 0x0FF0000F; word_in 0]
           (placed WAIT_INSTR (repeat 0 32) 8 initial_core)) = 0x906.
Proof. vm_compute. repeat split. Qed.

Lemma class_count_small (n : nat) :
  (n < 32)%nat -> class_count_of (Z.of_nat n) <= 1.
Proof.
  intros H.
  do 32 (destruct n as [|n]; [vm_compute; discriminate|]). lia.
Qed.

(** The part of C7 that holds: whatever the word, at most one of the ten
    class flags is set, and [isALU] is [isALUimm || isALUreg]. *)
Lemma class_flags_exclusive (rf : list Z) (w : Z) :
  let d := decode_word rf w in
  class_count d <= 1 /\ isALU d = isALUimm d || isALUreg d.
Proof.
  intros d. split; [|reflexivity].
  destruct (class_flags rf w (range w 6 2) eq_refl)
    as (H1 & H2 & H3 & H4 & H5 & H6 & H7 & H8 & H9 & H10 & _).
  fold d in H1, H2, H3, H4, H5, H6, H7, H8, H9, H10.
  unfold class_count. rewrite H1, H2, H3, H4, H5, H6, H7, H8, H9, H10.
  pose proof (range_bounds w 6 2) as Hb.
  change (2 ^ (6 - 2 + 1)) with 32 in Hb.
  rewrite <- (Z2Nat.id (range w 6 2)) by lia.
  apply class_count_small. lia.
Qed.

(** ** The load data path *)

(** The access size is read from bits 13..12 of the 30-bit [instr], which
    are bits 15..14 of the word: the low bit of [rs1] and [funct3[2]]. *)
Lemma access_size_bits (i : Inputs) (s : Core) :
  let m := compute_memory_access_of i s in
  mem_byteAccess m = (range (instr (dec s)) 13 12 =? 0)
  /\ mem_halfwordAccess m = (range (instr (dec s)) 13 12 =? 1).
Proof. split; reflexivity. Qed.

Lemma instr_13_12 (rf : list Z) (w : Z) :
  range (instr (decode_word rf w)) 13 12 = range w 15 14.
Proof.
  cbn [decode_word instr]. apply Z.bits_inj'. intros n Hn. bits.
  replace (n + 12 + 2) with (n + 14) by lia.
  destruct (Z.ltb_spec n 2); order_bits;
    now rewrite ?andb_true_r, ?andb_false_r.
Qed.

(** C2 fails on the code, all with effective address 0.  [lb x3, 0(x2)]
    on [W = 0x80] yields [0x180], not [0xFFFFFF80]: the sign lands in bit 8
    only.  [lh x3, 0(x2)] on [W = 0x8000] is treated as a byte load and
    yields 0, not [0xFFFF8000]; [lw x3, 0(x2)] on [W = 0x12345678] yields
    the byte [0x78], not [W]; [lbu x3, 0(x2)] on [W = 0x1234] is treated as
    a half load and yields [0x1234], not [0x34]. *)
Theorem load_alignment_diverges :
  (load_addr_of 0x00010183 0x80 = 0
   /\ load_data_of 0x00010183 0x80 = 0x180
   /\ spec_LOAD_data 0 0 0x80 = 0xFFFFFF80)
  /\ (load_data_of 0x00011183 0x8000 = 0
      /\ spec_LOAD_data 1 0 0x8000 = 0xFFFF8000)
  /\ (load_data_of 0x00012183 0x12345678 = 0x78
      /\ spec_LOAD_data 2 0 0x12345678 = 0x12345678)
  /\ (load_data_of 0x00014183 0x1234 = 0x1234
      /\ spec_LOAD_data 4 0 0x1234 = 0x34).
Proof. vm_compute. repeat split. Qed.

(** * Further properties of the core *)

(** Close a goal between boolean expressions by cases on the bits and
    comparisons that are left in it. *)
Ltac bool_cases :=
  repeat match goal with
    | |- context [Z.testbit ?a ?b] => destruct (Z.testbit a b)
    | |- context [?a <? ?b] => destruct (a <? b)
    | |- context [?a =? ?b] => destruct (a =? b)
    end;
  reflexivity.

(** ** Sign extension *)

(** X1: [sign_extend(value, bits)] copies bit [bits - 1] of [value] into the
    bits above it, up to bit 31, and keeps the bits below. *)
Theorem sign_extend_bits (value bits n : Z) :
  1 <= bits <= 32 -> 0 <= value < 2 ^ bits -> 0 <= n < 32 ->
  0 <= sign_extend value bits < 2 ^ 32
  /\ Z.testbit (sign_extend value bits) n
     = if n <? bits then Z.testbit value n else Z.testbit value (bits - 1).
Proof.
  intros Hb Hv Hn. unfold sign_extend, bit.
  change (trunc 32 (-1)) with (Z.ones 32).
  destruct (Z.testbit value (bits - 1)) eqn:E.
  - split.
    + unfold trunc at 1. apply Z.mod_pos_bound. lia.
    + rewrite testbit_trunc, Z.lor_spec, testbit_trunc by lia.
      destruct (Z.ltb_spec n bits) as [Hlt | Hge].
      * rewrite Z.shiftl_spec_low by lia. order_bits.
        now rewrite andb_true_r, orb_false_r.
      * rewrite Z.shiftl_spec, Z.testbit_ones_nonneg by lia.
        rewrite (testbit_high value bits n) by lia. order_bits. reflexivity.
  - split.
    + split; [lia|]. apply Z.lt_le_trans with (2 ^ bits); [lia|].
      apply Z.pow_le_mono_r; lia.
    + destruct (Z.ltb_spec n bits) as [Hlt | Hge]; [reflexivity|].
      apply (testbit_high value bits n); lia.
Qed.

Lemma sign_extend_bits_witness :
  (1 <= 8 <= 32 /\ 0 <= 0x80 < 2 ^ 8 /\ 0 <= 31 < 32)
  /\ sign_extend 0x80 8 = 0xFFFFFF80
  /\ Z.testbit (sign_extend 0x80 8) 31 = true.
Proof.
  split; [lia|]. split; [reflexivity|].
  destruct (sign_extend_bits 0x80 8 31) as [_ H]; [lia | cbn; lia | lia |].
  rewrite H. reflexivity.
Defined.

Lemma Iimm_value (rf : list Z) (w : Z) :
  Iimm (compute_immediates_of (decode_word rf w))
  = sign_extend (range w 31 20) 12.
Proof.
  cbn [compute_immediates_of decode_word Iimm full_instr].
  unfold sign_extend, bit. change (12 - 1) with 11.
  rewrite testbit_range by lia. change (11 + 20) with 31.
  change (11 <? 31 - 20 + 1) with true. rewrite andb_true_r.
  destruct (Z.testbit w 31); [|apply Z.lor_0_l].
  change (trunc 32 (-1)) with (Z.ones 32).
  change 0xFFFFF000 with (Z.shiftl (Z.ones 20) 12).
  apply Z.bits_inj'. intros n Hn.
  rewrite testbit_trunc, !Z.lor_spec, testbit_trunc by lia.
  destruct (Z.ltb_spec n 12) as [Hlt | Hge].
  - rewrite !Z.shiftl_spec_low by lia. order_bits.
    bool_cases.
  - rewrite !Z.shiftl_spec, !Z.testbit_ones_nonneg by lia.
    rewrite testbit_range by lia.
    destruct (Z.ltb_spec n 32); order_bits; bool_cases.
Qed.

(** X2: The I-type immediate is bits 31..20 of the word sign-extended to 32
    bits: its low 12 bits are [I[31:20]] and its bits 12 to 31 all equal
    [I[31]]. *)
Theorem Iimm_sign_extended (rf : list Z) (w n : Z) :
  0 <= n < 32 ->
  0 <= Iimm (compute_immediates_of (decode_word rf w)) < 2 ^ 32
  /\ Z.testbit (Iimm (compute_immediates_of (decode_word rf w))) n
     = if n <? 12 then Z.testbit w (n + 20) else Z.testbit w 31.
Proof.
  intros Hn. split.
  - cbn [compute_immediates_of decode_word Iimm full_instr].
    assert (Hr : 0 <= range w 31 20 < 2 ^ 12)
      by (apply (range_bounds w 31 20); lia).
    destruct (bit w 31).
    + split; [apply Z.lor_nonneg; lia|].
      apply below_pow2; [lia | apply Z.lor_nonneg; lia |].
      intros k Hk. rewrite Z.lor_spec.
      rewrite (testbit_high (range w 31 20) 12 k) by lia.
      rewrite (testbit_high 0xFFFFF000 32 k) by lia. reflexivity.
    + rewrite Z.lor_0_l. lia.
  - cbn [compute_immediates_of decode_word Iimm full_instr].
    rewrite Z.lor_spec, testbit_range by lia. unfold bit.
    change (31 - 20 + 1) with 12.
    destruct (Z.ltb_spec n 12) as [Hlt | Hge].
    + rewrite andb_true_r.
      destruct (Z.testbit w 31); [|now rewrite Z.bits_0].
      change 0xFFFFF000 with (Z.shiftl (Z.ones 20) 12).
      now rewrite Z.shiftl_spec_low by lia.
    + rewrite andb_false_r, orb_false_r.
      destruct (Z.testbit w 31); [|now rewrite Z.bits_0].
      change 0xFFFFF000 with (Z.shiftl (Z.ones 20) 12).
      rewrite Z.shiftl_spec, Z.ones_spec_low by lia. reflexivity.
Qed.

Lemma Iimm_sign_extended_witness :
  0 <= 31 < 32
  /\ Iimm (immediates_of_word 0xFFF10113) = 0xFFFFFFFF
  /\ Z.testbit (Iimm (immediates_of_word 0xFFF10113)) 31 = true.
Proof.
  split; [lia|]. split; [reflexivity|]. unfold immediates_of_word.
  destruct (Iimm_sign_extended (repeat 0 32) 0xFFF10113 31) as [_ H]; [lia|].
  rewrite H. reflexivity.
Defined.

(** ** The adder, the subtractor and the comparisons *)

Lemma not64_sub (x : Z) : 0 <= x < 2 ^ 64 -> not64 x = 2 ^ 64 - 1 - x.
Proof.
  intros Hx. unfold not64.
  assert (H : x + Z.lxor x (Z.ones 64) = Z.ones 64).
  { rewrite Z.add_nocarry_lxor.
    - now rewrite <- Z.lxor_assoc, Z.lxor_nilpotent, Z.lxor_0_l.
    - apply Z.bits_inj'. intros n Hn.
      rewrite Z.land_spec, Z.lxor_spec, Z.bits_0.
      destruct (Z.ltb_spec n 64).
      + rewrite Z.ones_spec_low by lia. now destruct (Z.testbit x n).
      + now rewrite (testbit_high x 64 n) by lia. }
  set (y := Z.lxor x (Z.ones 64)) in *. rewrite Z.ones_equiv in H. lia.
Qed.

Lemma top_bit (x k : Z) :
  0 <= k -> 0 <= x < 2 ^ (k + 1) -> Z.testbit x k = (2 ^ k <=? x).
Proof.
  intros Hk Hx.
  replace k with (0 + k) at 1 by lia.
  rewrite <- Z.div_pow2_bits, Z.bit0_odd by lia.
  rewrite Z.pow_add_r, Z.pow_1_r in Hx by lia.
  assert (Hp : 0 < 2 ^ k) by (apply Z.pow_pos_nonneg; lia).
  destruct (Z.leb_spec (2 ^ k) x) as [H | H].
  - replace (x / 2 ^ k) with 1; [reflexivity|].
    apply Z.div_unique with (x - 2 ^ k); lia.
  - now rewrite Z.div_small by lia.
Qed.

(** The 33-bit sum [{1, ~b} + {0, a} + 1] is [a - b] modulo [2^33]. *)
Lemma subtract33 (a b : Z) :
  0 <= a < 2 ^ 32 -> 0 <= b < 2 ^ 32 ->
  trunc 33 (trunc 64 (Z.lor (Z.shiftl 1 32) (not64 b)
                      + Z.lor (Z.shiftl 0 32) a + 1))
  = (a - b) mod 2 ^ 33.
Proof.
  intros Ha Hb.
  assert (E1 : Z.lor (Z.shiftl 1 32) (not64 b) = not64 b).
  { apply Z.bits_inj'. intros n Hn. rewrite Z.lor_spec.
    destruct (Z.eq_dec n 32) as [-> | Hne].
    - unfold not64. rewrite Z.lxor_spec, (testbit_high b 32 32) by lia.
      reflexivity.
    - rewrite Z.shiftl_spec by lia.
      destruct (Z.ltb_spec n 32).
      + now rewrite Z.testbit_neg_r by lia.
      + replace (Z.testbit 1 (n - 32)) with false; [reflexivity|].
        symmetry. apply (testbit_high 1 1); lia. }
  rewrite E1, Z.shiftl_0_l, Z.lor_0_l, not64_sub by lia.
  unfold trunc.
  rewrite Z.mod_mod_divide by (exists (2 ^ 31); reflexivity).
  replace (2 ^ 64 - 1 - b + a + 1) with (a - b + 2 ^ 31 * 2 ^ 33) by lia.
  apply Z_mod_plus_full.
Qed.

(** What the 33-bit difference [m] tells about [a] and [b]. *)
Lemma subtract33_compare (a b : Z) :
  0 <= a < 2 ^ 32 -> 0 <= b < 2 ^ 32 ->
  let m := (a - b) mod 2 ^ 33 in
  range m 31 0 = (a - b) mod 2 ^ 32
  /\ Z.testbit m 32 = (a <? b)
  /\ (range m 31 0 =? 0) = (a =? b)
  /\ (if xorb (Z.testbit a 31) (Z.testbit b 31)
      then Z.testbit a 31 else Z.testbit m 32)
     = (signed32 a <? signed32 b).
Proof.
  intros Ha Hb m.
  assert (Hm : 0 <= m < 2 ^ 33) by (apply Z.mod_pos_bound; lia).
  assert (Hltu : Z.testbit m 32 = (a <? b)).
  { rewrite top_bit by (change (32 + 1) with 33; lia). unfold m.
    destruct (Z.ltb_spec a b) as [H | H].
    - replace ((a - b) mod 2 ^ 33) with (a - b + 2 ^ 33).
      + apply Z.leb_le. lia.
      + apply Z.mod_unique with (-1); lia.
    - rewrite Z.mod_small by lia. apply Z.leb_gt. lia. }
  assert (Hdiff : range m 31 0 = (a - b) mod 2 ^ 32).
  { rewrite range_mod by lia. rewrite Z.pow_0_r, Z.div_1_r.
    change (31 - 0 + 1) with 32.
    apply Z.mod_mod_divide. exists 2. reflexivity. }
  split; [exact Hdiff|]. split; [exact Hltu|].
  rewrite Hltu, Hdiff. split.
  - destruct (Z.eqb_spec a b) as [-> | Hne].
    + now rewrite Z.sub_diag.
    + apply Z.eqb_neq. intros H0.
      apply Z.mod_divide in H0; [|lia]. destruct H0 as [q Hq]. lia.
  - rewrite !(top_bit _ 31) by (change (31 + 1) with 32; lia).
    unfold signed32.
    destruct (Z.leb_spec (2 ^ 31) a), (Z.leb_spec (2 ^ 31) b),
      (Z.ltb_spec a b), (Z.ltb_spec a (2 ^ 31)), (Z.ltb_spec b (2 ^ 31));
      try lia; cbn [xorb]; symmetry;
      first [apply Z.ltb_lt; lia | apply Z.ltb_ge; lia].
Qed.

(** X3: The single 33-bit subtraction of [compute_alu] yields the 32-bit
    difference and the three comparisons of its operands: unsigned
    less-than, equality and signed less-than. *)
Theorem alu_subtract_compare (s : Core) :
  let r := compute_alu_of s in
  0 <= aluIn1 r < 2 ^ 32 -> 0 <= aluIn2 r < 2 ^ 32 ->
  aluPlus r = (aluIn1 r + aluIn2 r) mod 2 ^ 32
  /\ range (aluMinus r) 31 0 = (aluIn1 r - aluIn2 r) mod 2 ^ 32
  /\ LTU r = (aluIn1 r <? aluIn2 r)
  /\ EQ r = (aluIn1 r =? aluIn2 r)
  /\ LT r = (signed32 (aluIn1 r) <? signed32 (aluIn2 r)).
Proof.
  unfold compute_alu_of. cbv zeta.
  cbn [aluIn1 aluIn2 aluPlus aluMinus LT LTU EQ].
  set (a := rs1 (dec s)).
  set (b := if isALUreg (dec s) || isBranch (dec s)
            then rs2 (dec s) else Iimm (imm s)).
  intros Ha Hb. rewrite subtract33 by assumption.
  destruct (subtract33_compare a b Ha Hb) as (H1 & H2 & H3 & H4).
  unfold bit. repeat split; assumption.
Qed.

Lemma alu_subtract_compare_witness :
  (0 <= aluIn1 (compute_alu_of (executing 0xFFF10113)) < 2 ^ 32
   /\ 0 <= aluIn2 (compute_alu_of (executing 0xFFF10113)) < 2 ^ 32)
  /\ aluIn1 (compute_alu_of (executing 0xFFF10113)) = 0
  /\ aluIn2 (compute_alu_of (executing 0xFFF10113)) = 0xFFFFFFFF
  /\ LTU (compute_alu_of (executing 0xFFF10113)) = true
  /\ LT (compute_alu_of (executing 0xFFF10113)) = false.
Proof.
  assert (H1 : aluIn1 (compute_alu_of (executing 0xFFF10113)) = 0)
    by reflexivity.
  assert (H2 : aluIn2 (compute_alu_of (executing 0xFFF10113)) = 0xFFFFFFFF)
    by reflexivity.
  assert (R1 : 0 <= aluIn1 (compute_alu_of (executing 0xFFF10113)) < 2 ^ 32)
    by (rewrite H1; lia).
  assert (R2 : 0 <= aluIn2 (compute_alu_of (executing 0xFFF10113)) < 2 ^ 32)
    by (rewrite H2; lia).
  split; [split; assumption|]. split; [exact H1|]. split; [exact H2|].
  destruct (alu_subtract_compare (executing 0xFFF10113) R1 R2)
    as (_ & _ & Hltu & _ & Hlt).
  rewrite Hltu, Hlt, H1, H2. split; reflexivity.
Defined.

(** ** The branch predicate *)

(** For a branch, [predicate] is the comparison of [rs1] and [rs2] that
    [funct3] selects: equal, not equal, signed less, signed not less,
    unsigned less, unsigned not less; with [funct3] 2 or 3 it is never
    set. *)
Lemma branch_predicate_compares (s : Core) :
  isBranch (dec s) = true ->
  0 <= rs1 (dec s) < 2 ^ 32 -> 0 <= rs2 (dec s) < 2 ^ 32 ->
  predicate (compute_branch_predicate (compute_alu s))
  = branch_taken (funct3 (dec s)) (rs1 (dec s)) (rs2 (dec s)).
Proof.
  intros Hbr Ha Hb.
  cbn [compute_branch_predicate compute_alu predicate dec alu].
  unfold compute_alu_of. cbv zeta. cbn [LT LTU EQ].
  rewrite Hbr, orb_true_r. rewrite subtract33 by assumption.
  destruct (subtract33_compare _ _ Ha Hb) as (_ & H2 & H3 & H4).
  unfold bit. rewrite H4, H3, H2.
  unfold branch_taken, BRANCH_BEQ, BRANCH_BNE, BRANCH_BLT, BRANCH_BGE,
    BRANCH_BLTU, BRANCH_BGEU.
  set (f := funct3 (dec s)).
  destruct (Z.eqb_spec f 0), (Z.eqb_spec f 1), (Z.eqb_spec f 4),
    (Z.eqb_spec f 5), (Z.eqb_spec f 6), (Z.eqb_spec f 7); try lia;
    cbn [andb orb]; rewrite ?orb_false_r; reflexivity.
Qed.

(** ** Values stay within their widths *)

Lemma word32_trunc (x : Z) : word32 (trunc 32 x).
Proof. unfold word32, trunc. apply Z.mod_pos_bound. lia. Qed.

Lemma word32_bits (x : Z) :
  0 <= x -> (forall n, 32 <= n -> Z.testbit x n = false) -> word32 x.
Proof. intros H0 H. split; [assumption|]. apply below_pow2; [lia | assumption | assumption]. Qed.

Lemma word32_high (x n : Z) : word32 x -> 32 <= n -> Z.testbit x n = false.
Proof. intros H Hn. apply (testbit_high x 32); [lia | exact H | exact Hn]. Qed.

Lemma word32_lor (a b : Z) : word32 a -> word32 b -> word32 (Z.lor a b).
Proof.
  intros Ha Hb. apply word32_bits.
  - apply Z.lor_nonneg. split; [apply Ha | apply Hb].
  - intros n Hn. now rewrite Z.lor_spec, !word32_high.
Qed.

Lemma word32_land (a b : Z) : word32 a -> word32 b -> word32 (Z.land a b).
Proof.
  intros Ha Hb. apply word32_bits.
  - apply Z.land_nonneg. left. apply Ha.
  - intros n Hn. now rewrite Z.land_spec, !word32_high.
Qed.

Lemma word32_lxor (a b : Z) : word32 a -> word32 b -> word32 (Z.lxor a b).
Proof.
  intros Ha Hb. apply word32_bits.
  - apply Z.lxor_nonneg. split; intros _; [apply Hb | apply Ha].
  - intros n Hn. now rewrite Z.lxor_spec, !word32_high.
Qed.

Lemma word32_small (x k : Z) : 0 <= k <= 32 -> 0 <= x < 2 ^ k -> word32 x.
Proof.
  intros Hk Hx. split; [lia|].
  apply Z.lt_le_trans with (2 ^ k); [lia|]. apply Z.pow_le_mono_r; lia.
Qed.

Lemma word32_range (x hi lo : Z) :
  0 <= lo -> lo <= hi + 1 -> hi - lo + 1 <= 32 -> word32 (range x hi lo).
Proof.
  intros H1 H2 H3. apply (word32_small _ (hi - lo + 1)); [lia|].
  now apply range_bounds.
Qed.

Lemma word32_cat (hi w lo : Z) :
  0 <= w -> 0 <= hi -> 0 <= lo ->
  (forall n, 32 <= n -> Z.testbit hi (n - w) = false) ->
  (forall n, 32 <= n -> Z.testbit lo n = false) ->
  word32 (cat hi w lo).
Proof.
  intros Hw Hhi Hlo H1 H2. apply word32_bits.
  - now apply cat_nonneg.
  - intros n Hn. now rewrite testbit_cat, H1, H2 by lia.
Qed.

Lemma word32_0 : word32 0.
Proof. unfold word32. lia. Qed.

Lemma word32_reg (rf : list Z) (k : Z) : Forall word32 rf -> word32 (reg rf k).
Proof.
  intros H. unfold reg.
  destruct (nth_in_or_default (Z.to_nat k) rf 0) as [Hin | ->].
  - rewrite Forall_forall in H. apply H. now apply list_elem_of_In.
  - apply word32_0.
Qed.

Lemma word32_Iimm (d : Decoded) : word32 (Iimm (compute_immediates_of d)).
Proof.
  cbn [compute_immediates_of Iimm]. apply word32_lor.
  - destruct (bit (full_instr d) 31); unfold word32; lia.
  - apply word32_range; lia.
Qed.

Lemma word32_Uimm (d : Decoded) : word32 (Uimm (compute_immediates_of d)).
Proof.
  cbn [compute_immediates_of Uimm]. unfold compute_Uimm. cbv zeta.
  destruct (_ && _).
  - destruct (_ =? _); [apply word32_0 | apply word32_trunc].
  - apply word32_bits.
    + repeat first [apply cat_nonneg | apply of_bool_nonneg
                   | apply range_nonneg | lia].
    + intros n Hn. bits. reflexivity.
Qed.

(** ** The signals after a combinational evaluation *)

Lemma decode_instruction_idle (i : Inputs) (s : Core) :
  State_eqb (state s) WAIT_INSTR && negb (mem_rbusy i) = false ->
  decode_instruction i s = s.
Proof. intros H. unfold decode_instruction. now rewrite H. Qed.

Lemma combinational_imm (i : Inputs) (s : Core) :
  imm (combinational_process i s)
  = compute_immediates_of (dec (combinational_process i s)).
Proof. reflexivity. Qed.

Lemma combinational_alu (i : Inputs) (s : Core) :
  alu (combinational_process i s)
  = compute_alu_of (compute_immediates (decode_instruction i s)).
Proof. reflexivity. Qed.

Lemma combinational_predicate (i : Inputs) (s : Core) :
  predicate (combinational_process i s)
  = predicate (compute_branch_predicate
                 (compute_alu (compute_immediates (decode_instruction i s)))).
Proof. reflexivity. Qed.

Lemma combinational_lsu (i : Inputs) (s : Core) :
  lsu (combinational_process i s)
  = compute_memory_access_of i
      (compute_branch_predicate
         (compute_alu (compute_immediates (decode_instruction i s)))).
Proof. reflexivity. Qed.

Lemma combinational_PCplusImm_word (i : Inputs) (s : Core) :
  word32 (PCplusImm (combinational_process i s)).
Proof.
  rewrite combinational_process_eq, evaluate_signals_eq.
  destruct (assign_control_frame (update_pc (before_update_pc i s)))
    as (_ & _ & _ & _ & _ & _ & _ & ->).
  generalize (before_update_pc i s). intros S. cbn [update_pc PCplusImm].
  destruct (isJAL (dec S)); [|destruct (isAUIPC (dec S))];
    apply word32_trunc.
Qed.

Lemma word32_aluOut (S : Core) :
  word32 (rs1 (dec S)) -> word32 (rs2 (dec S)) -> word32 (Iimm (imm S)) ->
  word32 (aluReg S) ->
  word32 (aluOut (compute_alu_of S)).
Proof.
  intros Ha Hr2 Hi Hreg. unfold compute_alu_of. cbv zeta. cbn [aluOut].
  set (a := rs1 (dec S)) in *.
  set (b := if isALUreg (dec S) || isBranch (dec S)
            then rs2 (dec S) else Iimm (imm S)).
  assert (Hb : word32 b) by (unfold b; destruct (_ || _); assumption).
  repeat match goal with
    | |- word32 (if ?c then _ else _) => destruct c
    end;
    first [ apply word32_range; lia | apply word32_trunc
          | now apply word32_lxor | now apply word32_lor
          | now apply word32_land | assumption | unfold word32; lia ].
Qed.

Lemma word32_cat_small (hi a w lo : Z) :
  0 <= a -> 0 <= w -> a + w <= 32 ->
  0 <= hi < 2 ^ a -> 0 <= lo < 2 ^ w -> word32 (cat hi w lo).
Proof.
  intros Ha Hw Haw Hhi Hlo. apply word32_cat; try lia.
  - intros n Hn. apply (testbit_high hi a); lia.
  - intros n Hn. apply (testbit_high lo w); lia.
Qed.

Lemma of_bool_bounds (b : bool) : 0 <= of_bool b < 2 ^ 1.
Proof. destruct b; cbn; lia. Qed.

Lemma word32_LOAD_data (i : Inputs) (S : Core) :
  word32 (LOAD_data (compute_memory_access_of i S)).
Proof.
  unfold compute_memory_access_of. cbv zeta. cbn [LOAD_data].
  match goal with
  | |- context [if bit ?a 1 then range ?r 31 16 else range ?r 15 0] =>
      set (hw := if bit a 1 then range r 31 16 else range r 15 0)
  end.
  assert (Hhw : 0 <= hw < 2 ^ 16).
  { unfold hw. destruct (bit _ 1).
    - apply (range_bounds _ 31 16); lia.
    - apply (range_bounds _ 15 0); lia. }
  match goal with
  | |- context [if bit ?a 0 then range hw 15 8 else range hw 7 0] =>
      set (by_ := if bit a 0 then range hw 15 8 else range hw 7 0)
  end.
  assert (Hby : 0 <= by_ < 2 ^ 8).
  { unfold by_. destruct (bit _ 0).
    - apply (range_bounds _ 15 8); lia.
    - apply (range_bounds _ 7 0); lia. }
  destruct (_ =? 0).
  - apply (word32_cat_small _ 1); try lia. apply of_bool_bounds.
  - destruct (_ =? 1).
    + apply (word32_cat_small _ 1); try lia. apply of_bool_bounds.
    + apply word32_trunc.
Qed.

Lemma word32_shift_step (tl : bool) (s : Core) :
  word32 (aluReg s) -> word32 (aluIn1 (alu s)) ->
  word32 (fst (shift_step tl s)).
Proof.
  intros Hr Ha. unfold shift_step.
  repeat match goal with
    | |- word32 (fst (if ?c then _ else _)) => destruct c
    end; cbn [fst]; try assumption;
    (destruct (_ =? ALU_SLL); [apply word32_trunc|]);
    (apply (word32_cat_small _ 1); [lia | lia | lia | apply of_bool_bounds |]).
  - apply (range_bounds _ 31 4); lia.
  - apply (range_bounds _ 31 1); lia.
Qed.

Lemma combinational_aluIn1 (i : Inputs) (s : Core) :
  aluIn1 (alu (combinational_process i s))
  = rs1 (dec (combinational_process i s)).
Proof. reflexivity. Qed.

Lemma word32_if (c : bool) (x : Z) : word32 x -> word32 (if c then x else 0).
Proof. destruct c; [trivial | intros _; apply word32_0]. Qed.

Lemma after_immediates_frame (i : Inputs) (s : Core) :
  let X := compute_immediates (decode_instruction i s) in
  dec X = dec (combinational_process i s)
  /\ imm X = compute_immediates_of (dec (combinational_process i s))
  /\ aluReg X = aluReg s
  /\ aluShamt X = aluShamt s.
Proof. decode_cases; repeat split. Qed.

Lemma word32_jalr_target (x : Z) :
  word32 (cat (range x (ADDR_WIDTH - 1) 1) 1 0).
Proof.
  change (ADDR_WIDTH - 1) with 23.
  apply (word32_cat_small _ 23); try lia.
  apply (range_bounds _ 23 1); lia.
Qed.

Lemma combinational_PC_word (i : Inputs) (s : Core) :
  word32 (PC s) -> word32 (PC (combinational_process i s)).
Proof.
  intros Hpc. destruct (State_eqb (state s) EXECUTE) eqn:E.
  - apply State_eqb_eq in E. rewrite (combinational_PC_execute i s E).
    destruct (isJALR _); [apply word32_jalr_target|].
    destruct (jumpToPCplusImm _);
      [apply combinational_PCplusImm_word | apply word32_trunc].
  - now rewrite combinational_PC_idle.
Qed.

Lemma combinational_writeBackData_word (i : Inputs) (s : Core) :
  word32 (cycles s) -> word32 (aluReg s) ->
  word32 (rs1 (dec (combinational_process i s))) ->
  word32 (rs2 (dec (combinational_process i s))) ->
  word32 (writeBackData (ctl (combinational_process i s))).
Proof.
  intros Hcy Hreg Hr1 Hr2.
  pose proof (combinational_writeBackData i s) as Hw. cbv zeta in Hw.
  rewrite Hw.
  assert (Hout : word32 (aluOut (alu (combinational_process i s)))).
  { rewrite combinational_alu.
    destruct (after_immediates_frame i s) as (Ed & Ei & Er & _).
    apply word32_aluOut.
    - now rewrite Ed.
    - now rewrite Ed.
    - rewrite Ei. apply word32_Iimm.
    - now rewrite Er. }
  repeat apply word32_lor; apply word32_if.
  - exact Hcy.
  - rewrite combinational_imm. apply word32_Uimm.
  - exact Hout.
  - apply combinational_PCplusImm_word.
  - rewrite combinational_PCplus4. apply word32_trunc.
  - rewrite combinational_lsu. apply word32_LOAD_data.
Qed.

(** Split a conjunction, leaving [word32] facts whole. *)
Ltac split_all := repeat match goal with |- _ /\ _ => split end.

(** The combinational process keeps the values within their widths. *)
Lemma combinational_within_widths (i : Inputs) (s : Core) :
  within_widths s -> within_widths (combinational_process i s).
Proof.
  intros (Hpc & Hcy & Hreg & Hsh & Hlen & Hrf & Hrd & Hr1 & Hr2 & Ha & Hwb).
  assert (Hdec : 0 <= rdId (dec (combinational_process i s)) < 32
                 /\ word32 (rs1 (dec (combinational_process i s)))
                 /\ word32 (rs2 (dec (combinational_process i s)))).
  { rewrite combinational_dec.
    destruct (State_eqb (state s) WAIT_INSTR && negb (mem_rbusy i)).
    - cbn [decode_word rdId rs1 rs2]. split; [|split].
      + pose proof (range_bounds (read_mem_rdata i) 11 7) as H.
        change (2 ^ (11 - 7 + 1)) with 32 in H. lia.
      + now apply word32_reg.
      + now apply word32_reg.
    - auto. }
  destruct Hdec as (Hrd' & Hr1' & Hr2').
  unfold within_widths.
  rewrite combinational_cycles, combinational_aluReg, combinational_aluShamt,
    combinational_registerFile, combinational_aluIn1.
  split_all; try assumption; try lia.
  - now apply combinational_PC_word.
  - now apply combinational_writeBackData_word.
Qed.

(** So does the clocked process. *)
Lemma clock_within_widths (tl : bool) (i : Inputs) (s : Core) :
  within_widths s -> within_widths (clock_process tl i s).
Proof.
  intros (Hpc & Hcy & Hreg & Hsh & Hlen & Hrf & Hrd & Hr1 & Hr2 & Ha & Hwb).
  unfold within_widths, clock_process. destruct (reset i); cbn [negb].
  - cbn [PC cycles aluReg aluShamt registerFile dec alu ctl].
    pose proof (shamt_in_range tl s Hsh) as Hs'.
    split_all; try assumption; try lia.
    + apply word32_trunc.
    + now apply word32_shift_step.
    + destruct (_ && _); [|assumption]. now rewrite length_insert.
    + destruct (_ && _); [|assumption]. now apply Forall_insert.
  - cbn [PC cycles aluReg aluShamt registerFile dec alu ctl].
    split_all; try assumption; try lia.
    + apply word32_0.
    + apply word32_0.
    + now rewrite length_insert.
    + apply Forall_insert; [assumption | apply word32_0].
Qed.

Lemma cycle_within_widths (tl : bool) (i : Inputs) (s : Core) :
  within_widths s -> within_widths (cycle tl i s).
Proof.
  intros H. unfold cycle.
  now apply clock_within_widths, combinational_within_widths.
Qed.

Lemma run_within_widths (tl : bool) (ins : list Inputs) :
  forall s, within_widths s -> within_widths (run tl ins s).
Proof.
  induction ins as [|i ins IH]; intros s H; [exact H|].
  rewrite run_cons. now apply IH, cycle_within_widths.
Qed.

Lemma initial_within_widths : within_widths initial_core.
Proof.
  unfold within_widths, word32. cbn.
  split_all; try lia; try reflexivity.
  repeat constructor; lia.
Qed.

(** X4: From the state the constructor builds, whatever the inputs (reset
    included), every register of the core keeps a value of its declared
    width and the register file keeps its 32 slots of 32 bits. *)
Theorem widths_kept (tl : bool) (ins : list Inputs) :
  let s := run tl ins initial_core in
  word32 (PC s) /\ word32 (cycles s) /\ word32 (aluReg s)
  /\ 0 <= aluShamt s < 32
  /\ length (registerFile s) = 32%nat
  /\ Forall word32 (registerFile s).
Proof.
  destruct (run_within_widths tl ins initial_core initial_within_widths)
    as (H1 & H2 & H3 & H4 & H5 & H6 & _).
  cbv zeta. split_all; try assumption; lia.
Qed.

(** ** Register [x0] *)

Lemma reg_insert_ne (rf : list Z) (k : nat) (j v : Z) :
  k <> Z.to_nat j -> reg (<[k := v]> rf) j = reg rf j.
Proof.
  intros H. unfold reg. rewrite !nth_lookup.
  now rewrite list_lookup_insert_ne.
Qed.

Lemma reg_insert_eq (rf : list Z) (k : nat) (j v : Z) :
  k = Z.to_nat j -> (k < length rf)%nat -> reg (<[k := v]> rf) j = v.
Proof.
  intros -> H. unfold reg. rewrite nth_lookup.
  now rewrite list_lookup_insert_eq.
Qed.

Lemma cycle_x0 (tl : bool) (i : Inputs) (s : Core) :
  0 <= rdId (dec (combinational_process i s)) ->
  reg (registerFile s) 0 = 0 ->
  reg (registerFile (cycle tl i s)) 0 = 0.
Proof.
  intros Hrd H0. unfold cycle, clock_process.
  destruct (reset i); cbn [negb registerFile].
  - destruct (writeBack _ && negb (rdId _ =? 0)) eqn:E.
    + apply andb_prop in E as [_ E]. apply negb_true_iff, Z.eqb_neq in E.
      rewrite reg_insert_ne, combinational_registerFile by lia. exact H0.
    + now rewrite combinational_registerFile.
  - rewrite combinational_registerFile. unfold reg. cbn [Z.to_nat].
    destruct (registerFile s); reflexivity.
Qed.

(** X5: Register [x0] reads zero for ever: no sequence of cycles, with or
    without reset, stores anything else in slot 0 of the register file. *)
Theorem x0_stays_zero (tl : bool) (ins : list Inputs) (s : Core) :
  within_widths s ->
  reg (registerFile s) 0 = 0 ->
  reg (registerFile (run tl ins s)) 0 = 0.
Proof.
  revert s. induction ins as [|i ins IH]; intros s Hw H0; [exact H0|].
  rewrite run_cons. apply IH.
  - now apply cycle_within_widths.
  - apply cycle_x0; [|exact H0].
    apply (combinational_within_widths i) in Hw.
    destruct Hw as (_ & _ & _ & _ & _ & _ & Hrd & _). lia.
Qed.

Lemma x0_stays_zero_witness :
  (within_widths initial_core /\ reg (registerFile initial_core) 0 = 0)
  /\ reg (registerFile
            (run false [word_in 0; word_in 0x00500013; word_in 0; word_in 0]
               initial_core)) 0 = 0.
Proof.
  split; [split; [exact initial_within_widths | reflexivity]|].
  apply x0_stays_zero; [exact initial_within_widths | reflexivity].
Defined.

(** ** The cycle counter *)

Lemma cycle_cycles (tl : bool) (i : Inputs) (s : Core) :
  running i -> cycles (cycle tl i s) = trunc 32 (cycles s + 1).
Proof.
  intros Hr. unfold cycle.
  destruct (clock_running tl i (combinational_process i s) Hr)
    as (_ & -> & _).
  now rewrite combinational_cycles.
Qed.

(** X6: Out of reset, [cycles] counts the clock cycles modulo [2^32],
    whatever the control state does. *)
Theorem cycles_counts (tl : bool) (ins : list Inputs) (s : Core) :
  word32 (cycles s) -> Forall running ins ->
  cycles (run tl ins s) = (cycles s + Z.of_nat (length ins)) mod 2 ^ 32.
Proof.
  revert s. induction ins as [|i ins IH]; intros s Hc Hr.
  - cbn [run fold_left length Z.of_nat]. rewrite Z.add_0_r.
    symmetry. apply Z.mod_small. exact Hc.
  - apply Forall_cons_iff in Hr as [Hi Hr].
    rewrite run_cons, IH, cycle_cycles by
      (try assumption; rewrite cycle_cycles by assumption;
       apply word32_trunc).
    unfold trunc. rewrite Z.add_mod_idemp_l by lia.
    f_equal. cbn [length]. lia.
Qed.

Lemma cycles_counts_witness :
  (word32 (cycles initial_core)
   /\ Forall running [word_in 0; word_in 0x00500093; word_in 0])
  /\ cycles (run false [word_in 0; word_in 0x00500093; word_in 0]
               initial_core) = 3.
Proof.
  assert (Hc : word32 (cycles initial_core)) by (cbn; unfold word32; lia).
  assert (Hr : Forall running [word_in 0; word_in 0x00500093; word_in 0])
    by (repeat constructor).
  split; [split; assumption|].
  rewrite (cycles_counts false _ initial_core Hc Hr). reflexivity.
Defined.

(** ** The program counter *)

Lemma cat_even (hi : Z) : Z.odd (cat hi 1 0) = false.
Proof.
  rewrite <- Z.bit0_odd. unfold cat.
  now rewrite Z.lor_spec, Z.shiftl_spec_low, Z.bits_0 by lia.
Qed.

Lemma range_low_odd (x hi : Z) : 0 <= hi -> Z.odd (range x hi 0) = Z.odd x.
Proof.
  intros H. rewrite <- !Z.bit0_odd, testbit_range by lia.
  replace (0 <? hi - 0 + 1) with true by (symmetry; apply Z.ltb_lt; lia).
  now rewrite andb_true_r.
Qed.

Lemma trunc_odd (x : Z) : Z.odd (trunc 32 x) = Z.odd x.
Proof.
  rewrite <- !Z.bit0_odd, testbit_trunc by lia. now rewrite andb_true_r.
Qed.

Lemma immediates_even (d : Decoded) :
  let m := compute_immediates_of d in
  Z.odd (Jimm m) = false /\ Z.odd (Bimm m) = false /\ Z.odd (Uimm m) = false.
Proof.
  cbn [compute_immediates_of Jimm Bimm Uimm]. split; [|split].
  - apply cat_even.
  - apply cat_even.
  - unfold compute_Uimm. cbv zeta. destruct (_ && _).
    + destruct (_ =? _); [reflexivity|].
      rewrite trunc_odd, <- Z.bit0_odd. now rewrite Z.shiftl_spec_low by lia.
    + rewrite <- Z.bit0_odd. unfold cat.
      now rewrite Z.lor_spec, Z.shiftl_spec_low, Z.bits_0 by lia.
Qed.

Lemma combinational_PCplusImm (i : Inputs) (s : Core) :
  let s' := combinational_process i s in
  PCplusImm s' =
  trunc 32 (PC s + range (if isJAL (dec s') then Jimm (imm s')
                          else if isAUIPC (dec s') then Uimm (imm s')
                          else Bimm (imm s')) (ADDR_WIDTH - 1) 0).
Proof.
  intros s'.
  destruct (before_update_pc_frame i s)
    as (_ & Hpc & _ & _ & Hdec & Himm & _).
  fold s' in Hdec, Himm. rewrite <- Hdec, <- Himm, <- Hpc.
  unfold s'. rewrite combinational_process_eq, evaluate_signals_eq.
  destruct (assign_control_frame (update_pc (before_update_pc i s)))
    as (_ & _ & _ & _ & _ & _ & _ & ->).
  generalize (before_update_pc i s). intros S. cbn [update_pc PCplusImm].
  destruct (isJAL (dec S)); [reflexivity|].
  destruct (isAUIPC (dec S)); reflexivity.
Qed.

Lemma combinational_PC_even (i : Inputs) (s : Core) :
  Z.odd (PC s) = false -> Z.odd (PC (combinational_process i s)) = false.
Proof.
  intros H. destruct (State_eqb (state s) EXECUTE) eqn:E.
  - apply State_eqb_eq in E. rewrite (combinational_PC_execute i s E).
    destruct (isJALR _); [apply cat_even|].
    destruct (jumpToPCplusImm _).
    + rewrite combinational_PCplusImm, trunc_odd, Z.odd_add, H.
      rewrite range_low_odd by (unfold ADDR_WIDTH, DEFAULT_ADDR_WIDTH; lia).
      rewrite combinational_imm.
      destruct (immediates_even (dec (combinational_process i s)))
        as (Hj & Hb & Hu).
      destruct (isJAL _); [now rewrite Hj|].
      destruct (isAUIPC _); [now rewrite Hu | now rewrite Hb].
    + now rewrite trunc_odd, Z.odd_add, H.
  - now rewrite combinational_PC_idle.
Qed.

(** X7: [PC] stays even: reset, [PC + 4], jumps, branches and the [jalr]
    target all keep bit 0 clear. *)
Theorem PC_stays_even (tl : bool) (ins : list Inputs) (s : Core) :
  Z.odd (PC s) = false -> Z.odd (PC (run tl ins s)) = false.
Proof.
  revert s. induction ins as [|i ins IH]; intros s H; [exact H|].
  rewrite run_cons. apply IH. unfold cycle.
  destruct (reset i) eqn:Hr.
  - destruct (clock_running tl i (combinational_process i s) Hr) as (-> & _).
    now apply combinational_PC_even.
  - unfold clock_process. now rewrite Hr.
Qed.

Lemma PC_stays_even_witness :
  Z.odd (PC capturing_x1) = false
  /\ Z.odd (PC (run false [word_in 0x0FF0000F; word_in 0] capturing_x1))
     = false.
Proof.
  split; [reflexivity|]. now apply PC_stays_even.
Defined.

(** ** Instructions that retire in the execute cycle *)

(** What the fetch cycle and the execute cycle of the word captured from
    [i] leave behind, in terms of the decoded word [d] and of the signals
    [s'] of the execute evaluation. *)
Lemma two_cycles (tl : bool) (i i' : Inputs) (s : Core) :
  state s = WAIT_INSTR ->
  reset i = true -> mem_rbusy i = false -> reset i' = true ->
  let d := decode_word (registerFile s) (read_mem_rdata i) in
  let s1 := cycle tl i s in
  let s' := combinational_process i' s1 in
  let s2 := run tl [i; i'] s in
  (dec s' = d /\ state s1 = EXECUTE /\ cycles s1 = trunc 32 (cycles s + 1))
  /\ jumpToPCplusImm (ctl s1)
     = isJAL d || (isBranch d && predicate (combinational_process i s))
  /\ PC s2 = (if isJALR d then
                cat (range (aluPlus (alu s')) (ADDR_WIDTH - 1) 1) 1 0
              else if jumpToPCplusImm (ctl s1) then PCplusImm s'
              else trunc 32 (PC s + 4))
  /\ PCplusImm s' =
       trunc 32 (PC s + range (if isJAL d then Jimm (compute_immediates_of d)
                               else if isAUIPC d
                                    then Uimm (compute_immediates_of d)
                                    else Bimm (compute_immediates_of d))
                              (ADDR_WIDTH - 1) 0)
  /\ PCplus4 s' = trunc 32 (PC s + 4)
  /\ registerFile s2 =
       (if negb (isBranch d || isStore d) && negb (rdId d =? 0)
        then <[Z.to_nat (rdId d) := writeBackData (ctl s')]> (registerFile s)
        else registerFile s)
  /\ state s2 = (if isLoad d || isStore d
                    || (isALU d && funct3IsShift (alu s'))
                 then WAIT_ALU_OR_MEM else FETCH_INSTR).
Proof.
  intros Hs Hr Hb Hr' d s1 s' s2.
  destruct (fetch_cycle tl i s Hs Hr Hb) as (Hs1 & Hpc1 & Hcy1 & Hrf1 & Hd1 & _).
  fold s1 in Hs1, Hpc1, Hcy1, Hrf1, Hd1. fold d in Hd1.
  destruct (execute_cycle tl i' s1 Hs1 Hr') as (Hd' & Hpc2 & Hrf2 & Hs2 & _).
  fold s' in Hd', Hpc2, Hrf2, Hs2.
  assert (E2 : s2 = cycle tl i' s1) by reflexivity.
  rewrite <- E2 in Hpc2, Hrf2, Hs2.
  rewrite Hd1 in Hd', Hpc2, Hrf2, Hs2.
  assert (Hj : jumpToPCplusImm (ctl s1)
               = isJAL d || (isBranch d && predicate (combinational_process i s))).
  { unfold s1, cycle.
    destruct (clock_running tl i (combinational_process i s) Hr)
      as (_ & _ & _ & _ & ->).
    rewrite combinational_jump, combinational_dec, Hs, Hb. reflexivity. }
  split; [split; [exact Hd' | split; [exact Hs1 | exact Hcy1]]|].
  split; [exact Hj|].
  split; [rewrite Hpc2, Hpc1; reflexivity|].
  split.
  { unfold s'. rewrite combinational_PCplusImm. cbv zeta.
    rewrite combinational_imm. fold s'. rewrite Hd', Hpc1.
    reflexivity. }
  split; [unfold s'; rewrite combinational_PCplus4, Hpc1; reflexivity|].
  split; [rewrite Hrf2, Hrf1; reflexivity | exact Hs2].
Qed.

(** The ALU signals of the execute evaluation are computed from the
    decoded word and its immediates. *)
Lemma execute_alu (tl : bool) (i i' : Inputs) (s : Core) :
  state s = WAIT_INSTR ->
  reset i = true -> mem_rbusy i = false ->
  let d := decode_word (registerFile s) (read_mem_rdata i) in
  let s1 := cycle tl i s in
  exists X, alu (combinational_process i' s1) = compute_alu_of X
            /\ dec X = d /\ imm X = compute_immediates_of d
            /\ aluReg X = aluReg s1.
Proof.
  intros Hs Hr Hb d s1.
  destruct (fetch_cycle tl i s Hs Hr Hb) as (Hs1 & _ & _ & _ & Hd1 & _).
  fold s1 in Hs1, Hd1. fold d in Hd1.
  exists (compute_immediates (decode_instruction i' s1)).
  destruct (after_immediates_frame i' s1) as (Ed & Ei & Er & _).
  assert (Hd' : dec (combinational_process i' s1) = d).
  { rewrite combinational_dec, Hs1. exact Hd1. }
  split; [apply combinational_alu|].
  split; [rewrite Ed; exact Hd'|].
  split; [rewrite Ei, Hd'; reflexivity | exact Er].
Qed.

Lemma instr_bits (rf : list Z) (w : Z) :
  bit (instr (decode_word rf w)) 28 = bit w 30
  /\ bit (instr (decode_word rf w)) 3 = Z.testbit (range w 6 2) 3.
Proof.
  cbn [decode_word instr]. unfold bit. split.
  - rewrite testbit_range by lia. now rewrite andb_true_r.
  - rewrite !testbit_range by lia. reflexivity.
Qed.

(** [aluOut] for the operations that do not use the shifter. *)
Lemma aluOut_value (X : Core) :
  word32 (rs1 (dec X)) ->
  word32 (if isALUreg (dec X) || isBranch (dec X)
          then rs2 (dec X) else Iimm (imm X)) ->
  funct3 (dec X) <> ALU_SLL -> funct3 (dec X) <> ALU_SRL_SRA ->
  aluOut (compute_alu_of X)
  = alu_result (funct3 (dec X))
      (bit (instr (dec X)) 28 && bit (instr (dec X)) 3)
      (rs1 (dec X))
      (if isALUreg (dec X) || isBranch (dec X)
       then rs2 (dec X) else Iimm (imm X)).
Proof.
  intros Ha Hb H1 H5. unfold compute_alu_of. cbv zeta. cbn [aluOut].
  set (a := rs1 (dec X)) in *.
  set (b := if isALUreg (dec X) || isBranch (dec X)
            then rs2 (dec X) else Iimm (imm X)) in *.
  rewrite subtract33 by assumption.
  destruct (subtract33_compare a b Ha Hb) as (E1 & E2 & _ & E4).
  unfold bit in *. rewrite E4, E1, E2. unfold alu_result, trunc.
  replace (funct3 (dec X) =? ALU_SLL) with false
    by (symmetry; now apply Z.eqb_neq).
  replace (funct3 (dec X) =? ALU_SRL_SRA) with false
    by (symmetry; now apply Z.eqb_neq).
  cbn [orb].
  repeat match goal with
    | |- (if ?c then _ else _) = (if ?c then _ else _) => destruct c
    end; reflexivity.
Qed.

Lemma word32_read (i : Inputs) : word32 (read_mem_rdata i).
Proof. apply word32_trunc. Qed.

(** X8: An ALU instruction other than a shift ([I[6:2]] = 00100 or 01100,
    [funct3] not 1 or 5) retires in its execute cycle: [rd] receives the
    result of the operation on [rs1] and on [rs2] or the sign-extended
    immediate, no other register changes, and [PC] advances by 4.  The
    subtraction is selected by [I[30]] only in the register form, so an
    [addi] whose immediate has bit 10 set still adds. *)
Theorem alu_instruction (tl : bool) (i i' : Inputs) (s : Core) :
  state s = WAIT_INSTR ->
  reset i = true -> mem_rbusy i = false -> reset i' = true ->
  Forall word32 (registerFile s) ->
  let w := read_mem_rdata i in
  let c := range w 6 2 in
  let f := range w 14 12 in
  let rd := range w 11 7 in
  c = 0x04 \/ c = 0x0C -> f <> ALU_SLL -> f <> ALU_SRL_SRA ->
  let a := reg (registerFile s) (range w 19 15) in
  let b := if c =? 0x0C then reg (registerFile s) (range w 24 20)
           else sign_extend (range w 31 20) 12 in
  let s2 := run tl [i; i'] s in
  registerFile s2 =
    (if rd =? 0 then registerFile s
     else <[Z.to_nat rd := alu_result f ((c =? 0x0C) && bit w 30) a b]>
            (registerFile s))
  /\ PC s2 = trunc 32 (PC s + 4)
  /\ state s2 = FETCH_INSTR.
Proof.
  intros Hs Hr Hb Hr' Hrf w c f rd Hc Hf1 Hf5 a b s2.
  destruct (two_cycles tl i i' s Hs Hr Hb Hr')
    as ((Hd' & Hs1 & _) & Hj & Hpc & _ & _ & Hreg & Hst).
  destruct (execute_alu tl i i' s Hs Hr Hb) as (X & HX & HdX & HiX & _).
  pose proof (combinational_writeBackData i' (cycle tl i s)) as Hwb.
  cbv zeta in Hwb. rewrite Hd' in Hwb.
  fold s2 in Hpc, Hreg, Hst. fold w in Hpc, Hreg, Hst, Hj, Hwb, HdX, HiX.
  set (d := decode_word (registerFile s) w) in *.
  destruct (instr_bits (registerFile s) w) as (Hb30 & Hb5).
  fold d in Hb30, Hb5. fold c in Hb5.
  assert (Hval : aluOut (compute_alu_of X)
                 = alu_result f ((c =? 0x0C) && bit w 30) a b
                   /\ isALU d = true /\ isLoad d = false /\ isStore d = false
                   /\ isSYSTEM d = false /\ isJAL d = false
                   /\ isJALR d = false /\ isLUI d = false
                   /\ isAUIPC d = false /\ isBranch d = false
                   /\ funct3IsShift (compute_alu_of X) = false).
  { assert (Hshift : funct3IsShift (compute_alu_of X) = false).
    { unfold compute_alu_of. cbv zeta. cbn [funct3IsShift]. rewrite HdX.
      change (funct3 d) with f.
      apply orb_false_intro; apply Z.eqb_neq; assumption. }
    assert (Ha : word32 (rs1 (dec X)))
      by (rewrite HdX; apply word32_reg; exact Hrf).
    assert (Hout :
      forall b0, (if isALUreg d || isBranch d then rs2 d
                  else Iimm (compute_immediates_of d)) = b0 ->
                 word32 b0 ->
                 aluOut (compute_alu_of X)
                 = alu_result f (bit w 30 && Z.testbit c 3) a b0).
    { intros b0 Eb Hb0. rewrite aluOut_value.
      - rewrite HdX, HiX, Eb, Hb30, Hb5. reflexivity.
      - exact Ha.
      - rewrite HdX, HiX, Eb. exact Hb0.
      - rewrite HdX. exact Hf1.
      - rewrite HdX. exact Hf5. }
    destruct Hc as [Hc | Hc].
    - destruct (class_flags (registerFile s) w _ Hc)
        as (Hld & _ & Hsto & Hare & Hsy & Hjal & Hjalr & Hlui & Hau & Hbr
            & Halu).
      fold d in Hld, Hsto, Hare, Hsy, Hjal, Hjalr, Hlui, Hau, Hbr, Halu.
      eval_rhs Hld; eval_rhs Hsto; eval_rhs Hare; eval_rhs Hsy;
        eval_rhs Hjal; eval_rhs Hjalr; eval_rhs Hlui; eval_rhs Hau;
        eval_rhs Hbr; eval_rhs Halu.
      rewrite (Hout b).
      + unfold b. rewrite Hc. cbn [Z.eqb Pos.eqb andb].
        rewrite andb_false_r. repeat split; assumption.
      + rewrite Hare, Hbr. unfold b. rewrite Hc. cbn [orb].
        apply Iimm_value.
      + unfold b. rewrite Hc. cbn [Z.eqb Pos.eqb].
        rewrite <- (Iimm_value (registerFile s)). apply word32_Iimm.
    - destruct (class_flags (registerFile s) w _ Hc)
        as (Hld & _ & Hsto & Hare & Hsy & Hjal & Hjalr & Hlui & Hau & Hbr
            & Halu).
      fold d in Hld, Hsto, Hare, Hsy, Hjal, Hjalr, Hlui, Hau, Hbr, Halu.
      eval_rhs Hld; eval_rhs Hsto; eval_rhs Hare; eval_rhs Hsy;
        eval_rhs Hjal; eval_rhs Hjalr; eval_rhs Hlui; eval_rhs Hau;
        eval_rhs Hbr; eval_rhs Halu.
      rewrite (Hout b).
      + unfold b. rewrite Hc. cbn [Z.eqb Pos.eqb andb].
        rewrite andb_true_r. repeat split; assumption.
      + rewrite Hare. unfold b. rewrite Hc. reflexivity.
      + unfold b. rewrite Hc. cbn [Z.eqb Pos.eqb].
        apply word32_reg. exact Hrf. }
  destruct Hval as (Hout & Halu & Hld & Hsto & Hsy & Hjal & Hjalr & Hlui
                    & Hau & Hbr & Hshift).
  rewrite Hld, Hsy, Hjal, Hjalr, Hlui, Hau, Halu in Hwb.
  cbn [orb] in Hwb. cbv iota in Hwb.
  rewrite !Z.lor_0_l, !Z.lor_0_r, HX, Hout in Hwb.
  rewrite Hjal, Hbr in Hj. cbn [orb andb] in Hj.
  rewrite Hjalr, Hj in Hpc.
  rewrite Hld, Hsto, Halu, HX, Hshift in Hst. cbn [orb andb] in Hst.
  rewrite Hbr, Hsto, Hwb in Hreg. cbn [orb negb andb] in Hreg.
  change (rdId d) with rd in Hreg.
  split; [|split; [exact Hpc | exact Hst]].
  rewrite Hreg. destruct (rd =? 0); reflexivity.
Qed.

Lemma capturing_x1_words : Forall word32 (registerFile capturing_x1).
Proof.
  cbv [capturing_x1 placed registerFile]. cbn.
  repeat (constructor; [unfold word32; lia|]). constructor.
Qed.

Lemma alu_instruction_witness :
  (state capturing_x1 = WAIT_INSTR
   /\ Forall word32 (registerFile capturing_x1)
   /\ range (read_mem_rdata (word_in 0xFFF08113)) 6 2 = 0x04
   /\ range (read_mem_rdata (word_in 0xFFF08113)) 14 12 <> ALU_SLL
   /\ range (read_mem_rdata (word_in 0xFFF08113)) 14 12 <> ALU_SRL_SRA)
  /\ reg (registerFile
            (run false [word_in 0xFFF08113; word_in 0] capturing_x1)) 2 = 4
  /\ PC (run false [word_in 0xFFF08113; word_in 0] capturing_x1) = 12.
Proof.
  split.
  { split; [reflexivity|]. split; [exact capturing_x1_words|].
    split; [reflexivity|]. split; discriminate. }
  destruct (alu_instruction false (word_in 0xFFF08113) (word_in 0)
              capturing_x1 eq_refl eq_refl eq_refl eq_refl
              capturing_x1_words)
    as (Hreg & Hpc & _).
  - left. reflexivity.
  - discriminate.
  - discriminate.
  - split; [rewrite Hreg | rewrite Hpc]; reflexivity.
Defined.

(** The flags of a word whose [I[6:2]] is the constant of hypothesis
    [Hc], as equations on the decoded word [d]. *)
Ltac opcode_flags rf Hc d :=
  let Hld := fresh "Hld" in let Hsto := fresh "Hsto" in
  let Hare := fresh "Hare" in let Hsy := fresh "Hsy" in
  let Hjal := fresh "Hjal" in let Hjalr := fresh "Hjalr" in
  let Hlui := fresh "Hlui" in let Hau := fresh "Hau" in
  let Hbr := fresh "Hbr" in let Halu := fresh "Halu" in
  destruct (class_flags rf _ _ Hc)
    as (Hld & _ & Hsto & Hare & Hsy & Hjal & Hjalr & Hlui & Hau & Hbr & Halu);
  fold d in Hld, Hsto, Hare, Hsy, Hjal, Hjalr, Hlui, Hau, Hbr, Halu;
  eval_rhs Hld; eval_rhs Hsto; eval_rhs Hare; eval_rhs Hsy; eval_rhs Hjal;
  eval_rhs Hjalr; eval_rhs Hlui; eval_rhs Hau; eval_rhs Hbr; eval_rhs Halu.

Lemma range_small (x hi : Z) :
  0 <= hi -> 0 <= x < 2 ^ (hi + 1) -> range x hi 0 = x.
Proof.
  intros Hh Hx. rewrite range_mod by lia.
  rewrite Z.pow_0_r, Z.div_1_r. replace (hi - 0 + 1) with (hi + 1) by lia.
  now apply Z.mod_small.
Qed.

Lemma pow2_le (a b : Z) : 0 <= a <= b -> 2 ^ a <= 2 ^ b.
Proof. intros H. apply Z.pow_le_mono_r; lia. Qed.

Lemma range_immediate (x k : Z) :
  0 <= k <= 24 -> 0 <= x < 2 ^ k -> range x (ADDR_WIDTH - 1) 0 = x.
Proof.
  intros Hk Hx. change (ADDR_WIDTH - 1) with 23. apply range_small; [lia|].
  pose proof (pow2_le k 24 Hk). change (23 + 1) with 24. lia.
Qed.

(** A word with [I[3] = 1] sets [isJAL] and no other class flag. *)
Lemma jal_flags (rf : list Z) (w : Z) :
  bit w 3 = true ->
  let d := decode_word rf w in
  isJAL d = true /\ isLoad d = false /\ isStore d = false
  /\ isSYSTEM d = false /\ isJALR d = false /\ isLUI d = false
  /\ isAUIPC d = false /\ isBranch d = false /\ isALU d = false.
Proof.
  intros H3 d.
  destruct (class_flags rf w (range w 6 2) eq_refl)
    as (Hld & Hai & Hsto & Hare & Hsy & Hjal & Hjalr & Hlui & Hau & Hbr
        & Halu).
  fold d in Hld, Hai, Hsto, Hare, Hsy, Hjal, Hjalr, Hlui, Hau, Hbr, Halu.
  rewrite bit3_of_opcode in H3.
  assert (Hne : forall k, Z.testbit k 1 = false -> (range w 6 2 =? k) = false).
  { intros k Hk. apply Z.eqb_neq. intros E. rewrite E in H3. congruence. }
  rewrite Hld, Hsto, Hsy, Hjal, Hjalr, Hlui, Hau, Hbr, Halu.
  rewrite !Hne by reflexivity. repeat split. exact H3.
Qed.

(** X9: [jal] (decoded from [I[3]]) stores [PC + 4] in [rd] and adds the
    J-immediate of the word, as the core derives it, to [PC], in its
    execute cycle. *)
Theorem jal_instruction (tl : bool) (i i' : Inputs) (s : Core) :
  state s = WAIT_INSTR ->
  reset i = true -> mem_rbusy i = false -> reset i' = true ->
  let w := read_mem_rdata i in
  let rd := range w 11 7 in
  bit w 3 = true ->
  let s2 := run tl [i; i'] s in
  registerFile s2 =
    (if rd =? 0 then registerFile s
     else <[Z.to_nat rd := trunc 32 (PC s + 4)]> (registerFile s))
  /\ PC s2 = trunc 32 (PC s + Jimm (compute_immediates_of
                                     (decode_word (registerFile s) w)))
  /\ state s2 = FETCH_INSTR.
Proof.
  intros Hs Hr Hb Hr' w rd H3 s2.
  destruct (two_cycles tl i i' s Hs Hr Hb Hr')
    as ((Hd' & Hs1 & _) & Hj & Hpc & Hpi & Hp4 & Hreg & Hst).
  pose proof (combinational_writeBackData i' (cycle tl i s)) as Hwb.
  cbv zeta in Hwb. rewrite Hd' in Hwb.
  fold s2 in Hpc, Hreg, Hst. fold w in Hpc, Hpi, Hreg, Hst, Hj, Hwb.
  set (d := decode_word (registerFile s) w) in *.
  destruct (jal_flags (registerFile s) w H3)
    as (Hjal & Hld & Hsto & Hsy & Hjalr & Hlui & Hau & Hbr & Halu).
  fold d in Hjal, Hld, Hsto, Hsy, Hjalr, Hlui, Hau, Hbr, Halu.
  rewrite Hld, Hsy, Hjal, Hjalr, Hlui, Hau, Halu in Hwb.
  cbn [orb] in Hwb. cbv iota in Hwb.
  rewrite !Z.lor_0_l, !Z.lor_0_r, Hp4 in Hwb.
  rewrite Hjal in Hj. cbn [orb] in Hj.
  rewrite Hjalr, Hj, Hpi, Hjal in Hpc.
  destruct (immediates_zero_extended (registerFile s) w) as (_ & _ & HJ).
  fold d in HJ. rewrite (range_immediate _ 21) in Hpc by (try lia; exact HJ).
  rewrite Hld, Hsto, Halu in Hst. cbn [orb andb] in Hst.
  rewrite Hbr, Hsto, Hwb in Hreg. cbn [orb negb andb] in Hreg.
  change (rdId d) with rd in Hreg.
  split; [|split; [exact Hpc | exact Hst]].
  rewrite Hreg. destruct (rd =? 0); reflexivity.
Qed.

Lemma jal_instruction_witness :
  (state capturing_x1 = WAIT_INSTR
   /\ bit (read_mem_rdata (word_in 0x010000EF)) 3 = true)
  /\ reg (registerFile
            (run false [word_in 0x010000EF; word_in 0] capturing_x1)) 1 = 12
  /\ PC (run false [word_in 0x010000EF; word_in 0] capturing_x1) = 24.
Proof.
  split; [split; reflexivity|].
  destruct (jal_instruction false (word_in 0x010000EF) (word_in 0)
              capturing_x1 eq_refl eq_refl eq_refl eq_refl eq_refl)
    as (Hreg & Hpc & _).
  split; [rewrite Hreg | rewrite Hpc]; reflexivity.
Defined.

Lemma jalr_target (y : Z) :
  cat (range y (ADDR_WIDTH - 1) 1) 1 0 = y mod 2 ^ 24 - y mod 2.
Proof.
  change (ADDR_WIDTH - 1) with 23. unfold cat.
  rewrite Z.lor_0_r, Z.shiftl_mul_pow2, range_mod by lia.
  change (2 ^ 1) with 2. change (2 ^ (23 - 1 + 1)) with (2 ^ 23).
  change (2 ^ 24) with (2 * 2 ^ 23).
  rewrite (Z.rem_mul_r y 2 (2 ^ 23)) by lia. lia.
Qed.

(** X10: [jalr] stores [PC + 4] in [rd] and sets [PC] to [rs1] plus the
    sign-extended immediate, cut to the 24 address bits and with bit 0
    cleared. *)
Theorem jalr_instruction (tl : bool) (i i' : Inputs) (s : Core) :
  state s = WAIT_INSTR ->
  reset i = true -> mem_rbusy i = false -> reset i' = true ->
  let w := read_mem_rdata i in
  let rd := range w 11 7 in
  range w 6 2 = 0x19 ->
  let target := reg (registerFile s) (range w 19 15)
                + sign_extend (range w 31 20) 12 in
  let s2 := run tl [i; i'] s in
  registerFile s2 =
    (if rd =? 0 then registerFile s
     else <[Z.to_nat rd := trunc 32 (PC s + 4)]> (registerFile s))
  /\ PC s2 = target mod 2 ^ 24 - target mod 2
  /\ state s2 = FETCH_INSTR.
Proof.
  intros Hs Hr Hb Hr' w rd Hc target s2.
  destruct (two_cycles tl i i' s Hs Hr Hb Hr')
    as ((Hd' & Hs1 & _) & Hj & Hpc & _ & Hp4 & Hreg & Hst).
  destruct (execute_alu tl i i' s Hs Hr Hb) as (X & HX & HdX & HiX & _).
  pose proof (combinational_writeBackData i' (cycle tl i s)) as Hwb.
  cbv zeta in Hwb. rewrite Hd' in Hwb.
  fold s2 in Hpc, Hreg, Hst. fold w in Hpc, Hreg, Hst, Hj, Hwb, HdX, HiX, Hc.
  set (d := decode_word (registerFile s) w) in *.
  opcode_flags (registerFile s) Hc d.
  rewrite Hld, Hsy, Hjal, Hjalr, Hlui, Hau, Halu in Hwb.
  cbn [orb] in Hwb. cbv iota in Hwb.
  rewrite !Z.lor_0_l, !Z.lor_0_r, Hp4 in Hwb.
  assert (Hplus : aluPlus (compute_alu_of X) = trunc 32 target).
  { unfold compute_alu_of. cbv zeta. cbn [aluPlus].
    rewrite HdX, HiX, Hare, Hbr. cbn [orb]. unfold d at 2.
    rewrite Iimm_value. reflexivity. }
  rewrite Hjalr, HX, Hplus, jalr_target in Hpc.
  unfold trunc in Hpc.
  rewrite Z.mod_mod_divide in Hpc by (exists (2 ^ 8); reflexivity).
  rewrite (Z.mod_mod_divide target (2 ^ 32) 2) in Hpc
    by (exists (2 ^ 31); reflexivity).
  rewrite Hld, Hsto, Halu in Hst. cbn [orb andb] in Hst.
  rewrite Hbr, Hsto, Hwb in Hreg. cbn [orb negb andb] in Hreg.
  change (rdId d) with rd in Hreg.
  split; [|split; [exact Hpc | exact Hst]].
  rewrite Hreg. destruct (rd =? 0); reflexivity.
Qed.

Lemma jalr_instruction_witness :
  (state capturing_x1 = WAIT_INSTR
   /\ range (read_mem_rdata (word_in 0x00708167)) 6 2 = 0x19)
  /\ reg (registerFile
            (run false [word_in 0x00708167; word_in 0] capturing_x1)) 2 = 12
  /\ PC (run false [word_in 0x00708167; word_in 0] capturing_x1) = 12.
Proof.
  split; [split; reflexivity|].
  destruct (jalr_instruction false (word_in 0x00708167) (word_in 0)
              capturing_x1 eq_refl eq_refl eq_refl eq_refl eq_refl)
    as (Hreg & Hpc & _).
  split; [rewrite Hreg | rewrite Hpc]; reflexivity.
Defined.

Lemma opcode_of_class (w : Z) :
  range w 6 2 = Z.shiftr (Z.land w 0x7F) 2.
Proof.
  apply Z.bits_inj'. intros n Hn.
  rewrite testbit_range, Z.shiftr_spec, Z.land_spec by lia.
  change 0x7F with (Z.ones 7). rewrite Z.testbit_ones_nonneg by lia.
  f_equal. destruct (Z.ltb_spec n 5), (Z.ltb_spec (n + 2) 7);
    try reflexivity; lia.
Qed.

(** X11: [lui] stores [I[31:12]] followed by twelve zero bits in [rd], for
    every [lui] word, and advances [PC] by 4. *)
Theorem lui_instruction (tl : bool) (i i' : Inputs) (s : Core) :
  state s = WAIT_INSTR ->
  reset i = true -> mem_rbusy i = false -> reset i' = true ->
  let w := read_mem_rdata i in
  let rd := range w 11 7 in
  range w 6 2 = 0x0D ->
  let s2 := run tl [i; i'] s in
  registerFile s2 =
    (if rd =? 0 then registerFile s
     else <[Z.to_nat rd := Z.shiftl (Z.shiftr w 12) 12]> (registerFile s))
  /\ PC s2 = trunc 32 (PC s + 4)
  /\ state s2 = FETCH_INSTR.
Proof.
  intros Hs Hr Hb Hr' w rd Hc s2.
  destruct (two_cycles tl i i' s Hs Hr Hb Hr')
    as ((Hd' & Hs1 & _) & Hj & Hpc & _ & _ & Hreg & Hst).
  pose proof (combinational_writeBackData i' (cycle tl i s)) as Hwb.
  cbv zeta in Hwb. rewrite combinational_imm, Hd' in Hwb.
  fold s2 in Hpc, Hreg, Hst. fold w in Hpc, Hreg, Hst, Hj, Hwb, Hc.
  set (d := decode_word (registerFile s) w) in *.
  opcode_flags (registerFile s) Hc d.
  rewrite Hld, Hsy, Hjal, Hjalr, Hlui, Hau, Halu in Hwb.
  cbn [orb] in Hwb. cbv iota in Hwb. rewrite !Z.lor_0_l, !Z.lor_0_r in Hwb.
  assert (HU : Uimm (compute_immediates_of d) = Z.shiftl (Z.shiftr w 12) 12).
  { unfold d. rewrite Uimm_as_specified.
    - unfold spec_Uimm, cat. rewrite Z.lor_0_r. f_equal.
      unfold range. change (31 - 12 + 1) with 20.
      rewrite Z.land_ones, Z.shiftr_div_pow2 by lia.
      apply Z.mod_small. pose proof (word32_read i) as Hw. fold w in Hw.
      destruct Hw as [Hw0 Hw1]. split.
      + apply Z.div_pos; lia.
      + apply Z.div_lt_upper_bound; [lia|]. exact Hw1.
    - apply word32_read.
    - apply andb_false_intro1. apply Z.eqb_neq. intros E.
      rewrite opcode_of_class, E in Hc. discriminate. }
  rewrite HU in Hwb.
  rewrite Hjal, Hbr in Hj. cbn [orb andb] in Hj.
  rewrite Hjalr, Hj in Hpc.
  rewrite Hld, Hsto, Halu in Hst. cbn [orb andb] in Hst.
  rewrite Hbr, Hsto, Hwb in Hreg. cbn [orb negb andb] in Hreg.
  change (rdId d) with rd in Hreg.
  split; [|split; [exact Hpc | exact Hst]].
  rewrite Hreg. destruct (rd =? 0); reflexivity.
Qed.

Lemma lui_instruction_witness :
  (state capturing_x1 = WAIT_INSTR
   /\ range (read_mem_rdata (word_in 0x00002137)) 6 2 = 0x0D)
  /\ reg (registerFile
            (run false [word_in 0x00002137; word_in 0] capturing_x1)) 2
     = 0x2000.
Proof.
  split; [split; reflexivity|].
  destruct (lui_instruction false (word_in 0x00002137) (word_in 0)
              capturing_x1 eq_refl eq_refl eq_refl eq_refl eq_refl)
    as (Hreg & _).
  rewrite Hreg. reflexivity.
Defined.

(** X12: A branch writes no register; it adds the B-immediate of the word, as
    the core derives it, to [PC] when the comparison selected by [funct3]
    holds between [rs1] and [rs2], and 4 otherwise. *)
Theorem branch_instruction (tl : bool) (i i' : Inputs) (s : Core) :
  state s = WAIT_INSTR ->
  reset i = true -> mem_rbusy i = false -> reset i' = true ->
  Forall word32 (registerFile s) ->
  let w := read_mem_rdata i in
  range w 6 2 = 0x18 ->
  let a := reg (registerFile s) (range w 19 15) in
  let b := reg (registerFile s) (range w 24 20) in
  let s2 := run tl [i; i'] s in
  registerFile s2 = registerFile s
  /\ PC s2 =
       (if branch_taken (range w 14 12) a b
        then trunc 32 (PC s + Bimm (compute_immediates_of
                                     (decode_word (registerFile s) w)))
        else trunc 32 (PC s + 4))
  /\ state s2 = FETCH_INSTR.
Proof.
  intros Hs Hr Hb Hr' Hrf w Hc a b s2.
  destruct (two_cycles tl i i' s Hs Hr Hb Hr')
    as ((Hd' & Hs1 & _) & Hj & Hpc & Hpi & _ & Hreg & Hst).
  fold s2 in Hpc, Hreg, Hst. fold w in Hpc, Hpi, Hreg, Hst, Hj, Hc.
  set (d := decode_word (registerFile s) w) in *.
  opcode_flags (registerFile s) Hc d.
  assert (Hp : predicate (combinational_process i s)
               = branch_taken (range w 14 12) a b).
  { rewrite combinational_predicate.
    destruct (after_immediates_frame i s) as (Ed & _).
    assert (Hd0 : dec (combinational_process i s) = d)
      by (rewrite combinational_dec, Hs, Hb; reflexivity).
    rewrite Hd0 in Ed.
    rewrite branch_predicate_compares.
    - rewrite Ed. reflexivity.
    - rewrite Ed. exact Hbr.
    - rewrite Ed. apply word32_reg. exact Hrf.
    - rewrite Ed. apply word32_reg. exact Hrf. }
  rewrite Hjal, Hbr, Hp in Hj. cbn [orb andb] in Hj.
  rewrite Hjalr, Hj, Hpi, Hjal, Hau in Hpc.
  destruct (immediates_zero_extended (registerFile s) w) as (_ & HB & _).
  fold d in HB. rewrite (range_immediate _ 13) in Hpc by (try lia; exact HB).
  rewrite Hld, Hsto, Halu in Hst. cbn [orb andb] in Hst.
  rewrite Hbr in Hreg. cbn [orb negb andb] in Hreg.
  split; [exact Hreg | split; [exact Hpc | exact Hst]].
Qed.

Lemma branch_instruction_witness :
  (state capturing_x1 = WAIT_INSTR
   /\ Forall word32 (registerFile capturing_x1)
   /\ range (read_mem_rdata (word_in 0x0011C463)) 6 2 = 0x18)
  /\ PC (run false [word_in 0x0011C463; word_in 0] capturing_x1) = 16
  /\ PC (run false [word_in 0x0030C463; word_in 0] capturing_x1) = 12.
Proof.
  split.
  { split; [reflexivity|]. split; [exact capturing_x1_words | reflexivity]. }
  destruct (branch_instruction false (word_in 0x0011C463) (word_in 0)
              capturing_x1 eq_refl eq_refl eq_refl eq_refl
              capturing_x1_words eq_refl) as (_ & Hpc & _).
  destruct (branch_instruction false (word_in 0x0030C463) (word_in 0)
              capturing_x1 eq_refl eq_refl eq_refl eq_refl
              capturing_x1_words eq_refl) as (_ & Hpc' & _).
  split; [rewrite Hpc | rewrite Hpc']; reflexivity.
Defined.

(** ** The memory bus *)

Lemma assign_control_bus (S : Core) :
  mem_wmask (ctl (assign_control S))
  = (if State_eqb (state S) EXECUTE && isStore (dec S)
     then STORE_wmask (lsu S) else 0)
  /\ mem_wdata (ctl (assign_control S)) = rs2 (dec S)
  /\ mem_rstrb (ctl (assign_control S))
     = State_eqb (state S) FETCH_INSTR
       || (State_eqb (state S) EXECUTE && isLoad (dec S))
  /\ mem_addr (ctl (assign_control S))
     = (if State_eqb (state S) WAIT_INSTR || State_eqb (state S) FETCH_INSTR
           || (State_eqb (state S) EXECUTE && negb (isLoad (dec S))
               && negb (isStore (dec S)))
        then PC S else loadstore_addr (lsu S)).
Proof. repeat split. Qed.

Lemma evaluate_signals_frame (i : Inputs) (s : Core) :
  state (evaluate_signals i s) = state s
  /\ dec (evaluate_signals i s) = dec (combinational_process i s)
  /\ lsu (evaluate_signals i s) = lsu (combinational_process i s)
  /\ PC (evaluate_signals i s) = PC (combinational_process i s).
Proof. decode_cases; repeat split. Qed.

(** The bus outputs after a combinational evaluation. *)
Lemma combinational_bus (i : Inputs) (s : Core) :
  let s' := combinational_process i s in
  mem_wmask (ctl s')
  = (if State_eqb (state s) EXECUTE && isStore (dec s')
     then STORE_wmask (lsu s') else 0)
  /\ mem_wdata (ctl s') = rs2 (dec s')
  /\ mem_rstrb (ctl s')
     = State_eqb (state s) FETCH_INSTR
       || (State_eqb (state s) EXECUTE && isLoad (dec s'))
  /\ mem_addr (ctl s')
     = (if State_eqb (state s) WAIT_INSTR || State_eqb (state s) FETCH_INSTR
           || (State_eqb (state s) EXECUTE && negb (isLoad (dec s'))
               && negb (isStore (dec s')))
        then PC s' else loadstore_addr (lsu s')).
Proof.
  intros s'. unfold s'.
  destruct (evaluate_signals_frame i s) as (Es & Ed & El & Ep).
  rewrite <- Ed, <- El, <- Ep, <- Es.
  rewrite combinational_process_eq.
  apply assign_control_bus.
Qed.

Lemma STORE_wmask_values (i : Inputs) (S : Core) :
  0 < STORE_wmask (compute_memory_access_of i S) < 16.
Proof.
  unfold compute_memory_access_of. cbv zeta. cbn [STORE_wmask].
  repeat match goal with
    | |- _ < (if ?c then _ else _) < _ => destruct c
    end; lia.
Qed.

(** X13: The write mask on the bus is non-zero exactly in the execute
    evaluation of a store: no other state and no other instruction class
    drives a write, and a store always enables at least one byte lane. *)
Theorem write_mask_only_for_store (i : Inputs) (s : Core) :
  let s' := combinational_process i s in
  0 <= mem_wmask (ctl s') < 16
  /\ (mem_wmask (ctl s') =? 0)
     = negb (State_eqb (state s) EXECUTE && isStore (dec s')).
Proof.
  intros s'. destruct (combinational_bus i s) as (Hm & _).
  fold s' in Hm. rewrite Hm.
  pose proof (STORE_wmask_values i
                (compute_branch_predicate
                   (compute_alu (compute_immediates (decode_instruction i s)))))
    as Hv.
  rewrite <- combinational_lsu in Hv. fold s' in Hv.
  destruct (State_eqb (state s) EXECUTE && isStore (dec s')); cbn [negb].
  - split; [lia|]. apply Z.eqb_neq. lia.
  - split; [lia | reflexivity].
Qed.

(** ** The serial shifter *)

Lemma cat_add (hi w lo : Z) :
  0 <= w -> 0 <= lo < 2 ^ w -> cat hi w lo = hi * 2 ^ w + lo.
Proof.
  intros Hw Hlo. unfold cat. rewrite Z.shiftl_mul_pow2 by lia.
  assert (H : Z.land (hi * 2 ^ w) lo = 0).
  { apply Z.bits_inj'. intros n Hn. rewrite Z.land_spec, Z.bits_0.
    destruct (Z.ltb_spec n w).
    - now rewrite Z.mul_pow2_bits_low by lia.
    - rewrite (testbit_high lo w n) by lia. apply andb_false_r. }
  rewrite <- Z.lxor_lor by exact H. now rewrite Z.add_nocarry_lxor.
Qed.

Lemma signed32_shift (a k : Z) :
  word32 a -> 0 < k < 32 ->
  word32 ((signed32 a / 2 ^ k) mod 2 ^ 32)
  /\ signed32 ((signed32 a / 2 ^ k) mod 2 ^ 32) = signed32 a / 2 ^ k
  /\ (signed32 a / 2 ^ k) mod 2 ^ 32
     = (if 2 ^ 31 <=? a then 2 ^ 32 - 2 ^ (32 - k) else 0) + a / 2 ^ k.
Proof.
  intros Ha Hk. unfold word32 in *.
  assert (Hp : 0 < 2 ^ k) by (apply Z.pow_pos_nonneg; lia).
  assert (Hkk : 2 ^ 32 = 2 ^ (32 - k) * 2 ^ k)
    by (rewrite <- Z.pow_add_r by lia; f_equal; lia).
  assert (Hk1 : 2 ^ 31 = 2 ^ (31 - k) * 2 ^ k)
    by (rewrite <- Z.pow_add_r by lia; f_equal; lia).
  assert (Hk2 : 2 ^ (32 - k) = 2 * 2 ^ (31 - k)).
  { replace (32 - k) with (1 + (31 - k)) by lia.
    now rewrite Z.pow_add_r by lia. }
  assert (Hq : 0 < 2 ^ (31 - k)) by (apply Z.pow_pos_nonneg; lia).
  assert (Hq1 : 2 * 2 ^ (31 - k) <= 2 ^ 32).
  { rewrite <- Hk2. apply pow2_le. lia. }
  set (P := 2 ^ k) in *. set (Q := 2 ^ (31 - k)) in *.
  set (R := 2 ^ (32 - k)) in *.
  assert (Hs : signed32 a / P
               = (if 2 ^ 31 <=? a then - R else 0) + a / P).
  { unfold signed32.
    destruct (Z.ltb_spec a (2 ^ 31)); destruct (Z.leb_spec (2 ^ 31) a);
      try lia.
    replace (a - 2 ^ 32) with (a + (- R) * P) by lia.
    rewrite Z.div_add by lia. lia. }
  assert (Hlo : 0 <= a / P) by (apply Z.div_pos; lia).
  assert (Hhi : a / P < R).
  { apply Z.div_lt_upper_bound; lia. }
  assert (Hmid : 2 ^ 31 <= a -> Q <= a / P).
  { intros H. apply Z.div_le_lower_bound; lia. }
  assert (Hmid' : a < 2 ^ 31 -> a / P < Q).
  { intros H. apply Z.div_lt_upper_bound; lia. }
  assert (Hm : (signed32 a / P) mod 2 ^ 32
               = (if 2 ^ 31 <=? a then 2 ^ 32 - R else 0) + a / P).
  { rewrite Hs. destruct (Z.leb_spec (2 ^ 31) a).
    - symmetry. apply Z.mod_unique with (-1); lia.
    - apply Z.mod_small. lia. }
  assert (HQ31 : Q < 2 ^ 31).
  { unfold Q. apply Z.pow_lt_mono_r; lia. }
  split; [|split; [|exact Hm]].
  - apply Z.mod_pos_bound. lia.
  - rewrite Hm, Hs. unfold signed32 at 1.
    destruct (Z.leb_spec (2 ^ 31) a).
    + destruct (Z.ltb_spec (2 ^ 32 - R + a / P) (2 ^ 31)); lia.
    + destruct (Z.ltb_spec (0 + a / P) (2 ^ 31)); lia.
Qed.

Lemma shift_result_word (f : Z) (ar : bool) (a k : Z) :
  word32 a -> 0 < k < 32 -> word32 (shift_result f ar a k).
Proof.
  intros Ha Hk. unfold shift_result.
  destruct (f =? ALU_SLL); [apply Z.mod_pos_bound; lia|].
  destruct ((f =? ALU_SRL_SRA) && ar).
  - apply signed32_shift; assumption.
  - unfold word32 in *.
    assert (Hp : 0 < 2 ^ k) by (apply Z.pow_pos_nonneg; lia).
    split; [apply Z.div_pos; lia|].
    apply Z.div_lt_upper_bound; nia.
Qed.

(** Shifting by [k] and then by [n] is shifting by [k + n]. *)
Lemma shift_result_add (f : Z) (ar : bool) (a k n : Z) :
  word32 a -> 0 < k < 32 -> 0 <= n ->
  shift_result f ar (shift_result f ar a k) n = shift_result f ar a (k + n).
Proof.
  intros Ha Hk Hn. unfold shift_result.
  assert (Hp : 0 < 2 ^ k) by (apply Z.pow_pos_nonneg; lia).
  assert (Hq : 0 < 2 ^ n) by (apply Z.pow_pos_nonneg; lia).
  destruct (f =? ALU_SLL).
  - rewrite Z.mul_mod_idemp_l by lia.
    now rewrite Z.pow_add_r, Z.mul_assoc by lia.
  - destruct ((f =? ALU_SRL_SRA) && ar).
    + destruct (signed32_shift a k Ha Hk) as (_ & -> & _).
      now rewrite Z.pow_add_r, Z.div_div by lia.
    + now rewrite Z.pow_add_r, Z.div_div by lia.
Qed.

(** One step of the shifter, by 1, or by 4 in the two-level build when a
    logical shift has 4 or more positions left. *)
Lemma shift_step_value (tl : bool) (s : Core) :
  aluWr (ctl s) && funct3IsShift (alu s) = false ->
  0 < aluShamt s < 32 -> word32 (aluReg s) ->
  tl = false \/ (funct3 (dec s) =? ALU_SRL_SRA) && bit (instr (dec s)) 28 = false ->
  fst (shift_step tl s)
  = shift_result (funct3 (dec s)) (bit (instr (dec s)) 28) (aluReg s)
      (if tl && (4 <=? aluShamt s) then 4 else 1).
Proof.
  intros Hl Hn Ha Hlog. unfold shift_step. rewrite Hl.
  replace (aluShamt s =? 0) with false by (symmetry; apply Z.eqb_neq; lia).
  cbn [negb].
  rewrite (range_mod (aluShamt s) 4 2) by lia.
  change (2 ^ 2) with 4. change (2 ^ (4 - 2 + 1)) with 8.
  assert (H4 : ((aluShamt s / 4) mod 8 =? 0) = negb (4 <=? aluShamt s)).
  { rewrite Z.mod_small by (split; [apply Z.div_pos; lia
                                   | apply Z.div_lt_upper_bound; lia]).
    destruct (Z.leb_spec 4 (aluShamt s)) as [H | H]; cbn [negb].
    - apply Z.eqb_neq. intros E.
      assert (1 <= aluShamt s / 4) by (apply Z.div_le_lower_bound; lia). lia.
    - apply Z.eqb_eq. apply Z.div_small. lia. }
  rewrite H4, negb_involutive.
  set (k := if tl && (4 <=? aluShamt s) then 4 else 1).
  set (a := aluReg s) in *. set (f := funct3 (dec s)) in *.
  set (ar := bit (instr (dec s)) 28) in *.
  assert (Hstep :
    forall j, 0 < j < 32 ->
      (f =? ALU_SRL_SRA) && ar && bit a 31 = false \/ j = 1 ->
      (if f =? ALU_SLL then trunc 32 (Z.shiftl a j)
       else cat (of_bool ((f =? ALU_SRL_SRA) && ar && bit a 31)) (32 - j)
              (range a 31 j))
      = shift_result f ar a j).
  { intros j Hj Hsign. unfold shift_result.
    destruct (f =? ALU_SLL).
    { unfold trunc. now rewrite Z.shiftl_mul_pow2 by lia. }
    assert (Hp : 0 < 2 ^ j) by (apply Z.pow_pos_nonneg; lia).
    assert (Hr : range a 31 j = a / 2 ^ j).
    { rewrite range_mod by lia. apply Z.mod_small. unfold word32 in Ha.
      split; [apply Z.div_pos; lia|].
      apply Z.div_lt_upper_bound; [lia|].
      replace (2 ^ j * 2 ^ (31 - j + 1)) with (2 ^ 32); [lia|].
      rewrite <- Z.pow_add_r by lia. f_equal. lia. }
    assert (Hb : 0 <= a / 2 ^ j < 2 ^ (32 - j)).
    { unfold word32 in Ha. split; [apply Z.div_pos; lia|].
      apply Z.div_lt_upper_bound; [lia|].
      rewrite <- Z.pow_add_r by lia.
      replace (j + (32 - j)) with 32 by lia. lia. }
    rewrite Hr, cat_add by lia.
    destruct ((f =? ALU_SRL_SRA) && ar) eqn:Har; cbn [andb] in *.
    - destruct (signed32_shift a j Ha Hj) as (_ & _ & ->).
      unfold bit in *. rewrite (top_bit a 31) in * by (unfold word32 in Ha; lia).
      destruct (2 ^ 31 <=? a); cbn [of_bool Z.b2z].
      + destruct Hsign as [Hsign | ->]; [discriminate|].
        change (2 ^ (32 - 1)) with (2 ^ 31). lia.
      + lia.
    - cbn [of_bool Z.b2z]. lia. }
  destruct tl; cbn [andb] in *.
  - destruct Hlog as [Hlog | Hlog]; [discriminate|].
    fold f ar in Hlog.
    destruct (4 <=? aluShamt s); cbn [fst]; unfold k.
    + change 28 with (32 - 4). apply Hstep; [lia|]. left.
      rewrite Hlog. reflexivity.
    + change 31 with (32 - 1) at 2. apply Hstep; [lia|]. now right.
  - cbn [fst]. unfold k. change 31 with (32 - 1) at 2.
    apply Hstep; [lia|]. now right.
Qed.

Lemma shift_result_0 (f : Z) (ar : bool) (a : Z) :
  word32 a -> shift_result f ar a 0 = a.
Proof.
  intros Ha. unfold shift_result, word32 in *. change (2 ^ 0) with 1.
  rewrite Z.mul_1_r, !Z.div_1_r.
  destruct (f =? ALU_SLL); [apply Z.mod_small; lia|].
  destruct ((f =? ALU_SRL_SRA) && ar); [|reflexivity].
  unfold signed32. destruct (Z.ltb_spec a (2 ^ 31)).
  - apply Z.mod_small. lia.
  - symmetry. apply Z.mod_unique with (-1); lia.
Qed.

(** A write to [rd] leaves the other registers as they were. *)
Lemma write_off_rd (rf : list Z) (c : bool) (rd v : Z) :
  let rf' := if c && negb (rd =? 0) then <[Z.to_nat rd := v]> rf else rf in
  (forall x, <[Z.to_nat rd := x]> rf' = <[Z.to_nat rd := x]> rf)
  /\ (rd = 0 -> rf' = rf).
Proof.
  intros rf'. unfold rf'. destruct c; cbn [andb].
  - destruct (Z.eqb_spec rd 0) as [E | E]; cbn [negb].
    + split; reflexivity.
    + split; [intros x; apply list_insert_insert_eq | intros H; contradiction].
  - split; reflexivity.
Qed.

Lemma cycle_off_rd (tl : bool) (i : Inputs) (s : Core) :
  reset i = true ->
  let rd := rdId (dec (combinational_process i s)) in
  (forall x, <[Z.to_nat rd := x]> (registerFile (cycle tl i s))
             = <[Z.to_nat rd := x]> (registerFile s))
  /\ (rd = 0 -> registerFile (cycle tl i s) = registerFile s).
Proof.
  intros Hr rd. unfold cycle.
  destruct (clock_running tl i (combinational_process i s) Hr)
    as (_ & _ & -> & _).
  rewrite combinational_registerFile. apply write_off_rd.
Qed.

(** A cycle out of reset in [WAIT_ALU_OR_MEM] with the shifter busy. *)
Lemma shift_cycle (tl : bool) (i : Inputs) (s : Core) :
  state s = WAIT_ALU_OR_MEM -> reset i = true ->
  0 < aluShamt s < 32 -> word32 (aluReg s) ->
  tl = false
  \/ (funct3 (dec s) =? ALU_SRL_SRA) && bit (instr (dec s)) 28 = false ->
  let k := if tl && (4 <=? aluShamt s) then 4 else 1 in
  let s1 := cycle tl i s in
  aluReg s1
  = shift_result (funct3 (dec s)) (bit (instr (dec s)) 28) (aluReg s) k
  /\ aluShamt s1 = aluShamt s - k
  /\ state s1 = WAIT_ALU_OR_MEM
  /\ dec s1 = dec s
  /\ PC s1 = PC s
  /\ (forall x, <[Z.to_nat (rdId (dec s)) := x]> (registerFile s1)
                = <[Z.to_nat (rdId (dec s)) := x]> (registerFile s))
  /\ (rdId (dec s) = 0 -> registerFile s1 = registerFile s).
Proof.
  intros Hs Hr Hn Ha Hlog k s1.
  set (s' := combinational_process i s).
  assert (Hd : dec s' = dec s).
  { unfold s'. rewrite combinational_dec, Hs. reflexivity. }
  assert (Hl : aluWr (ctl s') && funct3IsShift (alu s') = false).
  { unfold s'. rewrite combinational_aluWr, Hs. reflexivity. }
  assert (Hn' : aluShamt s' = aluShamt s) by apply combinational_aluShamt.
  assert (Ha' : aluReg s' = aluReg s) by apply combinational_aluReg.
  assert (E1 : aluReg s1 = fst (shift_step tl s')).
  { unfold s1, cycle, clock_process. fold s'. now rewrite Hr. }
  assert (E2 : dec s1 = dec s').
  { unfold s1, cycle. fold s'. now apply clock_running. }
  split; [|split; [|split; [|split; [|split; [|split]]]]].
  - rewrite E1, shift_step_value.
    + rewrite Hd, Ha', Hn'. reflexivity.
    + exact Hl.
    + rewrite Hn'. exact Hn.
    + rewrite Ha'. exact Ha.
    + rewrite Hd. exact Hlog.
  - unfold s1. rewrite cycle_aluShamt by exact Hr. fold s'.
    rewrite shamt_counts_down, Hn'; [reflexivity | exact Hl|].
    rewrite Hn'. exact Hn.
  - unfold s1. rewrite cycle_state, Hs by exact Hr.
    replace (aluShamt s =? 0) with false
      by (symmetry; apply Z.eqb_neq; lia).
    reflexivity.
  - rewrite E2. exact Hd.
  - unfold s1, cycle.
    destruct (clock_running tl i (combinational_process i s) Hr) as (-> & _).
    apply combinational_PC_idle. rewrite Hs. reflexivity.
  - unfold s1. rewrite <- Hd. apply cycle_off_rd. exact Hr.
  - unfold s1. rewrite <- Hd. apply cycle_off_rd. exact Hr.
Qed.

Lemma shift_cycles_step (tl : bool) (n : Z) :
  0 < n ->
  shift_cycles tl n
  = 1 + shift_cycles tl (n - (if tl && (4 <=? n) then 4 else 1)).
Proof.
  intros Hn. unfold shift_cycles. destruct tl; cbn [andb]; [|lia].
  destruct (Z.leb_spec 4 n) as [H | H].
  - replace n with (n - 4 + 1 * 4) at 1 2 by lia.
    rewrite Z.div_add, Z.mod_add by lia. lia.
  - rewrite (Z.div_small n), (Z.mod_small n) by lia.
    rewrite Z.div_small, Z.mod_small by lia. lia.
Qed.

Lemma shift_cycles_0 (tl : bool) (n : Z) :
  0 <= n -> shift_cycles tl n = 0 -> n = 0.
Proof.
  intros Hn. unfold shift_cycles. destruct tl; [|lia].
  pose proof (Z.div_pos n 4 Hn ltac:(lia)).
  pose proof (Z.mod_pos_bound n 4 ltac:(lia)).
  pose proof (Z.div_mod n 4 ltac:(lia)). lia.
Qed.

(** The shifter left alone for the cycles a shift takes. *)
Lemma shift_run (tl : bool) (ins : list Inputs) :
  forall s : Core,
    state s = WAIT_ALU_OR_MEM -> Forall running ins ->
    word32 (aluReg s) -> 0 <= aluShamt s < 32 ->
    tl = false
    \/ (funct3 (dec s) =? ALU_SRL_SRA) && bit (instr (dec s)) 28 = false ->
    Z.of_nat (length ins) = shift_cycles tl (aluShamt s) ->
    aluReg (run tl ins s)
    = shift_result (funct3 (dec s)) (bit (instr (dec s)) 28) (aluReg s)
        (aluShamt s)
    /\ aluShamt (run tl ins s) = 0
    /\ state (run tl ins s) = WAIT_ALU_OR_MEM
    /\ dec (run tl ins s) = dec s
    /\ PC (run tl ins s) = PC s
    /\ (forall x, <[Z.to_nat (rdId (dec s)) := x]> (registerFile (run tl ins s))
                  = <[Z.to_nat (rdId (dec s)) := x]> (registerFile s))
    /\ (rdId (dec s) = 0 -> registerFile (run tl ins s) = registerFile s).
Proof.
  induction ins as [|i ins IH]; intros s Hs Hq Ha Hn Hlog Hlen.
  - cbn [length] in Hlen. symmetry in Hlen.
    apply shift_cycles_0 in Hlen; [|lia].
    cbn [run fold_left]. rewrite Hlen, shift_result_0 by exact Ha.
    repeat split; try assumption; reflexivity.
  - apply Forall_cons_iff in Hq as [Hi Hq].
    assert (Hpos : 0 < aluShamt s).
    { destruct (Z.eq_dec (aluShamt s) 0) as [E | E]; [|lia].
      rewrite E in Hlen. cbn [length] in Hlen.
      assert (H0 : shift_cycles tl 0 = 0) by (destruct tl; reflexivity).
      lia. }
    destruct (shift_cycle tl i s Hs Hi ltac:(lia) Ha Hlog)
      as (E1 & E2 & E3 & E4 & E5 & E6 & E7).
    set (k := if tl && (4 <=? aluShamt s) then 4 else 1) in *.
    assert (Hk : 0 < k <= aluShamt s /\ k < 32).
    { unfold k. destruct tl; cbn [andb]; [|lia].
      destruct (Z.leb_spec 4 (aluShamt s)); lia. }
    rewrite run_cons.
    destruct (IH (cycle tl i s)) as (F1 & F2 & F3 & F4 & F5 & F6 & F7).
    + exact E3.
    + exact Hq.
    + rewrite E1. apply shift_result_word; [exact Ha | lia].
    + rewrite E2. lia.
    + rewrite E4. exact Hlog.
    + rewrite E2. rewrite shift_cycles_step in Hlen by exact Hpos.
      fold k in Hlen. cbn [length] in Hlen. lia.
    + rewrite E4 in F1, F4, F6, F7.
      rewrite F1, F2, F3, F4, F5, E1, E2, E5.
      rewrite shift_result_add by (try exact Ha; lia).
      replace (k + (aluShamt s - k)) with (aluShamt s) by lia.
      split; [reflexivity|]. split; [reflexivity|].
      split; [reflexivity|]. split; [reflexivity|].
      split; [reflexivity|]. split.
      * intros x. rewrite F6. apply E6.
      * intros H0. rewrite F7 by exact H0. apply E7. exact H0.
Qed.

(** X14: With one position a cycle, the shifter left in [WAIT_ALU_OR_MEM] with
    [aluShamt = n] holds after [n] cycles out of reset the value of
    [aluReg] shifted by [n]: to the left for [funct3] 1, otherwise to the
    right, arithmetically when [funct3] is 5 and bit 30 of the instruction
    word is set.  The count is then 0 and the state unchanged. *)
Theorem shifter_computes (ins : list Inputs) (s : Core) :
  state s = WAIT_ALU_OR_MEM -> Forall running ins ->
  word32 (aluReg s) -> 0 <= aluShamt s < 32 ->
  Z.of_nat (length ins) = aluShamt s ->
  aluReg (run false ins s)
  = shift_result (funct3 (dec s)) (bit (instr (dec s)) 28) (aluReg s)
      (aluShamt s)
  /\ aluShamt (run false ins s) = 0
  /\ state (run false ins s) = WAIT_ALU_OR_MEM.
Proof.
  intros Hs Hq Ha Hn Hlen.
  destruct (shift_run false ins s Hs Hq Ha Hn (or_introl eq_refl) Hlen)
    as (E1 & E2 & E3 & _).
  repeat split; assumption.
Qed.

(** X15: In the two-level build a logical shift by [n] takes
    [n / 4 + n mod 4] cycles and gives the same value. *)
Theorem two_level_logical_shifts (ins : list Inputs) (s : Core) :
  state s = WAIT_ALU_OR_MEM -> Forall running ins ->
  word32 (aluReg s) -> 0 <= aluShamt s < 32 ->
  (funct3 (dec s) =? ALU_SRL_SRA) && bit (instr (dec s)) 28 = false ->
  Z.of_nat (length ins) = aluShamt s / 4 + aluShamt s mod 4 ->
  aluReg (run true ins s)
  = shift_result (funct3 (dec s)) false (aluReg s) (aluShamt s)
  /\ aluShamt (run true ins s) = 0
  /\ state (run true ins s) = WAIT_ALU_OR_MEM.
Proof.
  intros Hs Hq Ha Hn Hlog Hlen.
  destruct (shift_run true ins s Hs Hq Ha Hn (or_intror Hlog) Hlen)
    as (E1 & E2 & E3 & _).
  split; [|split; assumption].
  rewrite E1. unfold shift_result.
  destruct (funct3 (dec s) =? ALU_SLL); [reflexivity|].
  rewrite andb_false_r.
  destruct (funct3 (dec s) =? ALU_SRL_SRA); cbn [andb] in *;
    [rewrite Hlog|]; reflexivity.
Qed.

Lemma shift_step_by_4_arithmetic (s : Core) :
  aluWr (ctl s) && funct3IsShift (alu s) = false ->
  4 <= aluShamt s < 32 -> 2 ^ 31 <= aluReg s < 2 ^ 32 ->
  funct3 (dec s) = ALU_SRL_SRA -> bit (instr (dec s)) 28 = true ->
  fst (shift_step true s) = 2 ^ 28 + aluReg s / 2 ^ 4
  /\ shift_result ALU_SRL_SRA true (aluReg s) 4
     = 15 * 2 ^ 28 + aluReg s / 2 ^ 4.
Proof.
  intros Hl Hn Ha Hf Har. split.
  - unfold shift_step. rewrite Hl, Hf, Har.
    replace (aluShamt s =? 0) with false
      by (symmetry; apply Z.eqb_neq; lia).
    rewrite (range_mod (aluShamt s) 4 2) by lia.
    change (2 ^ 2) with 4. change (2 ^ (4 - 2 + 1)) with 8.
    replace ((aluShamt s / 4) mod 8 =? 0) with false.
    2:{ symmetry. apply Z.eqb_neq.
        rewrite Z.mod_small
          by (split; [apply Z.div_pos; lia
                     | apply Z.div_lt_upper_bound; lia]).
        assert (1 <= aluShamt s / 4) by (apply Z.div_le_lower_bound; lia).
        lia. }
    cbn [negb andb fst]. change (ALU_SRL_SRA =? ALU_SLL) with false.
    change (ALU_SRL_SRA =? ALU_SRL_SRA) with true. cbn [andb].
    unfold bit. rewrite (top_bit (aluReg s) 31) by lia.
    replace (2 ^ 31 <=? aluReg s) with true
      by (symmetry; apply Z.leb_le; lia).
    cbv iota. cbn [of_bool Z.b2z].
    assert (Hb : 0 <= aluReg s / 2 ^ 4 < 2 ^ 28).
    { split; [apply Z.div_pos; lia|]. apply Z.div_lt_upper_bound; lia. }
    rewrite range_mod by lia. change (31 - 4 + 1) with 28.
    rewrite Z.mod_small by exact Hb.
    rewrite cat_add by lia. lia.
  - destruct (signed32_shift (aluReg s) 4) as (_ & _ & E);
      [unfold word32; lia | lia|].
    unfold shift_result. change (ALU_SRL_SRA =? ALU_SLL) with false.
    change (ALU_SRL_SRA =? ALU_SRL_SRA) with true. cbn [andb]. cbv iota.
    rewrite E.
    replace (2 ^ 31 <=? aluReg s) with true
      by (symmetry; apply Z.leb_le; lia).
    change (2 ^ 32 - 2 ^ (32 - 4)) with (15 * 2 ^ 28). reflexivity.
Qed.

(** X16: In the two-level build a cycle that shifts by 4 a value with bit 31
    set, for an arithmetic shift, brings in one set bit above the 28 kept
    ones and leaves bits 31 to 29 clear, where the shift by 4 has them
    set. *)
Theorem two_level_arithmetic_step (i : Inputs) (s : Core) :
  state s = WAIT_ALU_OR_MEM -> reset i = true ->
  4 <= aluShamt s < 32 -> 2 ^ 31 <= aluReg s < 2 ^ 32 ->
  funct3 (dec s) = ALU_SRL_SRA -> bit (instr (dec s)) 28 = true ->
  aluReg (cycle true i s) = 2 ^ 28 + aluReg s / 2 ^ 4
  /\ shift_result ALU_SRL_SRA true (aluReg s) 4
     = 15 * 2 ^ 28 + aluReg s / 2 ^ 4.
Proof.
  intros Hs Hr Hn Ha Hf Har.
  set (s' := combinational_process i s).
  assert (Hd : dec s' = dec s).
  { unfold s'. rewrite combinational_dec, Hs. reflexivity. }
  assert (Hl : aluWr (ctl s') && funct3IsShift (alu s') = false).
  { unfold s'. rewrite combinational_aluWr, Hs. reflexivity. }
  assert (Hn' : aluShamt s' = aluShamt s) by apply combinational_aluShamt.
  assert (Ha' : aluReg s' = aluReg s) by apply combinational_aluReg.
  assert (E1 : aluReg (cycle true i s) = fst (shift_step true s')).
  { unfold cycle, clock_process. fold s'. now rewrite Hr. }
  rewrite E1, <- Ha'.
  apply shift_step_by_4_arithmetic.
  - exact Hl.
  - rewrite Hn'. exact Hn.
  - rewrite Ha'. exact Ha.
  - rewrite Hd. exact Hf.
  - rewrite Hd. exact Har.
Qed.

Lemma shifter_computes_witness :
  (state (run false [word_in 0x00309113; word_in 0] capturing_x1)
   = WAIT_ALU_OR_MEM
   /\ aluShamt (run false [word_in 0x00309113; word_in 0] capturing_x1) = 3)
  /\ aluReg (run false [word_in 0; word_in 0; word_in 0]
               (run false [word_in 0x00309113; word_in 0] capturing_x1)) = 40.
Proof.
  split; [split; reflexivity|].
  set (s := run false [word_in 0x00309113; word_in 0] capturing_x1).
  destruct (shifter_computes [word_in 0; word_in 0; word_in 0] s)
    as (H & _).
  - reflexivity.
  - repeat constructor.
  - change (aluReg s) with 5. unfold word32. lia.
  - change (aluShamt s) with 3. lia.
  - reflexivity.
  - rewrite H. reflexivity.
Defined.

Lemma two_level_logical_shifts_witness :
  (state (run true [word_in 0x00D0D113; word_in 0] negative_x1)
   = WAIT_ALU_OR_MEM
   /\ aluShamt (run true [word_in 0x00D0D113; word_in 0] negative_x1) = 13)
  /\ aluReg (run true [word_in 0; word_in 0; word_in 0; word_in 0]
               (run true [word_in 0x00D0D113; word_in 0] negative_x1))
     = 0x40000.
Proof.
  split; [split; reflexivity|].
  set (s := run true [word_in 0x00D0D113; word_in 0] negative_x1).
  destruct (two_level_logical_shifts
              [word_in 0; word_in 0; word_in 0; word_in 0] s)
    as (H & _).
  - reflexivity.
  - repeat constructor.
  - change (aluReg s) with 0x80000000. unfold word32. lia.
  - change (aluShamt s) with 13. lia.
  - reflexivity.
  - reflexivity.
  - rewrite H. reflexivity.
Defined.

Lemma two_level_arithmetic_step_witness :
  (state (run true [word_in 0x4040D113; word_in 0] negative_x1)
   = WAIT_ALU_OR_MEM
   /\ aluShamt (run true [word_in 0x4040D113; word_in 0] negative_x1) = 4
   /\ aluReg (run true [word_in 0x4040D113; word_in 0] negative_x1)
      = 0x80000000)
  /\ aluReg (cycle true (word_in 0)
               (run true [word_in 0x4040D113; word_in 0] negative_x1))
     = 0x18000000
  /\ shift_result ALU_SRL_SRA true 0x80000000 4 = 0xF8000000.
Proof.
  split; [repeat split; reflexivity|].
  set (s := run true [word_in 0x4040D113; word_in 0] negative_x1).
  destruct (two_level_arithmetic_step (word_in 0) s) as (H1 & H2).
  - reflexivity.
  - reflexivity.
  - change (aluShamt s) with 4. lia.
  - change (aluReg s) with 0x80000000. lia.
  - reflexivity.
  - reflexivity.
  - change (aluReg s) with 0x80000000 in H1, H2.
    split; [|rewrite H2; reflexivity].
    rewrite H1. reflexivity.
Defined.

(** ** Shift instructions *)

Lemma alu_flags (rf : list Z) (w : Z) :
  range w 6 2 = 0x04 \/ range w 6 2 = 0x0C ->
  let d := decode_word rf w in
  isALU d = true /\ isLoad d = false /\ isStore d = false
  /\ isSYSTEM d = false /\ isJAL d = false /\ isJALR d = false
  /\ isLUI d = false /\ isAUIPC d = false /\ isBranch d = false
  /\ isALUreg d = (range w 6 2 =? 0x0C).
Proof.
  intros Hc d.
  destruct (class_flags rf w (range w 6 2) eq_refl)
    as (Hld & _ & Hsto & Hare & Hsy & Hjal & Hjalr & Hlui & Hau & Hbr & Halu).
  fold d in Hld, Hsto, Hare, Hsy, Hjal, Hjalr, Hlui, Hau, Hbr, Halu.
  rewrite Hld, Hsto, Hare, Hsy, Hjal, Hjalr, Hlui, Hau, Hbr, Halu.
  destruct Hc as [E | E]; rewrite E; repeat split.
Qed.

(** The low five bits of the I-immediate are [I[24:20]]. *)
Lemma Iimm_low_bits (rf : list Z) (w : Z) :
  range (Iimm (compute_immediates_of (decode_word rf w))) 4 0
  = range w 24 20.
Proof.
  cbn [compute_immediates_of decode_word Iimm full_instr].
  apply Z.bits_inj'. intros n Hn.
  rewrite !testbit_range by lia. rewrite Z.lor_spec, testbit_range by lia.
  change (4 - 0 + 1) with 5. change (24 - 20 + 1) with 5.
  change (31 - 20 + 1) with 12. rewrite Z.add_0_r.
  destruct (Z.ltb_spec n 5) as [H | H]; [|now rewrite !andb_false_r].
  replace (n <? 12) with true by (symmetry; apply Z.ltb_lt; lia).
  rewrite !andb_true_r.
  destruct (bit w 31); [|now rewrite Z.bits_0].
  change 0xFFFFF000 with (Z.shiftl (Z.ones 20) 12).
  now rewrite Z.shiftl_spec_low by lia.
Qed.

Lemma run_app (tl : bool) (l1 l2 : list Inputs) (s : Core) :
  run tl (l1 ++ l2) s = run tl l2 (run tl l1 s).
Proof. unfold run. apply fold_left_app. Qed.

(** The fetch and execute cycles of a shift: the shifter is loaded with
    the operand and the count. *)
Lemma shift_latch (tl : bool) (i i' : Inputs) (s : Core) :
  state s = WAIT_INSTR ->
  reset i = true -> mem_rbusy i = false -> reset i' = true ->
  let w := read_mem_rdata i in
  let d := decode_word (registerFile s) w in
  range w 6 2 = 0x04 \/ range w 6 2 = 0x0C ->
  range w 14 12 = ALU_SLL \/ range w 14 12 = ALU_SRL_SRA ->
  let s2 := run tl [i; i'] s in
  state s2 = WAIT_ALU_OR_MEM /\ dec s2 = d /\ PC s2 = trunc 32 (PC s + 4)
  /\ aluReg s2 = reg (registerFile s) (range w 19 15)
  /\ aluShamt s2 =
       (if range w 6 2 =? 0x0C
        then range (reg (registerFile s) (range w 24 20)) 4 0
        else range w 24 20)
  /\ (forall x, <[Z.to_nat (rdId d) := x]> (registerFile s2)
                = <[Z.to_nat (rdId d) := x]> (registerFile s))
  /\ (rdId d = 0 -> registerFile s2 = registerFile s).
Proof.
  intros Hs Hr Hb Hr' w d Hc Hf s2.
  destruct (two_cycles tl i i' s Hs Hr Hb Hr')
    as ((Hd' & Hs1 & _) & Hj & Hpc & _ & _ & Hreg & Hst).
  destruct (execute_alu tl i i' s Hs Hr Hb) as (X & HX & HdX & HiX & _).
  fold s2 in Hpc, Hreg, Hst. fold w in Hpc, Hreg, Hst, Hj, HdX, HiX, Hd'.
  fold d in Hpc, Hreg, Hst, Hj, HdX, HiX, Hd'.
  destruct (alu_flags (registerFile s) w Hc)
    as (Halu & Hld & Hsto & Hsy & Hjal & Hjalr & Hlui & Hau & Hbr & Hare).
  fold d in Halu, Hld, Hsto, Hsy, Hjal, Hjalr, Hlui, Hau, Hbr, Hare.
  set (s1 := cycle tl i s) in *.
  set (s' := combinational_process i' s1) in *.
  assert (Hsh : funct3IsShift (alu s') = true).
  { rewrite HX. unfold compute_alu_of. cbv zeta. cbn [funct3IsShift].
    rewrite HdX. change (funct3 d) with (range w 14 12).
    destruct Hf as [-> | ->]; reflexivity. }
  assert (Hwr : aluWr (ctl s') = true).
  { unfold s'. rewrite combinational_aluWr. fold s'.
    rewrite Hs1, Hd', Halu. reflexivity. }
  assert (E2 : s2 = clock_process tl i' s') by reflexivity.
  assert (Hstep : shift_step tl s'
                  = (aluIn1 (alu s'), range (aluIn2 (alu s')) 4 0)).
  { unfold shift_step. rewrite Hwr, Hsh. reflexivity. }
  assert (H1 : aluIn1 (alu s') = reg (registerFile s) (range w 19 15)).
  { rewrite HX. unfold compute_alu_of. cbv zeta. cbn [aluIn1].
    rewrite HdX. reflexivity. }
  assert (H2 : aluIn2 (alu s')
               = if range w 6 2 =? 0x0C
                 then reg (registerFile s) (range w 24 20)
                 else Iimm (compute_immediates_of d)).
  { rewrite HX. unfold compute_alu_of. cbv zeta. cbn [aluIn2].
    rewrite HdX, HiX, Hare, Hbr, orb_false_r. reflexivity. }
  split.
  { rewrite Hst, Hld, Hsto, Halu, Hsh. reflexivity. }
  split.
  { rewrite E2. destruct (clock_running tl i' s' Hr') as (_ & _ & _ & -> & _).
    exact Hd'. }
  split.
  { rewrite Hj, Hjal, Hbr in Hpc. cbn [orb andb] in Hpc.
    rewrite Hjalr in Hpc. exact Hpc. }
  split.
  { rewrite E2. unfold clock_process. rewrite Hr'. cbn [negb aluReg].
    rewrite Hstep. cbn [fst]. exact H1. }
  split.
  { rewrite E2. unfold clock_process. rewrite Hr'. cbn [negb aluShamt].
    rewrite Hstep. cbn [snd]. rewrite H2.
    destruct (range w 6 2 =? 0x0C); [reflexivity|].
    apply Iimm_low_bits. }
  rewrite Hreg. apply write_off_rd.
Qed.

(** The last cycle of a shift: the shifter is idle, the result is copied
    to [rd]. *)
Lemma shift_retire (tl : bool) (i : Inputs) (s : Core) (rf : list Z) (w : Z) :
  state s = WAIT_ALU_OR_MEM -> quiet i -> aluShamt s = 0 ->
  dec s = decode_word rf w ->
  range w 6 2 = 0x04 \/ range w 6 2 = 0x0C ->
  range w 14 12 = ALU_SLL \/ range w 14 12 = ALU_SRL_SRA ->
  registerFile (cycle tl i s)
  = (if range w 11 7 =? 0 then registerFile s
     else <[Z.to_nat (range w 11 7) := aluReg s]> (registerFile s))
  /\ PC (cycle tl i s) = PC s
  /\ state (cycle tl i s) = FETCH_INSTR.
Proof.
  intros Hs Hq Hn Hd Hc Hf.
  destruct (alu_flags rf w Hc)
    as (Halu & Hld & Hsto & Hsy & Hjal & Hjalr & Hlui & Hau & Hbr & Hare).
  rewrite <- Hd in Halu, Hld, Hsto, Hsy, Hjal, Hjalr, Hlui, Hau, Hbr, Hare.
  set (s' := combinational_process i s).
  assert (Hd' : dec s' = dec s).
  { unfold s'. rewrite combinational_dec, Hs. reflexivity. }
  assert (Hwb : writeBack (ctl s') = true).
  { unfold s'. rewrite combinational_writeBack. fold s'.
    rewrite Hd', Hbr, Hsto, Hs. reflexivity. }
  assert (Hout : aluOut (alu s') = aluReg s).
  { unfold s'. rewrite combinational_alu.
    destruct (after_immediates_frame i s) as (Ed & _ & Er & _).
    fold s' in Ed. unfold compute_alu_of. cbv zeta. cbn [aluOut].
    rewrite Ed, Hd', Hd, Er. change (funct3 (decode_word rf w))
      with (range w 14 12).
    destruct Hf as [-> | ->]; reflexivity. }
  assert (Hdata : writeBackData (ctl s') = aluReg s).
  { pose proof (combinational_writeBackData i s) as H. cbv zeta in H.
    fold s' in H. rewrite Hd' in H.
    rewrite Hld, Hsy, Hjal, Hjalr, Hlui, Hau, Halu in H.
    cbn [orb] in H. cbv iota in H.
    rewrite !Z.lor_0_l, !Z.lor_0_r, Hout in H. exact H. }
  destruct Hq as (Hr & Hrb & Hwbusy).
  split; [|split].
  - unfold cycle. fold s'.
    destruct (clock_running tl i s' Hr) as (_ & _ & -> & _).
    assert (Hrf : registerFile s' = registerFile s)
      by apply combinational_registerFile.
    rewrite Hrf, Hwb, Hdata, Hd', Hd. cbn [andb].
    change (rdId (decode_word rf w)) with (range w 11 7).
    destruct (range w 11 7 =? 0); reflexivity.
  - unfold cycle. fold s'.
    destruct (clock_running tl i s' Hr) as (-> & _).
    apply combinational_PC_idle. rewrite Hs. reflexivity.
  - rewrite cycle_state by exact Hr.
    rewrite Hs, Hn, Hrb, Hwbusy. reflexivity.
Qed.

(** X17: A shift instruction ([I[6:2]] = 00100 or 01100, [funct3] 1 or 5) takes
    its fetch and execute cycles, the cycles of the shifter and a last
    cycle in which the memory is not busy.  Then [rd] holds [rs1] shifted
    by [I[24:20]], or by the low five bits of [rs2] in the register form,
    no other register has changed, [PC] has advanced by 4 and the core
    fetches.  In the two-level build this is for the logical shifts. *)
Theorem shift_instruction (tl : bool) (i i' : Inputs) (ins : list Inputs)
    (i'' : Inputs) (s : Core) :
  state s = WAIT_INSTR ->
  reset i = true -> mem_rbusy i = false -> reset i' = true ->
  Forall running ins -> quiet i'' ->
  Forall word32 (registerFile s) ->
  let w := read_mem_rdata i in
  let c := range w 6 2 in
  let f := range w 14 12 in
  let rd := range w 11 7 in
  c = 0x04 \/ c = 0x0C -> f = ALU_SLL \/ f = ALU_SRL_SRA ->
  tl = false \/ (f =? ALU_SRL_SRA) && bit w 30 = false ->
  let a := reg (registerFile s) (range w 19 15) in
  let n := if c =? 0x0C then range (reg (registerFile s) (range w 24 20)) 4 0
           else range w 24 20 in
  Z.of_nat (length ins) = shift_cycles tl n ->
  let s3 := run tl (i :: i' :: ins ++ [i'']) s in
  registerFile s3 =
    (if rd =? 0 then registerFile s
     else <[Z.to_nat rd := shift_result f (bit w 30) a n]> (registerFile s))
  /\ PC s3 = trunc 32 (PC s + 4)
  /\ state s3 = FETCH_INSTR.
Proof.
  intros Hs Hr Hb Hr' Hins Hq Hrf w c f rd Hc Hf Hlog a n Hlen s3.
  destruct (shift_latch tl i i' s Hs Hr Hb Hr' Hc Hf)
    as (L1 & L2 & L3 & L4 & L5 & L6 & L7).
  fold w c in L2, L4, L5, L6, L7. fold a in L4. fold n in L5.
  set (d := decode_word (registerFile s) w) in *.
  change (rdId d) with rd in L6, L7.
  set (s2 := run tl [i; i'] s) in *.
  destruct (instr_bits (registerFile s) w) as (Hb30 & _). fold d in Hb30.
  assert (Hn : 0 <= n < 32).
  { unfold n. destruct (c =? 0x0C).
    - apply (range_bounds _ 4 0); lia.
    - apply (range_bounds _ 24 20); lia. }
  destruct (shift_run tl ins s2) as (R1 & R2 & R3 & R4 & R5 & R6 & R7).
  - exact L1.
  - exact Hins.
  - rewrite L4. apply word32_reg. exact Hrf.
  - rewrite L5. exact Hn.
  - rewrite L2, Hb30. exact Hlog.
  - rewrite L5. exact Hlen.
  - rewrite L2, L4, L5, Hb30 in R1. change (funct3 d) with f in R1.
    rewrite L2 in R4, R6, R7. change (rdId d) with rd in R6, R7.
    set (s2' := run tl ins s2) in *.
    destruct (shift_retire tl i'' s2' (registerFile s) w R3 Hq R2 R4 Hc Hf)
      as (F1 & F2 & F3).
    fold rd in F1.
    assert (E : s3 = cycle tl i'' s2').
    { unfold s3, s2', s2.
      change (i :: i' :: ins ++ [i'']) with ([i; i'] ++ ins ++ [i'']).
      now rewrite !run_app. }
    rewrite E, F1, F2, F3, R5, L3, R1.
    split; [|split; reflexivity].
    destruct (Z.eqb_spec rd 0) as [E0 | E0].
    + rewrite R7, L7 by exact E0. reflexivity.
    + rewrite R6, L6. reflexivity.
Qed.

Lemma shift_instruction_witness :
  (state capturing_x1 = WAIT_INSTR
   /\ Forall word32 (registerFile capturing_x1)
   /\ range (read_mem_rdata (word_in 0x00309113)) 6 2 = 0x04
   /\ range (read_mem_rdata (word_in 0x00309113)) 14 12 = ALU_SLL
   /\ Z.of_nat (length [word_in 0; word_in 0; word_in 0])
      = shift_cycles false 3)
  /\ reg (registerFile
            (run false (word_in 0x00309113 :: word_in 0
                        :: [word_in 0; word_in 0; word_in 0] ++ [word_in 0])
               capturing_x1)) 2 = 40
  /\ PC (run false (word_in 0x00309113 :: word_in 0
                    :: [word_in 0; word_in 0; word_in 0] ++ [word_in 0])
           capturing_x1) = 12.
Proof.
  split.
  { split; [reflexivity|]. split; [exact capturing_x1_words|].
    repeat split; reflexivity. }
  destruct (shift_instruction false (word_in 0x00309113) (word_in 0)
              [word_in 0; word_in 0; word_in 0] (word_in 0) capturing_x1)
    as (Hreg & Hpc & _).
  - reflexivity.
  - reflexivity.
  - reflexivity.
  - reflexivity.
  - repeat constructor.
  - repeat split.
  - exact capturing_x1_words.
  - left. reflexivity.
  - left. reflexivity.
  - left. reflexivity.
  - reflexivity.
  - split; [rewrite Hreg | rewrite Hpc]; reflexivity.
Defined.

(** ** The store, branch and jump immediates, bit by bit *)

Ltac imm_bits :=
  unfold bit;
  repeat first
    [ rewrite testbit_cat by lia
    | rewrite Z.testbit_neg_r by lia
    | rewrite testbit_range by lia
    | rewrite testbit_of_bool
    | rewrite Z.bits_0 ];
  order_bits;
  rewrite ?andb_false_r, ?andb_true_r, ?orb_false_r, ?orb_false_l;
  try reflexivity; try (f_equal; lia).

(** X18: Whatever the word, the S-, B- and J-immediates hold the payload bits
    of the word at their places, bit 0 of the B- and J-immediates is 0,
    and every bit above the payload is 0. *)
Theorem immediate_bits (rf : list Z) (w n : Z) :
  0 <= n ->
  let m := compute_immediates_of (decode_word rf w) in
  Z.testbit (Simm m) n
  = (if n <? 5 then Z.testbit w (n + 7)
     else if n <? 12 then Z.testbit w (n + 20) else false)
  /\ Z.testbit (Bimm m) n
     = (if n =? 0 then false
        else if n <? 5 then Z.testbit w (n + 7)
        else if n <? 11 then Z.testbit w (n + 20)
        else if n =? 11 then Z.testbit w 7
        else if n =? 12 then Z.testbit w 31 else false)
  /\ Z.testbit (Jimm m) n
     = (if n =? 0 then false
        else if n <? 11 then Z.testbit w (n + 20)
        else if n =? 11 then Z.testbit w 20
        else if n <? 20 then Z.testbit w n
        else if n =? 20 then Z.testbit w 31 else false).
Proof.
  intros Hn m. unfold m.
  cbn [compute_immediates_of decode_word Simm Bimm Jimm instr].
  split; [|split].
  - destruct (Z.ltb_spec n 5); [imm_bits|].
    destruct (Z.ltb_spec n 11);
      [replace (n <? 12) with true by (symmetry; apply Z.ltb_lt; lia);
       imm_bits|].
    destruct (Z.ltb_spec n 12); imm_bits.
  - destruct (Z.eqb_spec n 0); [imm_bits|].
    destruct (Z.ltb_spec n 5); [imm_bits|].
    destruct (Z.ltb_spec n 11); [imm_bits|].
    destruct (Z.eqb_spec n 11); [imm_bits|].
    destruct (Z.eqb_spec n 12); imm_bits.
  - destruct (Z.eqb_spec n 0); [imm_bits|].
    destruct (Z.ltb_spec n 11); [imm_bits|].
    destruct (Z.eqb_spec n 11); [imm_bits|].
    destruct (Z.ltb_spec n 20); [imm_bits|].
    destruct (Z.eqb_spec n 20); imm_bits.
Qed.

Lemma immediate_bits_witness :
  0 <= 11
  /\ Z.testbit (Simm (immediates_of_word 0xFE002E23)) 11 = true
  /\ Z.testbit (Bimm (immediates_of_word 0xFE000EE3)) 11 = true
  /\ Z.testbit (Jimm (immediates_of_word 0xFFDFF06F)) 11 = true.
Proof.
  split; [lia|]. unfold immediates_of_word.
  destruct (immediate_bits (repeat 0 32) 0xFE002E23 11) as (H1 & _); [lia|].
  destruct (immediate_bits (repeat 0 32) 0xFE000EE3 11) as (_ & H2 & _);
    [lia|].
  destruct (immediate_bits (repeat 0 32) 0xFFDFF06F 11) as (_ & _ & H3);
    [lia|].
  rewrite H1, H2, H3. repeat split.
Defined.

(** ** The memory bus over a run *)

Lemma decode_word_load_or_store (rf : list Z) (w : Z) :
  isLoad (decode_word rf w) && isStore (decode_word rf w) = false.
Proof.
  cbn [decode_word isLoad isStore].
  destruct (Z.eqb_spec (range w 6 2) 0) as [E | E]; [|reflexivity].
  rewrite E. reflexivity.
Qed.

Lemma cycle_dec (tl : bool) (i : Inputs) (s : Core) :
  dec (cycle tl i s) = dec (combinational_process i s).
Proof.
  unfold cycle. generalize (combinational_process i s). intros S.
  unfold clock_process. destruct (reset i); reflexivity.
Qed.

Lemma run_load_or_store (tl : bool) (ins : list Inputs) :
  forall s : Core,
    isLoad (dec s) && isStore (dec s) = false ->
    isLoad (dec (run tl ins s)) && isStore (dec (run tl ins s)) = false.
Proof.
  induction ins as [|i ins IH]; intros s H; [exact H|].
  rewrite run_cons. apply IH. rewrite cycle_dec, combinational_dec.
  destruct (State_eqb (state s) WAIT_INSTR && negb (mem_rbusy i));
    [apply decode_word_load_or_store | exact H].
Qed.

(** X19: However the core is clocked from its constructed state and whatever
    the inputs of the evaluation, it never raises the read strobe together
    with a write mask. *)
Theorem bus_reads_or_writes (tl : bool) (ins : list Inputs) (i : Inputs) :
  let s' := combinational_process i (run tl ins initial_core) in
  mem_rstrb (ctl s') && negb (mem_wmask (ctl s') =? 0) = false.
Proof.
  intros s'. set (s := run tl ins initial_core) in *.
  destruct (combinational_bus i s) as (Hm & _ & Hs & _).
  fold s' in Hm, Hs. rewrite Hm, Hs.
  assert (H : isLoad (dec s') && isStore (dec s') = false).
  { unfold s'. rewrite combinational_dec.
    destruct (State_eqb (state s) WAIT_INSTR && negb (mem_rbusy i)).
    - apply decode_word_load_or_store.
    - unfold s. apply run_load_or_store. reflexivity. }
  destruct (state s); cbn [State_eqb orb andb negb]; try reflexivity.
  destruct (isLoad (dec s')); cbn [andb] in *; [|reflexivity].
  rewrite H. reflexivity.
Qed.

(** ** Loads and stores *)

Lemma lsu_frame (i : Inputs) (s : Core) :
  let Y := compute_branch_predicate
             (compute_alu (compute_immediates (decode_instruction i s))) in
  lsu (combinational_process i s) = compute_memory_access_of i Y
  /\ dec Y = dec (combinational_process i s)
  /\ imm Y = compute_immediates_of (dec (combinational_process i s)).
Proof. decode_cases; repeat split. Qed.

Lemma loadstore_addr_value (i : Inputs) (Y : Core) :
  loadstore_addr (compute_memory_access_of i Y)
  = range (rs1 (dec Y)) 23 0
    + (if isStore (dec Y) then range (Simm (imm Y)) 23 0
       else range (Iimm (imm Y)) 23 0).
Proof.
  unfold compute_memory_access_of. cbv zeta. cbn [loadstore_addr].
  change (ADDR_WIDTH - 1) with 23. unfold trunc. apply Z.mod_small.
  pose proof (range_bounds (rs1 (dec Y)) 23 0 ltac:(lia) ltac:(lia)) as H1.
  change (2 ^ (23 - 0 + 1)) with (2 ^ 24) in H1.
  destruct (isStore (dec Y)).
  - pose proof (range_bounds (Simm (imm Y)) 23 0 ltac:(lia) ltac:(lia)) as H2.
    change (2 ^ (23 - 0 + 1)) with (2 ^ 24) in H2. lia.
  - pose proof (range_bounds (Iimm (imm Y)) 23 0 ltac:(lia) ltac:(lia)) as H2.
    change (2 ^ (23 - 0 + 1)) with (2 ^ 24) in H2. lia.
Qed.

Lemma testbit_1 (x : Z) : Z.testbit x 1 = Z.odd (x / 2).
Proof.
  rewrite Z.testbit_odd, Z.shiftr_div_pow2 by lia. reflexivity.
Qed.

Lemma LOAD_data_value (i : Inputs) (Y : Core) (rf : list Z) (w : Z) :
  dec Y = decode_word rf w ->
  LOAD_data (compute_memory_access_of i Y)
  = load_value w (loadstore_addr (compute_memory_access_of i Y))
      (read_mem_rdata i).
Proof.
  intros Hd.
  assert (Hsz : range (instr (dec Y)) 13 12 = range w 15 14)
    by (rewrite Hd; apply instr_13_12).
  assert (H14 : bit (instr (dec Y)) 12 = Z.odd (range w 15 14)).
  { rewrite Hd. cbn [decode_word instr]. unfold bit.
    rewrite <- Z.bit0_odd, !testbit_range by lia. reflexivity. }
  unfold compute_memory_access_of at 1. cbv zeta. cbn [LOAD_data].
  fold (loadstore_addr (compute_memory_access_of i Y)).
  set (addr := loadstore_addr (compute_memory_access_of i Y)).
  change (trunc 32
            (range (rs1 (dec Y)) (ADDR_WIDTH - 1) 0 +
             (if isStore (dec Y) then range (Simm (imm Y)) (ADDR_WIDTH - 1) 0
              else range (Iimm (imm Y)) (ADDR_WIDTH - 1) 0))) with addr.
  rewrite Hsz, H14. unfold load_value, bit.
  pose proof (word32_read i) as HW. set (W := read_mem_rdata i) in *.
  unfold word32 in HW.
  rewrite testbit_1, Z.bit0_odd.
  assert (Hhi : range W 31 16 = W / 2 ^ 16).
  { rewrite range_mod by lia. apply Z.mod_small.
    split; [apply Z.div_pos; lia | apply Z.div_lt_upper_bound; lia]. }
  assert (Hlo : range W 15 0 = W mod 2 ^ 16).
  { rewrite range_mod by lia. now rewrite Z.pow_0_r, Z.div_1_r. }
  rewrite Hhi, Hlo.
  set (half := if Z.odd (addr / 2) then W / 2 ^ 16 else W mod 2 ^ 16).
  assert (Hhalf : 0 <= half < 2 ^ 16).
  { unfold half. destruct (Z.odd (addr / 2)).
    - split; [apply Z.div_pos; lia | apply Z.div_lt_upper_bound; lia].
    - apply Z.mod_pos_bound. lia. }
  assert (Hbhi : range half 15 8 = half / 2 ^ 8).
  { rewrite range_mod by lia. apply Z.mod_small.
    split; [apply Z.div_pos; lia | apply Z.div_lt_upper_bound; lia]. }
  assert (Hblo : range half 7 0 = half mod 2 ^ 8).
  { rewrite range_mod by lia. now rewrite Z.pow_0_r, Z.div_1_r. }
  rewrite Hbhi, Hblo.
  set (byte := if Z.odd addr then half / 2 ^ 8 else half mod 2 ^ 8).
  assert (Hbyte : 0 <= byte < 2 ^ 8).
  { unfold byte. destruct (Z.odd addr).
    - split; [apply Z.div_pos; lia | apply Z.div_lt_upper_bound; lia].
    - apply Z.mod_pos_bound. lia. }
  destruct (Z.eqb_spec (range w 15 14) 0) as [E0 | E0].
  - rewrite E0. cbn [Z.odd negb andb].
    rewrite cat_add by lia.
    rewrite (top_bit byte 7) by lia.
    destruct (Z.leb_spec (2 ^ 7) byte) as [H | H]; cbn [of_bool Z.b2z].
    + replace (byte / 2 ^ 7) with 1; [lia|].
      apply Z.div_unique with (byte - 2 ^ 7); lia.
    + rewrite (Z.div_small byte) by lia. lia.
  - destruct (Z.eqb_spec (range w 15 14) 1) as [E1 | E1]; [|reflexivity].
    rewrite E1. cbn [Z.odd negb andb of_bool Z.b2z].
    rewrite cat_add by lia. lia.
Qed.

(** A cycle out of reset in [WAIT_ALU_OR_MEM] with the shifter idle. *)
Lemma wait_cycle (tl : bool) (i : Inputs) (s : Core) :
  state s = WAIT_ALU_OR_MEM -> reset i = true -> aluShamt s = 0 ->
  let s' := combinational_process i s in
  let s1 := cycle tl i s in
  aluShamt s1 = 0 /\ dec s1 = dec s /\ dec s' = dec s /\ PC s1 = PC s
  /\ state s1 = (if mem_rbusy i || mem_wbusy i then WAIT_ALU_OR_MEM
                 else FETCH_INSTR)
  /\ registerFile s1 =
       (if negb (isBranch (dec s) || isStore (dec s))
           && negb (rdId (dec s) =? 0)
        then <[Z.to_nat (rdId (dec s)) := writeBackData (ctl s')]>
               (registerFile s)
        else registerFile s).
Proof.
  intros Hs Hr Hn s' s1.
  assert (Hd : dec s' = dec s).
  { unfold s'. rewrite combinational_dec, Hs. reflexivity. }
  assert (Hl : aluWr (ctl s') && funct3IsShift (alu s') = false).
  { unfold s'. rewrite combinational_aluWr, Hs. reflexivity. }
  assert (Hn' : aluShamt s' = 0)
    by (unfold s'; rewrite combinational_aluShamt; exact Hn).
  assert (Hwb : writeBack (ctl s')
                = negb (isBranch (dec s) || isStore (dec s))).
  { unfold s'. rewrite combinational_writeBack. fold s'.
    rewrite Hd, Hs. cbn [State_eqb orb]. apply andb_true_r. }
  assert (Hrf : registerFile s' = registerFile s)
    by apply combinational_registerFile.
  assert (Es : s1 = clock_process tl i s') by reflexivity.
  destruct (clock_running tl i s' Hr) as (E1 & _ & E3 & E4 & _).
  rewrite <- Es in E1, E3, E4.
  split.
  { unfold s1. rewrite cycle_aluShamt by exact Hr. fold s'.
    unfold shift_step. rewrite Hl, Hn'. reflexivity. }
  split; [rewrite E4; exact Hd|].
  split; [exact Hd|].
  split.
  { rewrite E1. apply combinational_PC_idle. rewrite Hs. reflexivity. }
  split.
  { unfold s1. rewrite cycle_state by exact Hr. rewrite Hs, Hn.
    cbn [spec_next_state Z.eqb negb andb].
    destruct (mem_rbusy i), (mem_wbusy i); reflexivity. }
  rewrite E3, Hwb, Hd, Hrf. reflexivity.
Qed.

(** The core waits, its registers off [rd] untouched, while the memory is
    busy. *)
Lemma wait_run (tl : bool) (ins : list Inputs) :
  forall s : Core,
    state s = WAIT_ALU_OR_MEM -> aluShamt s = 0 -> Forall stalled ins ->
    state (run tl ins s) = WAIT_ALU_OR_MEM
    /\ aluShamt (run tl ins s) = 0
    /\ dec (run tl ins s) = dec s
    /\ PC (run tl ins s) = PC s
    /\ (forall x, <[Z.to_nat (rdId (dec s)) := x]> (registerFile (run tl ins s))
                  = <[Z.to_nat (rdId (dec s)) := x]> (registerFile s))
    /\ (rdId (dec s) = 0 -> registerFile (run tl ins s) = registerFile s)
    /\ (isBranch (dec s) || isStore (dec s) = true ->
        registerFile (run tl ins s) = registerFile s).
Proof.
  induction ins as [|i ins IH]; intros s Hs Hn Hq.
  - cbn [run fold_left]. repeat split; try assumption; reflexivity.
  - apply Forall_cons_iff in Hq as [(Hr & Hbusy) Hq]. rewrite run_cons.
    destruct (wait_cycle tl i s Hs Hr Hn) as (W1 & W2 & _ & W4 & W5 & W6).
    rewrite Hbusy in W5.
    destruct (IH (cycle tl i s) W5 W1 Hq)
      as (F1 & F2 & F3 & F4 & F5 & F6 & F7).
    rewrite W2 in F3, F5, F6, F7.
    destruct (write_off_rd (registerFile s)
                (negb (isBranch (dec s) || isStore (dec s)))
                (rdId (dec s))
                (writeBackData (ctl (combinational_process i s))))
      as (O1 & O2).
    cbv zeta in O1, O2. rewrite <- W6 in O1, O2.
    split; [exact F1|]. split; [exact F2|]. split; [exact F3|].
    split; [rewrite F4; exact W4|].
    split; [intros x; rewrite F5; apply O1|].
    split; [intros H0; rewrite F6 by exact H0; apply O2; exact H0|].
    intros Hst. rewrite F7 by exact Hst. rewrite W6, Hst. reflexivity.
Qed.

Lemma idle_shifter (tl : bool) (i : Inputs) (s : Core) :
  reset i = true -> aluShamt s = 0 ->
  aluWr (ctl (combinational_process i s))
  && funct3IsShift (alu (combinational_process i s)) = false ->
  aluShamt (cycle tl i s) = 0.
Proof.
  intros Hr Hn Hl. rewrite cycle_aluShamt by exact Hr.
  unfold shift_step. rewrite Hl, combinational_aluShamt, Hn. reflexivity.
Qed.

(** The fetch and execute cycles of a load or a store, and the bus in the
    execute evaluation. *)
Lemma memory_execute (tl : bool) (i i' : Inputs) (s : Core) :
  state s = WAIT_INSTR -> aluShamt s = 0 ->
  reset i = true -> mem_rbusy i = false -> reset i' = true ->
  let w := read_mem_rdata i in
  let d := decode_word (registerFile s) w in
  range w 6 2 = 0x00 \/ range w 6 2 = 0x08 ->
  let e := combinational_process i' (cycle tl i s) in
  let s2 := run tl [i; i'] s in
  (state s2 = WAIT_ALU_OR_MEM /\ aluShamt s2 = 0 /\ dec s2 = d
   /\ PC s2 = trunc 32 (PC s + 4))
  /\ ((forall x, <[Z.to_nat (rdId d) := x]> (registerFile s2)
                 = <[Z.to_nat (rdId d) := x]> (registerFile s))
      /\ (rdId d = 0 -> registerFile s2 = registerFile s)
      /\ (isStore d = true -> registerFile s2 = registerFile s))
  /\ mem_wmask (ctl e) = (if isStore d then STORE_wmask (lsu e) else 0)
  /\ mem_wdata (ctl e) = reg (registerFile s) (range w 24 20)
  /\ mem_rstrb (ctl e) = isLoad d
  /\ mem_addr (ctl e)
     = range (reg (registerFile s) (range w 19 15)) 23 0
       + (if isStore d then Simm (compute_immediates_of d)
          else range (Iimm (compute_immediates_of d)) 23 0).
Proof.
  intros Hs Hn Hr Hb Hr' w d Hc e s2.
  destruct (two_cycles tl i i' s Hs Hr Hb Hr')
    as ((Hd' & Hs1 & _) & Hj & Hpc & _ & _ & Hreg & Hst).
  fold s2 in Hpc, Hreg, Hst. fold w in Hpc, Hreg, Hst, Hj, Hd'.
  fold d in Hpc, Hreg, Hst, Hj, Hd'.
  set (s1 := cycle tl i s) in *. fold e in Hd', Hpc, Hreg, Hst.
  destruct (class_flags (registerFile s) w (range w 6 2) eq_refl)
    as (Hld & _ & Hsto & _ & _ & Hjal & Hjalr & _ & _ & Hbr & Halu).
  fold d in Hld, Hsto, Hjal, Hjalr, Hbr, Halu.
  assert (Hfl : isLoad d || isStore d = true /\ isJAL d = false
                /\ isJALR d = false /\ isBranch d = false
                /\ isALU d = false).
  { rewrite Hld, Hsto, Hjal, Hjalr, Hbr, Halu.
    destruct Hc as [E | E]; rewrite E; repeat split. }
  destruct Hfl as (Hmem & Hjal' & Hjalr' & Hbr' & Halu').
  assert (Hn1 : aluShamt s1 = 0).
  { unfold s1. apply idle_shifter; [exact Hr | exact Hn|].
    rewrite combinational_aluWr, Hs. reflexivity. }
  assert (E2 : s2 = cycle tl i' s1) by reflexivity.
  destruct (combinational_bus i' s1) as (B1 & B2 & B3 & B4).
  fold e in B1, B2, B3, B4. rewrite Hs1, Hd' in B1, B3, B4.
  rewrite Hd' in B2. cbn [State_eqb orb andb] in B1, B3, B4.
  destruct (lsu_frame i' s1) as (Y1 & Y2 & Y3). fold e in Y1, Y2, Y3.
  rewrite Hd' in Y2, Y3.
  split.
  { split; [rewrite Hst, Hmem; reflexivity|].
    split.
    { rewrite E2. apply idle_shifter; [exact Hr' | exact Hn1|].
      rewrite combinational_aluWr. fold e. rewrite Hd', Halu'.
      now rewrite andb_false_r. }
    split.
    { rewrite E2, cycle_dec. exact Hd'. }
    rewrite Hj, Hjal', Hbr' in Hpc. cbn [orb andb] in Hpc.
    rewrite Hjalr' in Hpc. exact Hpc. }
  split.
  { destruct (write_off_rd (registerFile s)
                (negb (isBranch d || isStore d)) (rdId d)
                (writeBackData (ctl e))) as (O1 & O2).
    cbv zeta in O1, O2. rewrite <- Hreg in O1, O2.
    split; [exact O1|]. split; [exact O2|].
    intros Hst'. rewrite Hreg, Hst', orb_true_r. reflexivity. }
  split; [exact B1|]. split; [exact B2|]. split; [exact B3|].
  rewrite B4.
  replace (negb (isLoad d) && negb (isStore d)) with false
    by (destruct (isLoad d), (isStore d); try reflexivity; discriminate).
  rewrite Y1, loadstore_addr_value, Y2, Y3.
  change (rs1 d) with (reg (registerFile s) (range w 19 15)).
  destruct (isStore d); [|reflexivity].
  destruct (immediates_zero_extended (registerFile s) w) as (HS & _).
  fold d in HS.
  rewrite (range_small (Simm (compute_immediates_of d)) 23) by lia.
  reflexivity.
Qed.

(** X20: A store drives the bus in its execute evaluation: a write mask that
    is not zero, the value of [rs2] as it is, and the address
    [rs1[23:0] + Simm].  It then waits while the memory is busy and
    returns to fetch, with [PC] advanced by 4 and no register changed. *)
Theorem store_instruction (tl : bool) (i i' : Inputs) (ins : list Inputs)
    (i'' : Inputs) (s : Core) :
  state s = WAIT_INSTR -> aluShamt s = 0 ->
  reset i = true -> mem_rbusy i = false -> reset i' = true ->
  Forall stalled ins -> quiet i'' ->
  let w := read_mem_rdata i in
  range w 6 2 = 0x08 ->
  let d := decode_word (registerFile s) w in
  let e := combinational_process i' (cycle tl i s) in
  let s3 := run tl (i :: i' :: ins ++ [i'']) s in
  (0 < mem_wmask (ctl e) < 16
   /\ mem_wdata (ctl e) = reg (registerFile s) (range w 24 20)
   /\ mem_addr (ctl e)
      = range (reg (registerFile s) (range w 19 15)) 23 0
        + Simm (compute_immediates_of d)
   /\ mem_rstrb (ctl e) = false)
  /\ registerFile s3 = registerFile s
  /\ PC s3 = trunc 32 (PC s + 4)
  /\ state s3 = FETCH_INSTR.
Proof.
  intros Hs Hn Hr Hb Hr' Hins Hq w Hc d e s3.
  destruct (memory_execute tl i i' s Hs Hn Hr Hb Hr' (or_intror Hc))
    as ((M1 & M2 & M3 & M4) & (_ & _ & M7) & B1 & B2 & B3 & B4).
  fold w in M3, M7, B1, B2, B3, B4. fold d in M3, M7, B1, B3, B4.
  fold e in B1, B2, B3, B4.
  opcode_flags (registerFile s) Hc d.
  set (s2 := run tl [i; i'] s) in *.
  rewrite Hsto in B1, B4. rewrite Hld in B3.
  destruct (wait_run tl ins s2 M1 M2 Hins)
    as (W1 & W2 & W3 & W4 & _ & _ & W7).
  rewrite M3 in W3, W7. rewrite Hsto, orb_true_r in W7.
  set (s2' := run tl ins s2) in *.
  destruct Hq as (Hr'' & Hrb & Hwb).
  destruct (wait_cycle tl i'' s2' W1 Hr'' W2) as (_ & _ & _ & F4 & F5 & F6).
  rewrite W3, Hsto, orb_true_r in F6. cbn [negb andb] in F6.
  rewrite Hrb, Hwb in F5. cbn [orb] in F5.
  assert (E : s3 = cycle tl i'' s2').
  { unfold s3, s2', s2.
    change (i :: i' :: ins ++ [i'']) with ([i; i'] ++ ins ++ [i'']).
    now rewrite !run_app. }
  split.
  { split.
    { rewrite B1. destruct (lsu_frame i' (cycle tl i s)) as (Y1 & _).
      fold e in Y1. rewrite Y1. apply STORE_wmask_values. }
    split; [exact B2|]. split; [exact B4 | exact B3]. }
  specialize (W7 eq_refl). specialize (M7 Hsto).
  rewrite E, F4, F5, F6, W4, W7, M4, M7.
  repeat split.
Qed.

Lemma store_instruction_witness :
  (state capturing_x1 = WAIT_INSTR /\ aluShamt capturing_x1 = 0
   /\ range (read_mem_rdata (word_in 0x0010A223)) 6 2 = 0x08)
  /\ mem_addr (ctl (combinational_process (word_in 0)
                      (cycle false (word_in 0x0010A223) capturing_x1))) = 9
  /\ mem_wdata (ctl (combinational_process (word_in 0)
                       (cycle false (word_in 0x0010A223) capturing_x1))) = 5
  /\ PC (run false (word_in 0x0010A223 :: word_in 0 :: [] ++ [word_in 0])
           capturing_x1) = 12.
Proof.
  split; [repeat split; reflexivity|].
  destruct (store_instruction false (word_in 0x0010A223) (word_in 0) []
              (word_in 0) capturing_x1)
    as ((_ & Hd & Ha & _) & _ & Hpc & _).
  - reflexivity.
  - reflexivity.
  - reflexivity.
  - reflexivity.
  - reflexivity.
  - constructor.
  - repeat split.
  - reflexivity.
  - rewrite Hd, Ha, Hpc. repeat split.
Defined.

(** X21: A load raises the read strobe in its execute evaluation, with the
    address [rs1[23:0] + Iimm[23:0]] and no write mask.  It waits while
    the memory is busy; the data on the bus in the first cycle in which
    it is not is written to [rd], in the width selected by bits 15..14 of
    the word.  No other register changes, [PC] advances by 4 and the core
    fetches. *)
Theorem load_instruction (tl : bool) (i i' : Inputs) (ins : list Inputs)
    (i'' : Inputs) (s : Core) :
  state s = WAIT_INSTR -> aluShamt s = 0 ->
  reset i = true -> mem_rbusy i = false -> reset i' = true ->
  Forall stalled ins -> quiet i'' ->
  let w := read_mem_rdata i in
  range w 6 2 = 0x00 ->
  let rd := range w 11 7 in
  let addr := range (reg (registerFile s) (range w 19 15)) 23 0
              + range (sign_extend (range w 31 20) 12) 23 0 in
  let e := combinational_process i' (cycle tl i s) in
  let s3 := run tl (i :: i' :: ins ++ [i'']) s in
  (mem_rstrb (ctl e) = true /\ mem_addr (ctl e) = addr
   /\ mem_wmask (ctl e) = 0)
  /\ registerFile s3 =
       (if rd =? 0 then registerFile s
        else <[Z.to_nat rd := load_value w addr (read_mem_rdata i'')]>
               (registerFile s))
  /\ PC s3 = trunc 32 (PC s + 4)
  /\ state s3 = FETCH_INSTR.
Proof.
  intros Hs Hn Hr Hb Hr' Hins Hq w Hc rd addr e s3.
  destruct (memory_execute tl i i' s Hs Hn Hr Hb Hr' (or_introl Hc))
    as ((M1 & M2 & M3 & M4) & (M5 & M6 & _) & B1 & _ & B3 & B4).
  fold w in M3, M5, M6, B1, B3, B4.
  set (d := decode_word (registerFile s) w) in *.
  fold e in B1, B3, B4.
  opcode_flags (registerFile s) Hc d.
  set (s2 := run tl [i; i'] s) in *.
  rewrite Hsto in B1, B4. rewrite Hld in B3.
  pose proof (Iimm_value (registerFile s) w) as HI. fold d in HI.
  rewrite HI in B4. fold addr in B4.
  destruct (wait_run tl ins s2 M1 M2 Hins)
    as (W1 & W2 & W3 & W4 & W5 & W6 & _).
  rewrite M3 in W3, W5, W6.
  set (s2' := run tl ins s2) in *.
  destruct Hq as (Hr'' & Hrb & Hwb).
  destruct (wait_cycle tl i'' s2' W1 Hr'' W2) as (_ & _ & F3 & F4 & F5 & F6).
  rewrite W3 in F3. rewrite W3, Hsto, Hbr in F6. cbn [orb negb andb] in F6.
  rewrite Hrb, Hwb in F5. cbn [orb] in F5.
  change (rdId d) with rd in F6, W5, W6, M5, M6.
  set (e'' := combinational_process i'' s2') in *.
  assert (Hdata : writeBackData (ctl e'')
                  = load_value w addr (read_mem_rdata i'')).
  { pose proof (combinational_writeBackData i'' s2') as H. cbv zeta in H.
    fold e'' in H. rewrite F3 in H.
    rewrite Hld, Hsy, Hjal, Hjalr, Hlui, Hau, Halu in H.
    cbn [orb] in H. cbv iota in H.
    rewrite !Z.lor_0_l in H. rewrite H.
    destruct (lsu_frame i'' s2') as (Y1 & Y2 & Y3).
    fold e'' in Y1, Y2, Y3. rewrite F3 in Y2, Y3.
    rewrite Y1.
    rewrite (LOAD_data_value i'' _ (registerFile s) w) by exact Y2.
    rewrite loadstore_addr_value, Y2, Y3, Hsto, HI. reflexivity. }
  assert (E : s3 = cycle tl i'' s2').
  { unfold s3, s2', s2.
    change (i :: i' :: ins ++ [i'']) with ([i; i'] ++ ins ++ [i'']).
    now rewrite !run_app. }
  split; [split; [exact B3 | split; [exact B4 | exact B1]]|].
  rewrite E, F4, F5, F6, W4, M4, Hdata.
  split; [|split; reflexivity].
  destruct (Z.eqb_spec rd 0) as [E0 | E0]; cbn [negb].
  - rewrite W6, M6 by exact E0. reflexivity.
  - rewrite W5, M5. reflexivity.
Qed.

Lemma load_instruction_witness :
  (state capturing_x1 = WAIT_INSTR /\ aluShamt capturing_x1 = 0
   /\ range (read_mem_rdata (word_in 0x00300103)) 6 2 = 0x00)
  /\ mem_addr (ctl (combinational_process (word_in 0)
                      (cycle false (word_in 0x00300103) capturing_x1))) = 3
  /\ reg (registerFile
            (run false (word_in 0x00300103 :: word_in 0
                        :: [] ++ [word_in 0x80000000])
               capturing_x1)) 2 = 0x180.
Proof.
  split; [repeat split; reflexivity|].
  destruct (load_instruction false (word_in 0x00300103) (word_in 0) []
              (word_in 0x80000000) capturing_x1)
    as ((_ & Ha & _) & Hreg & _).
  - reflexivity.
  - reflexivity.
  - reflexivity.
  - reflexivity.
  - reflexivity.
  - constructor.
  - repeat split.
  - reflexivity.
  - rewrite Ha, Hreg. repeat split.
Defined.

(** ** [auipc] *)

(** X22: [auipc] stores [PC] plus bits 23..0 of the upper immediate in [rd]:
    bits 31..24 of the word do not reach the sum, and a word below
    [0x10000] with opcode [0x17] adds nothing.  [PC] advances by 4. *)
Theorem auipc_instruction (tl : bool) (i i' : Inputs) (s : Core) :
  state s = WAIT_INSTR ->
  reset i = true -> mem_rbusy i = false -> reset i' = true ->
  let w := read_mem_rdata i in
  let rd := range w 11 7 in
  range w 6 2 = 0x05 ->
  let U := if (Z.land w 0x7F =? 0x17) && (w <? 0x10000) then 0
           else range (Z.shiftl (Z.shiftr w 12) 12) 23 0 in
  let s2 := run tl [i; i'] s in
  registerFile s2 =
    (if rd =? 0 then registerFile s
     else <[Z.to_nat rd := trunc 32 (PC s + U)]> (registerFile s))
  /\ PC s2 = trunc 32 (PC s + 4)
  /\ state s2 = FETCH_INSTR.
Proof.
  intros Hs Hr Hb Hr' w rd Hc U s2.
  destruct (two_cycles tl i i' s Hs Hr Hb Hr')
    as ((Hd' & Hs1 & _) & Hj & Hpc & Hpi & _ & Hreg & Hst).
  pose proof (combinational_writeBackData i' (cycle tl i s)) as Hwb.
  cbv zeta in Hwb. rewrite Hd' in Hwb.
  fold s2 in Hpc, Hreg, Hst. fold w in Hpc, Hpi, Hreg, Hst, Hj, Hwb, Hc.
  set (d := decode_word (registerFile s) w) in *.
  opcode_flags (registerFile s) Hc d.
  rewrite Hld, Hsy, Hjal, Hjalr, Hlui, Hau, Halu in Hwb.
  cbn [orb] in Hwb. cbv iota in Hwb. rewrite !Z.lor_0_l, !Z.lor_0_r in Hwb.
  rewrite Hjal, Hau in Hpi.
  assert (HU : range (Uimm (compute_immediates_of d)) (ADDR_WIDTH - 1) 0 = U).
  { unfold U. change (ADDR_WIDTH - 1) with 23.
    destruct ((Z.land w 0x7F =? 0x17) && (w <? 0x10000)) eqn:E.
    - cbn [compute_immediates_of Uimm]. unfold compute_Uimm.
      unfold d. cbn [decode_word full_instr]. cbv zeta.
      apply andb_prop in E as [E1 E2]. rewrite E1, E2. reflexivity.
    - unfold d. rewrite Uimm_as_specified; [|apply word32_read | exact E].
      unfold spec_Uimm, cat. rewrite Z.lor_0_r. do 2 f_equal.
      unfold range. change (31 - 12 + 1) with 20.
      rewrite Z.land_ones, Z.shiftr_div_pow2 by lia.
      apply Z.mod_small. pose proof (word32_read i) as Hw. fold w in Hw.
      destruct Hw as [Hw0 Hw1]. split.
      + apply Z.div_pos; lia.
      + apply Z.div_lt_upper_bound; [lia|]. exact Hw1. }
  rewrite HU in Hpi. rewrite Hpi in Hwb.
  rewrite Hjal, Hbr in Hj. cbn [orb andb] in Hj.
  rewrite Hjalr, Hj in Hpc.
  rewrite Hld, Hsto, Halu in Hst. cbn [orb andb] in Hst.
  rewrite Hbr, Hsto, Hwb in Hreg. cbn [orb negb andb] in Hreg.
  change (rdId d) with rd in Hreg.
  split; [|split; [exact Hpc | exact Hst]].
  rewrite Hreg. destruct (rd =? 0); reflexivity.
Qed.

Lemma auipc_instruction_witness :
  (state capturing_x1 = WAIT_INSTR
   /\ range (read_mem_rdata (word_in 0x12345117)) 6 2 = 0x05)
  /\ reg (registerFile
            (run false [word_in 0x12345117; word_in 0] capturing_x1)) 2
     = 0x345008.
Proof.
  split; [split; reflexivity|].
  destruct (auipc_instruction false (word_in 0x12345117) (word_in 0)
              capturing_x1 eq_refl eq_refl eq_refl eq_refl eq_refl)
    as (Hreg & _).
  rewrite Hreg. reflexivity.
Defined.

(** ** Instruction fetch *)

Lemma idle_cycle (tl : bool) (i : Inputs) (s : Core) :
  reset i = true ->
  state s = FETCH_INSTR \/ (state s = WAIT_INSTR /\ mem_rbusy i = true) ->
  let e := combinational_process i s in
  (mem_addr (ctl e) = PC s /\ mem_wmask (ctl e) = 0
   /\ mem_rstrb (ctl e) = State_eqb (state s) FETCH_INSTR)
  /\ state (cycle tl i s) = WAIT_INSTR
  /\ PC (cycle tl i s) = PC s
  /\ registerFile (cycle tl i s) = registerFile s
  /\ dec (cycle tl i s) = dec s.
Proof.
  intros Hr Hst e.
  assert (Hne : State_eqb (state s) EXECUTE = false
                /\ State_eqb (state s) WAIT_ALU_OR_MEM = false
                /\ State_eqb (state s) WAIT_INSTR && negb (mem_rbusy i)
                   = false
                /\ State_eqb (state s) WAIT_INSTR
                   || State_eqb (state s) FETCH_INSTR = true).
  { destruct Hst as [-> | [-> ->]]; repeat split. }
  destruct Hne as (N1 & N2 & N3 & N4).
  assert (Hd : dec e = dec s).
  { unfold e. rewrite combinational_dec, N3. reflexivity. }
  assert (Hpc : PC e = PC s) by (apply combinational_PC_idle; exact N1).
  destruct (combinational_bus i s) as (B1 & _ & B3 & B4).
  fold e in B1, B3, B4. rewrite N1 in B1, B3, B4. rewrite N4 in B4.
  cbn [andb orb] in B1, B3, B4. rewrite orb_false_r in B3.
  assert (Hwb : writeBack (ctl e) = false).
  { unfold e. rewrite combinational_writeBack, N1, N2. apply andb_false_r. }
  destruct (clock_running tl i e Hr) as (E1 & _ & E3 & E4 & _).
  assert (Es : cycle tl i s = clock_process tl i e) by reflexivity.
  rewrite <- Es in E1, E3, E4.
  split; [split; [rewrite B4; exact Hpc | split; [exact B1 | exact B3]]|].
  split.
  { rewrite cycle_state by exact Hr.
    destruct Hst as [-> | [-> ->]]; reflexivity. }
  split; [rewrite E1; exact Hpc|].
  split; [|rewrite E4; exact Hd].
  rewrite E3, Hwb. apply combinational_registerFile.
Qed.

(** X23: In [FETCH_INSTR] the core raises the read strobe with [PC] as the
    address and no write mask, and moves to [WAIT_INSTR]; there it stays,
    still presenting [PC], for as long as the memory reports a pending
    read.  Over these cycles [PC], the registers and the decoded
    instruction are unchanged. *)
Theorem fetch_waits_for_memory (tl : bool) (i : Inputs) (ins : list Inputs)
    (s : Core) :
  state s = FETCH_INSTR -> reset i = true -> Forall read_pending ins ->
  let e := combinational_process i s in
  let s1 := run tl (i :: ins) s in
  (mem_rstrb (ctl e) = true /\ mem_addr (ctl e) = PC s
   /\ mem_wmask (ctl e) = 0)
  /\ state s1 = WAIT_INSTR
  /\ PC s1 = PC s
  /\ registerFile s1 = registerFile s
  /\ dec s1 = dec s
  /\ (forall j, mem_addr (ctl (combinational_process j s1)) = PC s).
Proof.
  intros Hs Hr Hins e s1.
  destruct (idle_cycle tl i s Hr (or_introl Hs))
    as ((A1 & A2 & A3) & C1 & C2 & C3 & C4).
  fold e in A1, A2, A3. rewrite Hs in A3.
  split; [split; [exact A3 | split; [exact A1 | exact A2]]|].
  unfold s1. rewrite run_cons.
  revert C1 C2 C3 C4. generalize (cycle tl i s). clear s1.
  induction ins as [|j ins IH]; intros s0 C1 C2 C3 C4.
  - cbn [run fold_left]. repeat split; try assumption.
    intros j. destruct (combinational_bus j s0) as (_ & _ & _ & B4).
    rewrite B4, C1. cbn [State_eqb orb].
    rewrite combinational_PC_idle by (rewrite C1; reflexivity). exact C2.
  - apply Forall_cons_iff in Hins as [(Hrj & Hbj) Hins]. rewrite run_cons.
    destruct (idle_cycle tl j s0 Hrj (or_intror (conj C1 Hbj)))
      as (_ & D1 & D2 & D3 & D4).
    apply (IH Hins).
    + exact D1.
    + rewrite D2. exact C2.
    + rewrite D3. exact C3.
    + rewrite D4. exact C4.
Qed.

Lemma fetch_waits_for_memory_witness :
  (state fetching_x5 = FETCH_INSTR
   /\ Forall read_pending
        [{| reset := true; mem_rdata := 0; mem_rbusy := true;
            mem_wbusy := false |}])
  /\ state (run false
              [word_in 0;
               {| reset := true; mem_rdata := 0; mem_rbusy := true;
                  mem_wbusy := false |}] fetching_x5) = WAIT_INSTR
  /\ PC (run false
           [word_in 0;
            {| reset := true; mem_rdata := 0; mem_rbusy := true;
               mem_wbusy := false |}] fetching_x5) = 16.
Proof.
  assert (H : Forall read_pending
                [{| reset := true; mem_rdata := 0; mem_rbusy := true;
                    mem_wbusy := false |}])
    by (repeat constructor).
  split; [split; [reflexivity | exact H]|].
  destruct (fetch_waits_for_memory false (word_in 0) _ fetching_x5
              eq_refl eq_refl H) as (_ & H1 & H2 & _).
  rewrite H1, H2. split; reflexivity.
Defined.

(** ** The shifter outside [WAIT_ALU_OR_MEM] *)

Lemma cycle_idle_outside_wait (tl : bool) (i : Inputs) (s : Core) :
  State_eqb (state s) WAIT_ALU_OR_MEM || (aluShamt s =? 0) = true ->
  State_eqb (state (cycle tl i s)) WAIT_ALU_OR_MEM
  || (aluShamt (cycle tl i s) =? 0) = true.
Proof.
  intros Inv. destruct (reset i) eqn:Hr.
  2:{ unfold cycle. generalize (combinational_process i s). intros S.
      unfold clock_process. rewrite Hr. reflexivity. }
  set (s' := combinational_process i s).
  assert (Hidle : aluShamt s = 0 ->
                  aluWr (ctl s') && funct3IsShift (alu s') = false ->
                  (aluShamt (cycle tl i s) =? 0) = true).
  { intros Hn Hl.
    destruct (cycle_shifter_idle tl i s Hr Hn Hl) as (_ & ->). reflexivity. }
  assert (Hwr : aluWr (ctl s') = State_eqb (state s) EXECUTE && isALU (dec s'))
    by apply combinational_aluWr.
  rewrite cycle_state by exact Hr. fold s'.
  destruct (state s) eqn:Hs; cbn [State_eqb orb andb spec_next_state] in *.
  - apply Hidle; [now apply Z.eqb_eq|]. rewrite Hwr. reflexivity.
  - replace (State_eqb (if negb (mem_rbusy i) then EXECUTE else WAIT_INSTR)
               WAIT_ALU_OR_MEM) with false
      by (destruct (mem_rbusy i); reflexivity).
    apply Hidle; [now apply Z.eqb_eq|]. rewrite Hwr. reflexivity.
  - destruct (needToWait (ctl s')) eqn:Hw; [reflexivity|].
    cbn [State_eqb orb]. apply Hidle; [now apply Z.eqb_eq|].
    pose proof (combinational_needToWait i s) as Hn. cbv zeta in Hn.
    fold s' in Hn. rewrite Hw in Hn. symmetry in Hn.
    apply orb_false_elim in Hn as [_ Hn]. rewrite Hwr. exact Hn.
  - destruct (aluShamt s =? 0) eqn:E; cbn [negb andb]; [|reflexivity].
    destruct (negb (mem_rbusy i) && negb (mem_wbusy i)); [|reflexivity].
    cbn [State_eqb orb]. apply Hidle; [now apply Z.eqb_eq|].
    rewrite Hwr. reflexivity.
Qed.

(** X24: However the core is clocked from its constructed state, in or
    out of reset, the shift count [aluShamt] is 0 in every state other
    than [WAIT_ALU_OR_MEM]: a shift is latched only by an execute cycle
    that moves there, and the core leaves only when the count is back to
    0. *)
Theorem shifter_idle_outside_wait (tl : bool) (ins : list Inputs) :
  let s := run tl ins initial_core in
  State_eqb (state s) WAIT_ALU_OR_MEM || (aluShamt s =? 0) = true.
Proof.
  cbv zeta.
  assert (H : forall s0,
             State_eqb (state s0) WAIT_ALU_OR_MEM || (aluShamt s0 =? 0) = true ->
             State_eqb (state (run tl ins s0)) WAIT_ALU_OR_MEM
             || (aluShamt (run tl ins s0) =? 0) = true).
  { induction ins as [|i ins IH]; intros s0 H0; [exact H0|].
    rewrite run_cons. apply IH. apply cycle_idle_outside_wait. exact H0. }
  apply H. reflexivity.
Qed.
